(** * Kuzzle DSL filter standardization (lib/api/dsl/transform/standardize.js)

    A shallow embedding of the [Standardizer] class and a verification of the
    properties its specification states about it.

    JavaScript values are embedded as a tree of tagged values.  Numbers are
    IEEE-754 doubles (Rocq's primitive floats), so [Infinity], [-Infinity],
    [NaN] and the two zeroes behave as they do in the source.  Objects are
    their own enumerable properties, in [Object.keys] order; the prototype of
    an object is not part of its value.  Objects and arrays carry an [origin]
    tag telling who allocated them (the caller, or the standardizer), which is
    what the frame property of the module is stated with. *)

From Corelib Require Import PrimFloat.
From Stdlib Require Import Bool List String Ascii Arith Lia.
From Stdlib Require Import DecimalString Permutation.
Import ListNotations.

Set Implicit Arguments.
Local Open Scope list_scope.
Local Open Scope string_scope.

(** ** JavaScript values *)

(** Who allocated an object or an array: the caller of [standardize]
    ([Input]) or the standardizer itself, through an object or array literal,
    [Array.prototype.map] or [Array.prototype.concat] ([Fresh]). *)
Inductive origin : Type := Input | Fresh.

#[warnings="-register-all"]
Inductive value : Type :=
| VUndef
| VNull
| VBool (b : bool)
| VNum (x : float)
| VStr (s : string)
| VArr (o : origin) (items : list value)
| VObj (o : origin) (fields : list (string * value)).

(** Exceptions.  [BadRequestError] is the error of kuzzle-common-objects and
    carries its message; [TypeError] and [RangeError] are the engine's own
    (their messages are engine specific and are not modelled). *)
Inductive exn : Type :=
| BadRequestError (message : string)
| TypeError
| RangeError.

(** The three ways a call can end: a value (a resolved promise, or a plain
    return value), a rejected promise, or an exception thrown synchronously. *)
Inductive outcome (A : Type) : Type :=
| Resolved (a : A)
| Rejected (e : exn)
| Thrown (e : exn).

Arguments Resolved {A} a.
Arguments Rejected {A} e.
Arguments Thrown {A} e.

(** [p.then(f)]: a rejection skips [f]; an exception thrown by the callback
    rejects the resulting promise.  A receiver that threw never produced a
    promise, so the exception goes on. *)
Definition then_ {A B : Type} (p : outcome A) (f : A -> outcome B) : outcome B :=
  match p with
  | Resolved a =>
      match f a with
      | Thrown e => Rejected e
      | r => r
      end
  | Rejected e => Rejected e
  | Thrown e => Thrown e
  end.

(** Sequencing of statements inside one function body: exceptions go on. *)
Definition seq_ {A B : Type} (p : outcome A) (f : A -> outcome B) : outcome B :=
  match p with
  | Resolved a => f a
  | Rejected e => Rejected e
  | Thrown e => Thrown e
  end.

Declare Scope js_scope.
Delimit Scope js_scope with js.
Notation "p >>= f" := (then_ p f) (at level 50, left associativity) : js_scope.
Notation "'let*' x ':=' p 'in' k" := (seq_ p (fun x => k))
  (at level 10, x name, p at level 100, k at level 200) : js_scope.
Local Open Scope js_scope.

(** ** Primitive operations of the language *)

(** The double quote character, for the error messages. *)
Definition dq : string := String (ascii_of_nat 34) EmptyString.

Definition quoted (s : string) : string := dq ++ s ++ dq.

Definition index_key (n : nat) : string :=
  NilEmpty.string_of_uint (Nat.to_uint n).

Definition typeof (v : value) : string :=
  match v with
  | VUndef => "undefined"
  | VNull => "object"
  | VBool _ => "boolean"
  | VNum _ => "number"
  | VStr _ => "string"
  | VArr _ _ => "object"
  | VObj _ _ => "object"
  end.

Definition isArray (v : value) : bool :=
  match v with
  | VArr _ _ => true
  | _ => false
  end.

(** ToBoolean. *)
Definition truthy (v : value) : bool :=
  match v with
  | VUndef | VNull => false
  | VBool b => b
  | VNum x => negb (x =? 0)%float && negb (is_nan x)
  | VStr s => negb (String.eqb s EmptyString)
  | VArr _ _ | VObj _ _ => true
  end.

Definition nullish (v : value) : bool :=
  match v with
  | VUndef | VNull => true
  | _ => false
  end.

Fixpoint lookup (k : string) (fields : list (string * value)) : value :=
  match fields with
  | [] => VUndef
  | (k', v) :: rest => if String.eqb k k' then v else lookup k rest
  end.

Definition char_at (s : string) (n : nat) : value :=
  match String.get n s with
  | Some c => VStr (String c EmptyString)
  | None => VUndef
  end.

(** [o[k]] for an attribute name [k] on a value that is neither [undefined]
    nor [null].  On arrays and strings the module reads by name only
    attribute names of the DSL, which they do not have; their [length] goes
    through [length_is] and their items through [get_index]. *)
Definition get_prop (o : value) (k : string) : value :=
  match o with
  | VObj _ fields => lookup k fields
  | _ => VUndef
  end.

Fixpoint float_of_nat (n : nat) : float :=
  match n with
  | O => 0%float
  | S m => (float_of_nat m + 1)%float
  end.

(** [v.length === n] for a literal [n]. *)
Definition length_is (v : value) (n : nat) : outcome bool :=
  match v with
  | VUndef | VNull => Thrown TypeError
  | VArr _ items => Resolved (Nat.eqb (List.length items) n)
  | VStr s => Resolved (Nat.eqb (String.length s) n)
  | VObj _ fields =>
      Resolved (match lookup "length" fields with
                | VNum x => (x =? float_of_nat n)%float
                | _ => false
                end)
  | _ => Resolved false
  end.

(** [o[n]] for a numeric index. *)
Definition get_index (o : value) (n : nat) : value :=
  match o with
  | VArr _ items => nth n items VUndef
  | VStr s => char_at s n
  | VObj _ fields => lookup (index_key n) fields
  | _ => VUndef
  end.

(** Reading a property of [undefined] or [null] throws. *)
Definition read (o : value) (k : string) : outcome value :=
  if nullish o then Thrown TypeError else Resolved (get_prop o k).

(** [Object.keys]. *)
Definition keys (v : value) : outcome (list string) :=
  match v with
  | VUndef | VNull => Thrown TypeError
  | VObj _ fields => Resolved (map fst fields)
  | VArr _ items => Resolved (map index_key (seq 0 (List.length items)))
  | VStr s => Resolved (map index_key (seq 0 (String.length s)))
  | VBool _ | VNum _ => Resolved []
  end.

Definition is_number (v : value) : bool :=
  match v with
  | VNum _ => true
  | _ => false
  end.

Definition mem (k : string) (l : list string) : bool :=
  existsb (String.eqb k) l.

(** ** Collaborators

    The geo helpers ([util/convertGeopoint], [util/convertDistance],
    [util/geoLocationToCamelCase]), the [ngeohash] decoder and the engine
    services the module calls ([RegExp], [Number.parseFloat],
    [JSON.stringify], the conversion of arbitrary values to strings, the
    bitwise AND of arbitrary values, the members every object inherits) are
    outside the file.
    They are taken as parameters: every result below holds whatever they do. *)
Record host : Type := {
  (** [geoLocationToCamelCase(obj)] *)
  geoLocationToCamelCase : value -> outcome value;
  (** the two capture groups of [RegexStringBoundingBox] on a string, if it matches *)
  bbox_string : string -> option (string * string);
  (** [RegexGeohash.test] *)
  geohash_test : string -> bool;
  parseFloat : string -> float;
  (** [geohash.decode(s)]: latitude and longitude *)
  geohash_decode : string -> float * float;
  (** [convertGeopoint(v)]: what it returns ([null] for a point it does not
      recognise), or the exception it throws *)
  convertGeopoint : value -> exn + value;
  (** [convertDistance(v)]: a number, or the exception it throws *)
  convertDistance : value -> exn + float;
  (** [new RegExp(value, flags)]: the message of the exception, if it throws *)
  regexp_error : value -> value -> option string;
  JSON_stringify : value -> string;
  (** ToString on values that are not strings *)
  host_ToString : value -> string;
  (** [a & b] when an operand converts to an integer other than 0 and 1 *)
  host_bitand : value -> value -> float;
  (** [String.prototype.concat] *)
  string_concat : string -> value -> string;
  (** the members the instance inherits from [Object.prototype]: [None] when
      the name is not one of them, otherwise how calling it on the filter ends *)
  inherited : string -> value -> option (outcome value)
}.

Section Validators.

Variable h : host.

Definition ToString (v : value) : string :=
  match v with
  | VStr s => s
  | _ => host_ToString h v
  end.

(** ToInt32 of a value, when it is 0 ([false]) or 1 ([true]). *)
Definition bit (v : value) : option bool :=
  match v with
  | VUndef | VNull => Some false
  | VBool b => Some b
  | VNum x =>
      if (x =? 0)%float then Some false
      else if (x =? 1)%float then Some true
      else None
  | _ => None
  end.

(** [a & b]: a number. *)
Definition bitand (a b : value) : value :=
  match bit a, bit b with
  | Some x, Some y => VNum (if x && y then 1 else 0)%float
  | _, _ => VNum (host_bitand h a b)
  end.

(** ** Generic validation primitives (bottom of the file) *)

Definition reject {A : Type} (message : string) : outcome A :=
  Rejected (BadRequestError message).

Definition onlyOneFieldAttribute (fieldsList : list string) (keyword : string)
  : outcome (list string) :=
  if Nat.ltb 1 (List.length fieldsList)
  then reject (quoted keyword ++ " can contain only one attribute")
  else Resolved fieldsList.

Definition requireAttribute (filter : value) (keyword attribute : string) : outcome unit :=
  let* v := read filter attribute in
  if negb (truthy v)
  then reject (quoted keyword ++ " requires the following attribute: " ++ attribute)
  else Resolved tt.

Definition mustBeNonEmptyObject (filter : value) (keyword : string) : outcome (list string) :=
  match filter with
  | VObj _ ((_ :: _) as fields) => Resolved (map fst fields)
  | _ => reject (quoted keyword ++ " must be a non-empty object")
  end.

Definition mustBeString (filter : value) (keyword field : string) : outcome unit :=
  let* v := read filter field in
  if negb (String.eqb (typeof v) "string")
  then reject ("Attribute " ++ quoted field ++ " in " ++ quoted keyword ++ " must be a string")
  else Resolved tt.

Definition mustBeNonEmptyArray (filter : value) (keyword field : string) : outcome unit :=
  let* v := read filter field in
  match v with
  | VArr _ [] =>
      reject ("Attribute " ++ quoted field ++ " in  " ++ quoted keyword ++ " cannot be empty")
  | VArr _ _ => Resolved tt
  | _ => reject ("Attribute " ++ quoted field ++ " in " ++ quoted keyword ++ " must be an array")
  end.

(** [fields[0]]; indexing past the end gives [undefined], which a template
    or a property access turns into the string of that name. *)
Definition first_key (fieldsList : list string) : string :=
  hd "undefined" fieldsList.

(** Modelled from the spec: [util/fieldsExist], the multi-field-existence
    checker, which is not among the sources.  Every listed field of the
    object is present with the requested [typeof] and, when a pattern is
    given, matches it.  Fields of [undefined] and [null] are absent. *)
Definition fieldsExist (obj : value) (fields : list string) (type : string)
  (regex : option (string -> bool)) : bool :=
  forallb (fun f =>
    let v := get_prop obj f in
    negb (nullish obj) && String.eqb (typeof v) type &&
    match regex, v with
    | Some test, VStr s => test s
    | Some _, _ => false
    | None, _ => true
    end) fields.

(** ** Leaf predicates *)

(** [name || 'exists'] *)
Definition or_default (name : option string) (default : string) : string :=
  match name with
  | Some n => if String.eqb n EmptyString then default else n
  | None => default
  end.

Definition exists_ (filter : value) (name : option string) : outcome value :=
  let name := or_default name "exists" in
  mustBeNonEmptyObject (get_prop filter name) name
  >>= (fun field => onlyOneFieldAttribute field name)
  >>= (fun _ => mustBeString (get_prop filter name) name "field")
  >>= (fun _ =>
        let* empty := length_is (get_prop (get_prop filter name) "field") 0 in
        if empty then reject "exists: cannot test empty field name"
        else Resolved filter).

(** [values.map(v => ({equals: {[field]: v}}))] *)
Definition equals_of (field : string) (values : list value) : list value :=
  map (fun v => VObj Fresh [("equals", VObj Fresh [(field, v)])]) values.

(** The items of an array that went through [mustBeNonEmptyArray]. *)
Definition items_of (v : value) : list value :=
  match v with
  | VArr _ items => items
  | _ => []
  end.

Definition ids (filter : value) : outcome value :=
  let o := get_prop filter "ids" in
  mustBeNonEmptyObject o "ids"
  >>= (fun field => onlyOneFieldAttribute field "ids")
  >>= (fun _ => requireAttribute o "ids" "values")
  >>= (fun _ => mustBeNonEmptyArray o "ids" "values")
  >>= (fun _ =>
        let values := items_of (get_prop o "values") in
        if existsb (fun v => negb (String.eqb (typeof v) "string")) values
        then reject ("Array " ++ quoted "values" ++ " in keyword " ++ quoted "ids"
                     ++ " can only contain strings")
        else Resolved (VObj Fresh [("or", VArr Fresh (equals_of "_id" values));
                                   ("_isLeaf", VBool true)])).

Definition missing (filter : value) : outcome value :=
  exists_ filter (Some "missing")
  >>= (fun f =>
        let* m := read (get_prop f "missing") "field" in
        Resolved (VObj Fresh [("not", VObj Fresh [("exists", VObj Fresh [("field", m)])])])).

(** The state of the loop of [range]: the closure variables [high], [low]
    and [error]. *)
Record bounds : Type := { high : float; low : float; error : option exn }.

(** The number under a key that the [typeof] check of [range] went through. *)
Definition number_of (v : value) : float :=
  match v with
  | VNum x => x
  | _ => nan
  end.

Definition range_step (rangeField : string) (obj : value) (st : bounds) (rangeType : string)
  : bounds :=
  let st1 :=
    if String.prefix "lt" rangeType then
      if negb (high st =? infinity)%float
      then {| high := high st; low := low st;
              error := Some (BadRequestError
                (quoted ("range." ++ rangeField ++ ":") ++ " only 1 upper boundary allowed")) |}
      else {| high := number_of (get_prop obj rangeType); low := low st; error := error st |}
    else st in
  if String.prefix "gt" rangeType then
    if negb (low st1 =? neg_infinity)%float
    then {| high := high st1; low := low st1;
            error := Some (BadRequestError
              (quoted ("range." ++ rangeField ++ ":") ++ " only 1 lower boundary allowed")) |}
    else {| high := high st1; low := number_of (get_prop obj rangeType); error := error st1 |}
  else st1.

Definition range_bounds (rangeField : string) (obj : value) (rangeValues : list string) : bounds :=
  fold_left (range_step rangeField obj) rangeValues
    {| high := infinity; low := neg_infinity; error := None |}.

Definition range_values (filter : value) (rangeField : string) (rangeValues : list string)
  : outcome value :=
  let obj := get_prop (get_prop filter "range") rangeField in
  if existsb (fun v => negb (mem v ["gt"; "lt"; "gte"; "lte"])) rangeValues
  then reject (quoted ("range." ++ rangeField)
               ++ " accepts only the following attributes : gt, gte, lt, lte")
  else
    match find (fun v => negb (String.eqb (typeof (get_prop obj v)) "number")) rangeValues with
    | Some bad => reject (quoted ("range." ++ rangeField ++ "." ++ bad) ++ " must be a number")
    | None =>
        let st := range_bounds rangeField obj rangeValues in
        match error st with
        | Some e => Rejected e
        | None =>
            if (high st <=? low st)%float
            then reject (quoted ("range." ++ rangeField ++ ":")
                         ++ " lower boundary must be strictly inferior to the upper one")
            else Resolved filter
        end
    end.

Definition range (filter : value) : outcome value :=
  mustBeNonEmptyObject (get_prop filter "range") "range"
  >>= (fun field => onlyOneFieldAttribute field "range")
  >>= (fun field =>
        let rangeField := first_key field in
        mustBeNonEmptyObject (get_prop (get_prop filter "range") rangeField)
                             ("range." ++ rangeField)
        >>= (fun rangeValues => range_values filter rangeField rangeValues)).

Definition regexp (filter : value) : outcome value :=
  mustBeNonEmptyObject (get_prop filter "regexp") "regexp"
  >>= (fun field => onlyOneFieldAttribute field "regexp")
  >>= (fun field =>
        let regexpField := first_key field in
        let obj := get_prop (get_prop filter "regexp") regexpField in
        mustBeNonEmptyObject obj ("regexp." ++ regexpField)
        >>= (fun regexpValues =>
              if existsb (fun v => negb (mem v ["flags"; "value"])) regexpValues
              then reject ("Keyword " ++ quoted "regexp"
                           ++ " can only contain the following attributes: flags, value")
              else requireAttribute obj "regexp" "value")
        >>= (fun _ =>
              if truthy (get_prop obj "flags")
              then mustBeString obj "regexp" "flags"
              else Resolved tt)
        >>= (fun _ =>
              match regexp_error h (get_prop obj "value") (get_prop obj "flags") with
              | Some message =>
                  reject ("Invalid regular expression "
                          ++ quoted (ToString (get_prop obj "value")) ++ ": " ++ message)
              | None => Resolved filter
              end)).

Definition equals (filter : value) : outcome value :=
  mustBeNonEmptyObject (get_prop filter "equals") "equals"
  >>= (fun field => onlyOneFieldAttribute field "equals")
  >>= (fun field => mustBeString (get_prop filter "equals") "equals" (first_key field))
  >>= (fun _ => Resolved filter).

Definition in_ (filter : value) : outcome value :=
  let o := get_prop filter "in" in
  mustBeNonEmptyObject o "in"
  >>= (fun field => onlyOneFieldAttribute field "in")
  >>= (fun field =>
        let inValue := first_key field in
        mustBeNonEmptyArray o "in" inValue
        >>= (fun _ =>
              let values := items_of (get_prop o inValue) in
              if existsb (fun v => negb (String.eqb (typeof v) "string")) values
              then reject ("Array " ++ quoted inValue ++ " in keyword " ++ quoted "in"
                           ++ " can only contain strings")
              else Resolved (VObj Fresh [("or", VArr Fresh (equals_of inValue values));
                                         ("_isLeaf", VBool true)]))).

(** ** Geo predicates *)

Definition bbox_matches (s : string) : bool :=
  match bbox_string h s with
  | Some _ => true
  | None => false
  end.

Definition all_numbers (items : list value) : bool :=
  forallb (fun v => String.eqb (typeof v) "number") items.

(** The [standardized] object of [geoBoundingBox] as the cascade of format
    tests leaves it: its fields, or the exception a branch throws. *)
Definition bbox_standardized (bBox : value) : outcome (list (string * value)) :=
  let bottomRight := get_prop bBox "bottomRight" in
  let topLeft := get_prop bBox "topLeft" in
  if fieldsExist bBox ["top"; "left"; "bottom"; "right"] "number" None then
    Resolved (map (fun v => (v, get_prop bBox v)) ["top"; "left"; "bottom"; "right"])
  else if fieldsExist bBox ["bottomRight"; "topLeft"] "object" None
          && fieldsExist bottomRight ["lat"; "lon"] "number" None
          && fieldsExist topLeft ["lat"; "lon"] "number" None then
    Resolved [("top", get_prop topLeft "lat"); ("left", get_prop topLeft "lon");
              ("bottom", get_prop bottomRight "lat"); ("right", get_prop bottomRight "lon")]
  else if fieldsExist bBox ["bottomRight"; "topLeft"] "object" None
          && isArray bottomRight && isArray topLeft
          && Nat.eqb (List.length (items_of bottomRight)) 2
          && Nat.eqb (List.length (items_of topLeft)) 2
          && all_numbers (items_of bottomRight)
          && all_numbers (items_of topLeft) then
    Resolved [("top", get_index topLeft 0); ("left", get_index topLeft 1);
              ("bottom", get_index bottomRight 0); ("right", get_index bottomRight 1)]
  else if fieldsExist bBox ["bottomRight"; "topLeft"] "string" (Some bbox_matches) then
    match topLeft, bottomRight with
    | VStr tl, VStr br =>
        match bbox_string h tl, bbox_string h br with
        | Some (t1, t2), Some (b1, b2) =>
            Resolved [("top", VNum (parseFloat h t1)); ("left", VNum (parseFloat h t2));
                      ("bottom", VNum (parseFloat h b1)); ("right", VNum (parseFloat h b2))]
        | _, _ => Thrown TypeError
        end
    | _, _ => Thrown TypeError
    end
  else if fieldsExist bBox ["bottomRight"; "topLeft"] "string" (Some (geohash_test h)) then
    match topLeft, bottomRight with
    | VStr tl, VStr br =>
        let t := geohash_decode h tl in
        let b := geohash_decode h br in
        Resolved [("top", VNum (fst t)); ("left", VNum (snd t));
                  ("bottom", VNum (fst b)); ("right", VNum (snd b))]
    | _, _ => Thrown TypeError
    end
  else Resolved [].

Definition geoBoundingBox (filter : value) : outcome value :=
  mustBeNonEmptyObject (get_prop filter "geoBoundingBox") "geoBoundingBox"
  >>= (fun field => onlyOneFieldAttribute field "geoBoundingBox")
  >>= (fun field =>
        let* bBox := geoLocationToCamelCase h
                       (get_prop (get_prop filter "geoBoundingBox") (first_key field)) in
        let* standardized := bbox_standardized bBox in
        if negb (truthy (lookup "top" standardized))
        then reject ("Unrecognized geo-point format in " ++ dq ++ "geoBoundingBox."
                     ++ first_key field)
        else Resolved (VObj Fresh [("geospatial",
               VObj Fresh [("geoBoundingBox",
                 VObj Fresh [(first_key field, VObj Fresh standardized)])])])).

(** [Object.keys(o).find(p)] as a property name. *)
Definition find_key (p : string -> bool) (fields : list string) : string :=
  match find p fields with
  | Some k => k
  | None => "undefined"
  end.

(** [target[k] = v] on an object literal that has no key yet, as the keys
    the target has afterwards.  The name [__proto__] goes to the setter every
    object inherits: [v] becomes the prototype of the target, which gets no
    key of its own; reading [target[k]] back then gives [v], as for any
    other name. *)
Definition assigned (k : string) (v : value) : list (string * value) :=
  if String.eqb k "__proto__" then [] else [(k, v)].

Definition geoDistance (filter : value) : outcome value :=
  let o := get_prop filter "geoDistance" in
  mustBeNonEmptyObject o "geoDistance"
  >>= (fun fields =>
        if negb (Nat.eqb (List.length fields) 2) || negb (mem "distance" fields)
        then reject (quoted "geoDistance" ++ " keyword requires a document field and a "
                     ++ quoted "distance" ++ " attribute")
        else mustBeString o "geoDistance" "distance")
  >>= (fun _ =>
        let* ks := keys o in
        let docField := find_key (fun f => negb (String.eqb f "distance")) ks in
        match convertGeopoint h (get_prop o docField) with
        | inl e => Thrown e
        | inr VNull => reject ("geoDistance." ++ docField ++ ": unrecognized point format")
        | inr point =>
            let* lat := read point "lat" in
            let* lon := read point "lon" in
            match convertDistance h (get_prop o "distance") with
            | inl e => Rejected e
            | inr d =>
                Resolved (VObj Fresh [("geospatial",
                  VObj Fresh [("geoDistance",
                    VObj Fresh (assigned docField
                      (VObj Fresh [("lat", lat); ("lon", lon); ("distance", VNum d)])))])])
            end
        end).

Definition geoDistanceRange (filter : value) : outcome value :=
  let o := get_prop filter "geoDistanceRange" in
  mustBeNonEmptyObject o "geoDistanceRange"
  >>= (fun fields =>
        if negb (Nat.eqb (List.length fields) 3) || negb (mem "from" fields)
           || negb (mem "to" fields)
        then reject (quoted "geoDistanceRange"
                     ++ " keyword requires a document field and the following attributes: "
                     ++ quoted "from" ++ ", " ++ quoted "to")
        else mustBeString o "geoDistanceRange" "from")
  >>= (fun _ => mustBeString o "geoDistanceRange" "to")
  >>= (fun _ =>
        let* ks := keys o in
        let docField :=
          find_key (fun f => negb (String.eqb f "from") && negb (String.eqb f "to")) ks in
        match convertGeopoint h (get_prop o docField) with
        | inl e => Thrown e
        | inr VNull =>
            reject ("geoDistanceRange." ++ docField ++ ": unrecognized point format")
        | inr point =>
            let* lat := read point "lat" in
            let* lon := read point "lon" in
            match convertDistance h (get_prop o "from") with
            | inl e => Rejected e
            | inr from =>
                match convertDistance h (get_prop o "to") with
                | inl e => Rejected e
                | inr to =>
                    if (to <=? from)%float
                    then reject ("geoDistanceRange." ++ docField
                                 ++ ": inner radius must be smaller than outer radius")
                    else
                      Resolved (VObj Fresh [("geospatial",
                        VObj Fresh [("geoDistanceRange",
                          VObj Fresh (assigned docField
                            (VObj Fresh [("lat", lat); ("lon", lon);
                                         ("from", VNum from); ("to", VNum to)])))])])
                end
            end
        end).

(** The loop of [geoPolygon] over the points: an exception of
    [convertGeopoint], or of reading [point.lat] on [undefined], ends it. *)
Fixpoint polygon_points (docField : string) (points : list value) : outcome (list value) :=
  match points with
  | [] => Resolved []
  | p :: rest =>
      match convertGeopoint h p with
      | inl e => Thrown e
      | inr VNull => reject ("geoPolygon." ++ docField ++ ": unrecognized point format ("
                             ++ JSON_stringify h p ++ ")")
      | inr point =>
          let* lat := read point "lat" in
          let* lon := read point "lon" in
          let* others := polygon_points docField rest in
          Resolved (VArr Fresh [lat; lon] :: others)
      end
  end.

Definition geoPolygon (filter : value) : outcome value :=
  let o := get_prop filter "geoPolygon" in
  mustBeNonEmptyObject o "geoPolygon"
  >>= (fun fields => onlyOneFieldAttribute fields "geoBoundingBox")
  >>= (fun fields =>
        let docField := first_key fields in
        requireAttribute (get_prop o docField) ("geoPolygon." ++ docField) "points"
        >>= (fun _ => mustBeNonEmptyArray (get_prop o docField) ("geoPolygon." ++ docField)
                                          "points")
        >>= (fun _ =>
              let points := items_of (get_prop (get_prop o docField) "points") in
              if Nat.ltb (List.length points) 3
              then reject (quoted ("geoPolygon." ++ docField)
                           ++ ": at least 3 points are required to build a polygon")
              else
                let* pts := polygon_points docField points in
                Resolved (VObj Fresh [("geospatial",
                  VObj Fresh [("geoPolygon", VObj Fresh [(docField, VArr Fresh pts)])])]))).

(** ** Writes

    The module assigns to properties through two variables that outlive the
    statement that created their object: [result] in
    [_standardizeFilterArray], which the reducer updates, and [standardized]
    in [bool], which may have been replaced by what [and] returned.  Every
    such assignment is recorded with the [origin] of the object it writes
    to, so a run is an outcome together with the log of its writes.  The
    other assignments of the module fill an object or array literal of the
    same call ([standardized] in the geo predicates, [points] in
    [geoPolygon]) and are part of the construction of that value. *)
Definition log : Type := list origin.

Definition run : Type := (outcome value * log)%type.

Definition pure_ {A : Type} (p : outcome A) : outcome A * log := (p, []).

(** [p.then(f)] with the writes of both sides. *)
Definition thenW {A B : Type} (p : outcome A * log) (f : A -> outcome B * log)
  : outcome B * log :=
  match fst p with
  | Resolved a =>
      let r := f a in
      (match fst r with
       | Thrown e => Rejected e
       | x => x
       end, snd p ++ snd r)%list
  | Rejected e => (Rejected e, snd p)
  | Thrown e => (Thrown e, snd p)
  end.

Notation "p >>=! f" := (thenW p f) (at level 50, left associativity) : js_scope.

(** ** Boolean combinators *)

(** What [Array.prototype.concat] appends for one argument: the items of an
    array, or the argument itself. *)
Definition spread (v : value) : list value :=
  match v with
  | VArr _ items => items
  | _ => [v]
  end.

(** The [result] object of [_standardizeFilterArray]: who allocated it and
    the array it holds, [result[operand]] and [result._isLeaf]. *)
Record flat : Type := {
  allocated : origin;
  children_allocated : origin;
  children : list value;
  isLeaf : value
}.

Definition is_key (subOp : option string) (k : string) : bool :=
  match subOp with
  | Some s => String.eqb s k
  | None => false
  end.

(** The reducer passed to [Promise.reduce].  It writes to [result], and
    [push] writes to the array [result] holds; [concat] returns a new array. *)
Definition reducer (operand : string) (result : flat) (sub : value) : outcome flat * log :=
  match keys sub with
  | Resolved ks =>
      let subOp := hd_error ks in
      if is_key subOp operand then
        (Resolved {| allocated := allocated result;
                     children_allocated := Fresh;
                     children := (children result ++ spread (get_prop sub operand))%list;
                     isLeaf := bitand (isLeaf result) (get_prop sub "_isLeaf") |},
         [allocated result; allocated result])
      else if is_key subOp "and" || is_key subOp "or" then
        (Resolved {| allocated := allocated result;
                     children_allocated := children_allocated result;
                     children := (children result ++ [sub])%list;
                     isLeaf := VBool false |},
         [children_allocated result; allocated result])
      else
        (Resolved {| allocated := allocated result;
                     children_allocated := children_allocated result;
                     children := (children result ++ [sub])%list;
                     isLeaf := isLeaf result |},
         [children_allocated result])
  | Rejected e => (Rejected e, [])
  | Thrown e => (Thrown e, [])
  end.

(** [Promise.reduce] over the settled promises of the items, in array
    order: the first rejection met rejects the whole; an exception in the
    reducer does too. *)
Fixpoint reduce (operand : string) (subs : list (outcome value)) (result : flat)
  : outcome flat * log :=
  match subs with
  | [] => (Resolved result, [])
  | Resolved sub :: rest =>
      match reducer operand result sub with
      | (Resolved result', w) =>
          let r := reduce operand rest result' in
          (fst r, (w ++ snd r)%list)
      | (Rejected e, w) => (Rejected e, w)
      | (Thrown e, w) => (Rejected e, w)
      end
  | Rejected e :: _ => (Rejected e, [])
  | Thrown e :: _ => (Rejected e, [])
  end.

(** [items.map(f => this.standardize(f))]: the calls are made in order, and
    one that throws ends the [map]. *)
Fixpoint calls (self : value -> run) (items : list value)
  : outcome (list (outcome value)) * log :=
  match items with
  | [] => (Resolved [], [])
  | f :: rest =>
      let r := self f in
      match fst r with
      | Thrown e => (Thrown e, snd r)
      | x =>
          let rs := calls self rest in
          (match fst rs with
           | Resolved l => Resolved (x :: l)
           | Rejected e => Rejected e
           | Thrown e => Thrown e
           end, (snd r ++ snd rs)%list)
      end
  end.

(** The values under [Object.keys(v)]. *)
Definition elements (v : value) : list value :=
  match v with
  | VArr _ items => items
  | VObj _ fields => map (fun kv => lookup (fst kv) fields) fields
  | VStr s => map (char_at s) (seq 0 (String.length s))
  | _ => []
  end.

(** The [findIndex] of [_standardizeFilterArray]: is there an item that is
    not a non-array, non-empty object?  [Object.keys(null)] throws. *)
Fixpoint bad_item (items : list value) : outcome bool :=
  match items with
  | [] => Resolved false
  | e :: rest =>
      if negb (String.eqb (typeof e) "object") || isArray e then Resolved true
      else
        let* ks := keys e in
        if Nat.eqb (List.length ks) 0 then Resolved true else bad_item rest
  end.

(** The object literal [result] of [_standardizeFilterArray]. *)
Definition new_result : flat :=
  {| allocated := Fresh; children_allocated := Fresh; children := []; isLeaf := VBool true |}.

Definition finish (operand : string) (result : flat) : value :=
  match children result with
  | [only] => only
  | _ => VObj (allocated result)
           [(operand, VArr (children_allocated result) (children result));
            ("_isLeaf", isLeaf result)]
  end.

Definition _standardizeFilterArray (self : value -> run) (filter : value) (operand : string)
  : run :=
  let arr := get_prop filter operand in
  match keys arr with
  | Thrown e | Rejected e => (Thrown e, [])
  | Resolved _ =>
      match bad_item (elements arr) with
      | Thrown e | Rejected e => (Thrown e, [])
      | Resolved true =>
          (reject (quoted operand ++ " operand can only contain non-empty objects"), [])
      | Resolved false =>
          match arr with
          | VArr _ items =>
              let cs := calls self items in
              match fst cs with
              | Resolved subs =>
                  let r := reduce operand subs new_result in
                  (match fst r with
                   | Resolved result => Resolved (finish operand result)
                   | Rejected e => Rejected e
                   | Thrown e => Rejected e
                   end, (snd cs ++ snd r)%list)
              | Rejected e => (Thrown e, snd cs)
              | Thrown e => (Thrown e, snd cs)
              end
          | _ => (Thrown TypeError, [])
          end
      end
  end.

Definition and_ (self : value -> run) (filter : value) (keyword : option string) : run :=
  let keyword := or_default keyword "and" in
  pure_ (mustBeNonEmptyArray filter "and" keyword)
  >>=! (fun _ => _standardizeFilterArray self filter "and").

Definition or_ (self : value -> run) (filter : value) (keyword : option string) : run :=
  let keyword := or_default keyword "or" in
  pure_ (mustBeNonEmptyArray filter "or" keyword)
  >>=! (fun _ => _standardizeFilterArray self filter "or").

Definition not_ (self : value -> run) (filter : value) : run :=
  let o := get_prop filter "not" in
  pure_ (mustBeNonEmptyObject o "not"
         >>= (fun fields => onlyOneFieldAttribute fields "not")
         >>= (fun fields =>
               let kwd := first_key fields in
               if String.eqb kwd "and" || String.eqb kwd "or"
               then mustBeNonEmptyArray o "not" kwd
               else mustBeNonEmptyObject (get_prop o kwd) ("not." ++ kwd)
                    >>= (fun _ => Resolved tt)))
  >>=! (fun _ => self o)
  >>=! (fun result => pure_ (Resolved (VObj Fresh [("not", result)]))).

(** [o.k = v] on the fields of an object. *)
Fixpoint assign (k : string) (v : value) (fields : list (string * value))
  : list (string * value) :=
  match fields with
  | [] => [(k, v)]
  | (k', v') :: rest =>
      if String.eqb k k' then (k', v) :: rest else (k', v') :: assign k v rest
  end.

(** The two statements of [bool] that add a clause:
    [standardized.and = standardized.and.concat(clause);
     standardized._isLeaf = false;].
    The first throws when [standardized.and] has no [concat]. *)
Definition add_clause (standardized clause : value) : outcome value * log :=
  match standardized with
  | VObj o fields =>
      match lookup "and" fields with
      | VArr _ items =>
          (Resolved (VObj o (assign "_isLeaf" (VBool false)
                       (assign "and" (VArr Fresh (items ++ spread clause)%list) fields))),
           [o; o])
      | VStr s =>
          (Resolved (VObj o (assign "_isLeaf" (VBool false)
                       (assign "and" (VStr (string_concat h s clause)) fields))),
           [o; o])
      | _ => (Thrown TypeError, [])
      end
  | _ => (Thrown TypeError, [])
  end.

Definition negated (f : value) : value := VObj Fresh [("not", f)].

(** One of the four clauses of [bool]: the call made when the attribute is
    there, [Promise.resolve(null)] otherwise. *)
Definition clause (call : value -> run) (operand : string) (attribute : value) : run :=
  if truthy attribute then call (VObj Fresh [(operand, attribute)])
  else pure_ (Resolved VNull).

Definition bool_last (standardized : value) : outcome value :=
  let* a := read standardized "and" in
  let* one := length_is a 1 in
  if one then Resolved (get_index a 0) else Resolved standardized.

Definition bool_ (self : value -> run) (filter : value) : run :=
  let attributes := ["must"; "must_not"; "should"; "should_not"] in
  let b := get_prop filter "bool" in
  pure_ (mustBeNonEmptyObject b "bool")
  >>=! (fun fields =>
         if existsb (fun f => negb (mem f attributes)) fields
         then pure_ (reject (quoted "bool"
                      ++ " operand accepts only the following attributes: "
                      ++ "must, must_not, should, should_not"))
         else clause (fun f => and_ self f None) "and" (get_prop b "must"))
  >>=! (fun f =>
         let standardized :=
           if truthy f then f
           else VObj Fresh [("and", VArr Fresh []); ("_isLeaf", VBool true)] in
         clause (fun f => or_ self f None) "or" (get_prop b "must_not")
         >>=! (fun f =>
                (if truthy f then add_clause standardized (negated f)
                 else pure_ (Resolved standardized))
                >>=! (fun standardized =>
                clause (fun f => or_ self f None) "or" (get_prop b "should")
                >>=! (fun f =>
                       (if truthy f then add_clause standardized f
                        else pure_ (Resolved standardized))
                       >>=! (fun standardized =>
                       clause (fun f => and_ self f None) "and" (get_prop b "should_not")
                       >>=! (fun f =>
                              (if truthy f then add_clause standardized (negated f)
                               else pure_ (Resolved standardized))
                              >>=! (fun standardized =>
                                     pure_ (bool_last standardized)))))))).

(** ** Dispatch *)

(** The members [this[name]] finds on the instance itself: the fifteen
    keywords, the entry point, the private helper and the constructor. *)
Inductive member : Type :=
| m_exists | m_ids | m_missing | m_range | m_regexp | m_equals | m_in
| m_geoBoundingBox | m_geoDistance | m_geoDistanceRange | m_geoPolygon
| m_and | m_or | m_not | m_bool
| m_standardize | m_standardizeFilterArray | m_constructor.

Definition members : list (string * member) :=
  [("standardize", m_standardize); ("exists", m_exists); ("ids", m_ids);
   ("missing", m_missing); ("range", m_range); ("regexp", m_regexp);
   ("equals", m_equals); ("in", m_in); ("geoBoundingBox", m_geoBoundingBox);
   ("geoDistance", m_geoDistance); ("geoDistanceRange", m_geoDistanceRange);
   ("geoPolygon", m_geoPolygon); ("and", m_and); ("or", m_or); ("not", m_not);
   ("bool", m_bool); ("_standardizeFilterArray", m_standardizeFilterArray);
   ("constructor", m_constructor)].

Fixpoint member_named (name : string) (table : list (string * member)) : option member :=
  match table with
  | [] => None
  | (k, m) :: rest => if String.eqb name k then Some m else member_named name rest
  end.

(** [this[name](filters)].  The entry point called on the filter it was
    just called with never returns: the engine ends it with a [RangeError]
    when the stack is full.  The helper is called with its second argument
    missing, so that it reads [filters[undefined]], the property of that
    name, which a filter whose only key is the name of the helper does not
    have.  A class constructor cannot be called as a function. *)
Definition invoke (self : value -> run) (m : member) (filters : value) : run :=
  match m with
  | m_exists => pure_ (exists_ filters None)
  | m_ids => pure_ (ids filters)
  | m_missing => pure_ (missing filters)
  | m_range => pure_ (range filters)
  | m_regexp => pure_ (regexp filters)
  | m_equals => pure_ (equals filters)
  | m_in => pure_ (in_ filters)
  | m_geoBoundingBox => pure_ (geoBoundingBox filters)
  | m_geoDistance => pure_ (geoDistance filters)
  | m_geoDistanceRange => pure_ (geoDistanceRange filters)
  | m_geoPolygon => pure_ (geoPolygon filters)
  | m_and => and_ self filters None
  | m_or => or_ self filters None
  | m_not => not_ self filters
  | m_bool => bool_ self filters
  | m_standardize => (Thrown RangeError, [])
  | m_standardizeFilterArray => _standardizeFilterArray self filters "undefined"
  | m_constructor => (Thrown TypeError, [])
  end.

(** [filters ? Object.keys(filters) : []] *)
Definition keywords (filters : value) : outcome (list string) :=
  if truthy filters then keys filters else Resolved [].

(** The body of [standardize], with [this.standardize] as [self]. *)
Definition standardize_body (self : value -> run) (filters : value) : run :=
  match keywords filters with
  | Resolved [] => pure_ (Resolved (VObj Fresh []))
  | Resolved [keyword] =>
      match member_named keyword members with
      | Some m => invoke self m filters
      | None =>
          match inherited h keyword filters with
          | Some r => pure_ r
          | None => pure_ (reject ("Unknown DSL keyword: " ++ keyword))
          end
      end
  | Resolved _ => pure_ (reject "Invalid filter syntax")
  | Rejected e => (Rejected e, [])
  | Thrown e => (Thrown e, [])
  end.

(** [standardize] on an engine whose stack holds [stack] nested calls. *)
Fixpoint standardize_at (stack : nat) (filters : value) : run :=
  match stack with
  | O => (Thrown RangeError, [])
  | S n => standardize_body (standardize_at n) filters
  end.

End Validators.

(** The nesting depth of a value: the calls of [standardize] nest no deeper. *)
Fixpoint depth (v : value) : nat :=
  match v with
  | VArr _ items => S (fold_right (fun x n => Nat.max (depth x) n) 0 items)
  | VObj _ fields => S (fold_right (fun kv n => Nat.max (depth (snd kv)) n) 0 fields)
  | _ => 0
  end.

(** [standardize(filters)]: the promise it returns, and the writes made. *)
Definition standardize (h : host) (filters : value) : run :=
  standardize_at h (S (depth filters)) filters.

(** A host to run the examples on: key casing left as it is, no geo format
    recognised, every regular expression accepted, and the [toString] and
    [hasOwnProperty] that come with every object. *)
Definition plain_host : host := {|
  geoLocationToCamelCase := fun v => Resolved v;
  bbox_string := fun _ => None;
  geohash_test := fun _ => false;
  parseFloat := fun _ => nan;
  geohash_decode := fun _ => (nan, nan);
  convertGeopoint := fun _ => inr VNull;
  convertDistance := fun _ => inl (BadRequestError "unable to parse distance");
  regexp_error := fun _ _ => None;
  JSON_stringify := fun _ => "null";
  host_ToString := fun _ => "[object Object]";
  host_bitand := fun _ _ => 0%float;
  string_concat := fun s _ => s;
  inherited := fun name _ =>
    if String.eqb name "toString" then Some (Resolved (VStr "[object Object]"))
    else if String.eqb name "hasOwnProperty" then Some (Resolved (VBool false))
    else None |}.

(** Shorthands for the filters of the examples: what the caller builds. *)
Definition obj (fields : list (string * value)) : value := VObj Input fields.
Definition arr (items : list value) : value := VArr Input items.
Definition num (x : float) : value := VNum x.
Definition str (s : string) : value := VStr s.
Definition exists_filter (field : string) : value :=
  obj [("exists", obj [("field", str field)])].

(** ** The statements of the specification

    The notions the specification words its properties with, written after
    its sentences; the theorems compare them with the code above. *)

(** A call that ends in a validation error. *)
Definition failed (r : run) : Prop :=
  exists message, fst r = Rejected (BadRequestError message).

(** *** Ranges *)

(** [{range: {<field>: {...bounds}}}] *)
Definition range_filter (o1 o2 o3 : origin) (field : string) (bs : list (string * value))
  : value :=
  VObj o1 [("range", VObj o2 [(field, VObj o3 bs)])].

(** The bound object uses only gt/gte/lt/lte, with numeric values. *)
Definition range_attribute (kv : string * value) : bool :=
  mem (fst kv) ["gt"; "gte"; "lt"; "lte"] && is_number (snd kv).

Definition has_bound (k : string) (bs : list (string * value)) : bool :=
  mem k (map fst bs).

Definition two_upper (bs : list (string * value)) : bool :=
  has_bound "lt" bs && has_bound "lte" bs.

Definition two_lower (bs : list (string * value)) : bool :=
  has_bound "gt" bs && has_bound "gte" bs.

(** The upper bound: from any lt* bound, +infinity by default. *)
Definition resolved_high (bs : list (string * value)) : float :=
  match find (fun kv => String.prefix "lt" (fst kv)) bs with
  | Some kv => number_of (snd kv)
  | None => infinity
  end.

(** The lower bound: from any gt* bound, -infinity by default. *)
Definition resolved_low (bs : list (string * value)) : float :=
  match find (fun kv => String.prefix "gt" (fst kv)) bs with
  | Some kv => number_of (snd kv)
  | None => neg_infinity
  end.

(** The claim on ranges, at one filter: two bounds on a side fail, bounds
    in the wrong order fail, anything else is returned as it is. *)
Definition range_claim (h : host) (o1 o2 o3 : origin) (field : string)
  (bs : list (string * value)) : Prop :=
  forallb range_attribute bs = true ->
  NoDup (map fst bs) ->
  (two_lower bs || two_upper bs = true ->
   failed (standardize h (range_filter o1 o2 o3 field bs)))
  /\ ((resolved_high bs <=? resolved_low bs)%float = true ->
      failed (standardize h (range_filter o1 o2 o3 field bs)))
  /\ (two_lower bs || two_upper bs = false ->
      (resolved_high bs <=? resolved_low bs)%float = false ->
      standardize h (range_filter o1 o2 o3 field bs)
      = (Resolved (range_filter o1 o2 o3 field bs), [])).

(** A bound that is neither [Infinity] nor [-Infinity]. *)
Definition bounded (kv : string * value) : bool :=
  match snd kv with
  | VNum x => negb (x =? infinity)%float && negb (x =? neg_infinity)%float
  | _ => false
  end.

(** The keys of the upper and of the lower bounds, in the order of the loop. *)
Definition uppers (ks : list string) : list string := filter (String.prefix "lt") ks.
Definition lowers (ks : list string) : list string := filter (String.prefix "gt") ks.

(** The bound the loop holds once it has seen the keys [ks] of one side. *)
Definition bound_of (default : float) (obj : value) (ks : list string) : float :=
  match ks with
  | [] => default
  | k :: _ => number_of (get_prop obj k)
  end.

(** What the loop of [range] maintains over the keys seen so far. *)
Definition bounds_inv (obj : value) (seen : list string) (st : bounds) : Prop :=
  high st = bound_of infinity obj (uppers seen)
  /\ low st = bound_of neg_infinity obj (lowers seen)
  /\ (error st = None <->
      List.length (uppers seen) <= 1 /\ List.length (lowers seen) <= 1).

(** *** Flattening *)

(** The first key of a node. *)
Definition top_key (v : value) : option string :=
  match keys v with
  | Resolved (k :: _) => Some k
  | _ => None
  end.

Definition leaf_flag (v : value) : bool := truthy (get_prop v "_isLeaf").

(** One step of [flatten(operand, results)] in the words of the
    specification: a sub-result whose top-level key is the operand has its
    children spliced into the accumulator and its leaf flag ANDed into the
    running one; any other is appended as one child, and forces the flag to
    false when it is an [and] or an [or]. *)
Definition flatten_step (operand : string) (st : list value * bool) (sub : value)
  : list value * bool :=
  if is_key (top_key sub) operand
  then ((fst st ++ items_of (get_prop sub operand))%list, snd st && leaf_flag sub)
  else ((fst st ++ [sub])%list,
        if is_key (top_key sub) "and" || is_key (top_key sub) "or" then false else snd st).

Definition flatten (operand : string) (subs : list value) : list value * bool :=
  fold_left (flatten_step operand) subs ([], true).

(** [r] is what [flatten] returns: the only element unwrapped, or the
    operand node over the accumulator, with a leaf flag of that truth value. *)
Definition flattened (operand : string) (subs : list value) (r : value) : Prop :=
  match fst (flatten operand subs) with
  | [only] => r = only
  | acc => exists flag,
      r = VObj Fresh [(operand, VArr Fresh acc); ("_isLeaf", flag)]
      /\ truthy flag = snd (flatten operand subs)
  end.

(** The claim on [and] and [or], at one filter: when the children
    standardize to [subs], the filter standardizes to their flattening. *)
Definition flatten_claim (h : host) (operand : string) (o1 o2 : origin)
  (items subs : list value) : Prop :=
  Forall2 (fun c s => fst (standardize h c) = Resolved s) items subs ->
  exists r, fst (standardize h (VObj o1 [(operand, VArr o2 items)])) = Resolved r
            /\ flattened operand subs r.

(** A non-array, non-empty object. *)
Definition filter_object (v : value) : bool :=
  match v with
  | VObj _ (_ :: _) => true
  | _ => false
  end.

(** An [operand] node one of whose children is again an [operand] node: a
    same-operand expression that stayed nested. *)
Definition nests (operand : string) (v : value) : bool :=
  is_key (top_key v) operand
  && existsb (fun c => is_key (top_key c) operand) (items_of (get_prop v operand)).

(** The claim that chained same-operand expressions never nest, at one
    [and] or [or] filter: when its children standardize successfully, what
    it standardizes to is not an [operand] node over an [operand] node. *)
Definition never_nests (h : host) (operand : string) (o1 o2 : origin) (items : list value)
  : Prop :=
  Forall (fun c => exists s, fst (standardize h c) = Resolved s) items ->
  forall r, fst (standardize h (VObj o1 [(operand, VArr o2 items)])) = Resolved r ->
            nests operand r = false.

(** *** What [standardize] returns *)

(** The values a leaf flag takes: the booleans of the literals, and the 0
    and 1 that [&=] leaves. *)
Definition flag_ok (v : value) : Prop :=
  v = VBool true \/ v = VBool false \/ v = VNum 0 \/ v = VNum 1.

(** The shape of the values [standardize] resolves to, as far as the
    combinators rely on it: an object whose first key is [and] or [or] was
    allocated by the standardizer, holds an array of such values and a leaf
    flag; any other object has no [and] attribute; no array is returned. *)
Fixpoint sound (v : value) : Prop :=
  match v with
  | VArr _ _ => False
  | VObj o fields =>
      match fields with
      | (k, c) :: rest =>
          if String.eqb k "and" || String.eqb k "or" then
            o = Fresh
            /\ (exists flag, rest = [("_isLeaf", flag)] /\ flag_ok flag)
            /\ match c with
               | VArr _ items =>
                   (fix all (l : list value) : Prop :=
                      match l with
                      | [] => True
                      | x :: r => sound x /\ all r
                      end) items
               | _ => False
               end
          else lookup "and" fields = VUndef
      | [] => True
      end
  | _ => True
  end.

(** The members inherited from [Object.prototype] return values of that
    shape (strings, booleans, [undefined], objects without keys). *)
Definition host_sound (h : host) : Prop :=
  forall name filters r, inherited h name filters = Some (Resolved r) -> sound r.

(** A run that resolves to a value of that shape, if it resolves, and whose
    writes all went to objects the standardizer allocated. *)
Definition good (r : run) : Prop :=
  (forall x, fst r = Resolved x -> sound x) /\ Forall (fun o => o = Fresh) (snd r).

(** Every object and array of a value was allocated by the caller. *)
Fixpoint caller_owned (v : value) : Prop :=
  match v with
  | VArr o items =>
      o = Input
      /\ (fix all (l : list value) : Prop :=
            match l with
            | [] => True
            | x :: r => caller_owned x /\ all r
            end) items
  | VObj o fields =>
      o = Input
      /\ (fix all (l : list (string * value)) : Prop :=
            match l with
            | [] => True
            | kv :: r => caller_owned (snd kv) /\ all r
            end) fields
  | _ => True
  end.

(** The name under which [this] holds a member. *)
Definition name_of (m : member) : string :=
  match m with
  | m_exists => "exists" | m_ids => "ids" | m_missing => "missing" | m_range => "range"
  | m_regexp => "regexp" | m_equals => "equals" | m_in => "in"
  | m_geoBoundingBox => "geoBoundingBox" | m_geoDistance => "geoDistance"
  | m_geoDistanceRange => "geoDistanceRange" | m_geoPolygon => "geoPolygon"
  | m_and => "and" | m_or => "or" | m_not => "not" | m_bool => "bool"
  | m_standardize => "standardize"
  | m_standardizeFilterArray => "_standardizeFilterArray"
  | m_constructor => "constructor"
  end.

(** *** Propagation of errors *)

(** The error a call fails with, whether its promise is rejected or the
    call throws. *)
Definition failure (r : run) : option exn :=
  match fst r with
  | Rejected e | Thrown e => Some e
  | Resolved _ => None
  end.

(** The claim on error propagation, at one combinator filter and one of
    its children: the error of the child is the error of the filter. *)
Definition propagates (h : host) (filter child : value) : Prop :=
  forall e, fst (standardize h child) = Rejected e -> fst (standardize h filter) = Rejected e.

(** The checks [not] makes on its child before standardizing it: one
    keyword, over a non-empty array for [and] and [or], over a non-empty
    object for any other. *)
Definition not_checks (child : value) : bool :=
  match child with
  | VObj _ [(kwd, c)] =>
      if String.eqb kwd "and" || String.eqb kwd "or"
      then match c with
           | VArr _ (_ :: _) => true
           | _ => false
           end
      else filter_object c
  | _ => false
  end.

(** The combinator a clause of [bool] is standardized with. *)
Definition clause_operand (attribute : string) : option string :=
  if String.eqb attribute "must" then Some "and"
  else if String.eqb attribute "must_not" then Some "or"
  else if String.eqb attribute "should" then Some "or"
  else if String.eqb attribute "should_not" then Some "and"
  else None.

Definition never_throws (h : host) (c : value) : Prop :=
  forall e, fst (standardize h c) <> Thrown e.

Definition resolves (h : host) (c : value) : Prop :=
  exists s, fst (standardize h c) = Resolved s /\ nullish s = false.

(** *** The order of the checks *)

(** The keywords whose validator starts by checking, with
    [mustBeNonEmptyObject], that the content of the keyword is a non-empty
    object. *)
Definition object_keywords : list string :=
  ["exists"; "missing"; "ids"; "range"; "regexp"; "equals"; "in"; "geoBoundingBox";
   "geoDistance"; "geoDistanceRange"; "geoPolygon"; "not"; "bool"].

(** Those whose validator goes on with [onlyOneFieldAttribute] under the
    name of the keyword. *)
Definition single_field_keywords : list string :=
  ["exists"; "missing"; "ids"; "range"; "regexp"; "equals"; "in"; "geoBoundingBox"; "not"].

(** The violation the loop of [range] meets at the bound [k], when [k]
    comes after another bound of its side ([seen] holds the bounds gone
    through). *)
Definition bound_violations (rangeField : string) (seen : list string) (k : string)
  : list exn :=
  ((if String.prefix "lt" k && existsb (String.prefix "lt") seen
    then [BadRequestError
            (quoted ("range." ++ rangeField ++ ":") ++ " only 1 upper boundary allowed")]
    else [])
   ++ (if String.prefix "gt" k && existsb (String.prefix "gt") seen
       then [BadRequestError
               (quoted ("range." ++ rangeField ++ ":") ++ " only 1 lower boundary allowed")]
       else []))%list.

(** The violations the loop meets over the bounds [ks], in the order in
    which it meets them. *)
Fixpoint duplicate_bounds (rangeField : string) (seen ks : list string) : list exn :=
  match ks with
  | [] => []
  | k :: rest =>
      (bound_violations rangeField seen k ++ duplicate_bounds rangeField (seen ++ [k]) rest)%list
  end.

Definition last_error (l : list exn) : option exn := hd_error (rev l).

(** The claim that a validator fails on the first violated precondition,
    at one range filter: it fails with the first violation its loop meets. *)
Definition fails_fast (h : host) (o1 o2 o3 : origin) (field : string)
  (bs : list (string * value)) : Prop :=
  forall e, hd_error (duplicate_bounds field [] (map fst bs)) = Some e ->
            fst (standardize h (range_filter o1 o2 o3 field bs)) = Rejected e.

(** What the fold of [_standardizeFilterArray] maintains on [result]. *)
Definition result_inv (result : flat) : Prop :=
  allocated result = Fresh /\ children_allocated result = Fresh
  /\ Forall sound (children result) /\ flag_ok (isLeaf result).

(** A log whose writes all went to objects of the standardizer. *)
Definition fresh_log (w : log) : Prop := Forall (fun o => o = Fresh) w.
(** *** Singletons *)

(** An [and] or an [or] node over a single child. *)
Definition singleton_node (v : value) : bool :=
  match v with
  | VObj _ ((k, VArr _ [_]) :: _) => String.eqb k "and" || String.eqb k "or"
  | _ => false
  end.

(** The claim on singletons, at one filter: what it standardizes to is not
    an [and] or an [or] over a single child. *)
Definition never_singleton (h : host) (filters : value) : Prop :=
  forall r, fst (standardize h filters) = Resolved r -> singleton_node r = false.

(** *** Notions for the further properties of the module *)

(** The number of keys [Object.keys] gives for a value. *)
Definition key_count (v : value) : nat :=
  match v with
  | VObj _ fields => List.length fields
  | VArr _ items => List.length items
  | VStr s => String.length s
  | _ => 0
  end.

(** An [and] or [or] node as the standardizer builds it. *)
Definition node (operand : string) (items : list value) (flag : value) : value :=
  VObj Fresh [(operand, VArr Fresh items); ("_isLeaf", flag)].

(** A value without its allocation tags. *)
Fixpoint strip (v : value) : value :=
  match v with
  | VArr _ items => VArr Fresh (map strip items)
  | VObj _ fields => VObj Fresh (map (fun kv => (fst kv, strip (snd kv))) fields)
  | _ => v
  end.

(** The content [exists] and [missing] accept: a non-empty field name under
    [field], and nothing else. *)
Definition field_only (c : value) : bool :=
  match c with
  | VObj _ [(k, VStr s)] => String.eqb k "field" && negb (String.eqb s EmptyString)
  | _ => false
  end.

(** A non-empty array of strings. *)
Definition strings (v : value) : bool :=
  match v with
  | VArr _ (x :: items) => forallb (fun v => String.eqb (typeof v) "string") (x :: items)
  | _ => false
  end.


(** A host to run the geo examples on: it recognises the points given as
    [{lat, lon}] with two numbers, throws a [TypeError] on [undefined] and
    [null], which have no attribute to look at, recognises the distances
    ["10m"] and ["1km"], and is [plain_host] otherwise. *)
Definition geo_host : host := {|
  geoLocationToCamelCase := geoLocationToCamelCase plain_host;
  bbox_string := bbox_string plain_host;
  geohash_test := geohash_test plain_host;
  parseFloat := parseFloat plain_host;
  geohash_decode := geohash_decode plain_host;
  convertGeopoint := fun v =>
    match v with
    | VUndef | VNull => inl TypeError
    | _ =>
        match get_prop v "lat", get_prop v "lon" with
        | VNum lat, VNum lon => inr (VObj Fresh [("lat", VNum lat); ("lon", VNum lon)])
        | _, _ => inr VNull
        end
    end;
  convertDistance := fun v =>
    match v with
    | VStr s =>
        if String.eqb s "10m" then inr 10%float
        else if String.eqb s "1km" then inr 1000%float
        else inl (BadRequestError "unable to parse distance")
    | _ => inl (BadRequestError "unable to parse distance")
    end;
  regexp_error := regexp_error plain_host;
  JSON_stringify := JSON_stringify plain_host;
  host_ToString := host_ToString plain_host;
  host_bitand := host_bitand plain_host;
  string_concat := string_concat plain_host;
  inherited := inherited plain_host |}.

(** A value whose first key is [and] or [or]. *)
Definition combinator (v : value) : bool :=
  is_key (top_key v) "and" || is_key (top_key v) "or".


(** What the leaf flag means, through a whole result: an [and] or [or] node
    whose flag is truthy has no [and] or [or] node among its children; the
    same holds of its children, and under [not]. *)
Fixpoint leaf_flags (v : value) : Prop :=
  match v with
  | VObj _ ((k, c) :: rest) =>
      if String.eqb k "and" || String.eqb k "or" then
        match c with
        | VArr _ items =>
            (truthy (lookup "_isLeaf" rest) = true ->
             forallb (fun x => negb (combinator x)) items = true)
            /\ (fix all (l : list value) : Prop :=
                  match l with
                  | [] => True
                  | x :: r => leaf_flags x /\ all r
                  end) items
        | _ => True
        end
      else if String.eqb k "not" then leaf_flags c
      else True
  | _ => True
  end.

(** The members inherited from [Object.prototype] return values in which
    the leaf flags mean that (strings, booleans, [undefined], objects
    without keys). *)
Definition host_leaf_flags (h : host) : Prop :=
  forall name filters r, inherited h name filters = Some (Resolved r) -> leaf_flags r.

(** What the fold of [_standardizeFilterArray] maintains on the leaf flag
    of [result]. *)
Definition leaf_inv (result : flat) : Prop :=
  (truthy (isLeaf result) = true ->
   forallb (fun x => negb (combinator x)) (children result) = true)
  /\ Forall leaf_flags (children result).

(** A run that resolves to a value whose leaf flags mean that, if it
    resolves. *)
Definition leafy (r : run) : Prop :=
  forall x, fst r = Resolved x -> leaf_flags x.

(** What a clause of [bool] standardizes to: nothing when the attribute is
    falsy, otherwise what the [and] or [or] over it resolves to, a value
    that is truthy and is not an array. *)
Inductive clause_outcome (h : host) (operand : string) (attribute : value)
  : option value -> Prop :=
| clause_absent :
    truthy attribute = false -> clause_outcome h operand attribute None
| clause_present (f : value) :
    truthy attribute = true ->
    fst (standardize h (VObj Fresh [(operand, attribute)])) = Resolved f ->
    truthy f = true -> isArray f = false ->
    clause_outcome h operand attribute (Some f).

(** The conjuncts [bool] adds for [must_not], [should] and [should_not], in
    this order: the first and the last negated. *)
Definition bool_conjuncts (must_not should should_not : option value) : list value :=
  (match must_not with Some f => [negated f] | None => [] end)
  ++ (match should with Some f => [f] | None => [] end)
  ++ (match should_not with Some f => [negated f] | None => [] end).

(** What [bool] returns from the [and] node [{and: items, _isLeaf: flag}] it
    starts with and the conjuncts it adds: a single conjunct unwrapped, the
    node it started with when nothing was added, otherwise the node over
    all the conjuncts, no longer a leaf. *)
Definition bool_result (o oa : origin) (items : list value) (flag : value)
  (conjuncts : list value) : value :=
  match (items ++ conjuncts)%list with
  | [only] => only
  | all =>
      match conjuncts with
      | [] => VObj o [("and", VArr oa items); ("_isLeaf", flag)]
      | _ => VObj o [("and", VArr Fresh all); ("_isLeaf", VBool false)]
      end
  end.

(** What [bool] starts with: the [and] node its [must] clause standardized
    to, or a new empty one when there is no [must]. *)
Inductive must_outcome (h : host) (must : value)
  : origin -> origin -> list value -> value -> Prop :=
| must_absent :
    truthy must = false -> must_outcome h must Fresh Fresh [] (VBool true)
| must_present (o oa : origin) (items : list value) (flag : value) :
    truthy must = true ->
    fst (standardize h (VObj Fresh [("and", must)]))
    = Resolved (VObj o [("and", VArr oa items); ("_isLeaf", flag)]) ->
    must_outcome h must o oa items flag.

Unset Implicit Arguments.

(** ** The calls of [standardize] nest no deeper than the filter *)

Lemma depth_lookup (k : string) (fields : list (string * value)) :
  depth (lookup k fields) <= fold_right (fun kv n => Nat.max (depth (snd kv)) n) 0 fields.
Proof.
  induction fields as [|[k' v] rest IH]; simpl.
  - lia.
  - destruct (String.eqb k k'); lia.
Qed.

Lemma depth_get_prop (v : value) (k : string) :
  depth (get_prop v k) <= Nat.pred (depth v).
Proof.
  destruct v; simpl; try lia.
  apply depth_lookup.
Qed.

Lemma depth_item (o : origin) (items : list value) (c : value) :
  In c items -> depth c < depth (VArr o items).
Proof.
  simpl. induction items as [|x rest IH]; simpl; intros Hin.
  - contradiction.
  - destruct Hin as [->|Hin]; [lia|]. specialize (IH Hin). lia.
Qed.

Lemma depth_items_of (v c : value) :
  In c (items_of v) -> depth c < depth v.
Proof.
  destruct v as [| | | | |o items|o fields]; simpl items_of; try contradiction.
  exact (@depth_item o items c).
Qed.

Section Extensionality.

Variable h : host.
Variables s1 s2 : value -> run.

Lemma calls_ext (items : list value) :
  (forall c, In c items -> s1 c = s2 c) -> calls s1 items = calls s2 items.
Proof.
  induction items as [|f rest IH]; simpl; intros Hs.
  - reflexivity.
  - rewrite (Hs f) by (left; reflexivity).
    rewrite IH by (intros c Hc; apply Hs; right; exact Hc).
    reflexivity.
Qed.

Lemma _standardizeFilterArray_ext (filter : value) (operand : string) :
  (forall c, In c (items_of (get_prop filter operand)) -> s1 c = s2 c) ->
  _standardizeFilterArray h s1 filter operand = _standardizeFilterArray h s2 filter operand.
Proof.
  intros Hs. unfold _standardizeFilterArray.
  destruct (get_prop filter operand) as [| | | | |o items|o fields]; try reflexivity.
  simpl in Hs. rewrite (calls_ext items Hs). reflexivity.
Qed.

Lemma and_ext (filter : value) (keyword : option string) :
  (forall c, In c (items_of (get_prop filter "and")) -> s1 c = s2 c) ->
  and_ h s1 filter keyword = and_ h s2 filter keyword.
Proof.
  intros Hs. unfold and_. rewrite (_standardizeFilterArray_ext filter "and" Hs). reflexivity.
Qed.

Lemma or_ext (filter : value) (keyword : option string) :
  (forall c, In c (items_of (get_prop filter "or")) -> s1 c = s2 c) ->
  or_ h s1 filter keyword = or_ h s2 filter keyword.
Proof.
  intros Hs. unfold or_. rewrite (_standardizeFilterArray_ext filter "or" Hs). reflexivity.
Qed.

Lemma not_ext (filter : value) :
  (0 < depth (get_prop filter "not") ->
   s1 (get_prop filter "not") = s2 (get_prop filter "not")) ->
  not_ s1 filter = not_ s2 filter.
Proof.
  intros Hs. unfold not_.
  destruct (get_prop filter "not") as [| | | | |o items|o [|kv fields]]; try reflexivity.
  rewrite Hs by (simpl; lia). reflexivity.
Qed.

Lemma clause_and_ext (attribute : value) :
  (forall c, In c (items_of attribute) -> s1 c = s2 c) ->
  clause (fun f => and_ h s1 f None) "and" attribute
  = clause (fun f => and_ h s2 f None) "and" attribute.
Proof.
  intros Hs. unfold clause. destruct (truthy attribute); [|reflexivity].
  apply and_ext. exact Hs.
Qed.

Lemma clause_or_ext (attribute : value) :
  (forall c, In c (items_of attribute) -> s1 c = s2 c) ->
  clause (fun f => or_ h s1 f None) "or" attribute
  = clause (fun f => or_ h s2 f None) "or" attribute.
Proof.
  intros Hs. unfold clause. destruct (truthy attribute); [|reflexivity].
  apply or_ext. exact Hs.
Qed.

Lemma bool_ext (filter : value) :
  (forall a c, In c (items_of (get_prop (get_prop filter "bool") a)) -> s1 c = s2 c) ->
  bool_ h s1 filter = bool_ h s2 filter.
Proof.
  intros Hs. unfold bool_.
  rewrite (clause_and_ext (get_prop (get_prop filter "bool") "must") (Hs "must")).
  rewrite (clause_or_ext (get_prop (get_prop filter "bool") "must_not") (Hs "must_not")).
  rewrite (clause_or_ext (get_prop (get_prop filter "bool") "should") (Hs "should")).
  rewrite (clause_and_ext (get_prop (get_prop filter "bool") "should_not") (Hs "should_not")).
  reflexivity.
Qed.

Lemma standardize_body_ext (filters : value) :
  (forall c, depth c < depth filters -> s1 c = s2 c) ->
  standardize_body h s1 filters = standardize_body h s2 filters.
Proof.
  intros Hs. unfold standardize_body.
  destruct (keywords filters) as [[|keyword [|k2 ks]]|e|e]; try reflexivity.
  destruct (member_named keyword members) as [m|]; [|reflexivity].
  assert (Hget : forall k c, In c (items_of (get_prop filters k)) -> s1 c = s2 c).
  { intros k c Hc. apply Hs. apply depth_items_of in Hc.
    pose proof (depth_get_prop filters k). lia. }
  destruct m; simpl; try reflexivity.
  - apply and_ext, Hget.
  - apply or_ext, Hget.
  - apply not_ext. intros Hd. apply Hs.
    pose proof (depth_get_prop filters "not"). lia.
  - apply bool_ext. intros a c Hc. apply Hs. apply depth_items_of in Hc.
    pose proof (depth_get_prop (get_prop filters "bool") a).
    pose proof (depth_get_prop filters "bool"). lia.
  - apply _standardizeFilterArray_ext, Hget.
Qed.

End Extensionality.

Lemma standardize_at_stable (h : host) (n : nat) :
  forall v, depth v < n -> standardize_at h (S n) v = standardize_at h n v.
Proof.
  induction n as [|n IH]; intros v Hd.
  - lia.
  - change (standardize_body h (standardize_at h (S n)) v
            = standardize_body h (standardize_at h n) v).
    apply standardize_body_ext. intros c Hc. apply IH. lia.
Qed.

Lemma standardize_at_enough (h : host) (v : value) (n : nat) :
  depth v < n -> standardize_at h n v = standardize h v.
Proof.
  unfold standardize. induction n as [|n IH]; intros Hd.
  - lia.
  - destruct (Nat.eq_dec n (depth v)) as [->|Hne]; [reflexivity|].
    rewrite standardize_at_stable by lia. apply IH. lia.
Qed.

(** [standardize] is the fixed point of its body: the stack bound is never
    felt. *)
Lemma standardize_unfold (h : host) (v : value) :
  standardize h v = standardize_body h (standardize h) v.
Proof.
  unfold standardize at 1.
  change (standardize_body h (standardize_at h (depth v)) v
          = standardize_body h (standardize h) v).
  apply standardize_body_ext. intros c Hc. apply standardize_at_enough. exact Hc.
Qed.

(** Dispatch on a filter with a single key. *)
Lemma standardize_keyword (h : host) (o : origin) (k : string) (c : value) (m : member) :
  member_named k members = Some m ->
  standardize h (VObj o [(k, c)]) = invoke h (standardize h) m (VObj o [(k, c)]).
Proof.
  intros Hm. rewrite standardize_unfold. unfold standardize_body, keywords.
  cbn [truthy keys map fst]. rewrite Hm. reflexivity.
Qed.

Example standardize_and_nested :
  fst (standardize plain_host
         (obj [("and", arr [obj [("and", arr [exists_filter "a"; exists_filter "b"])];
                            exists_filter "c"])]))
  = Resolved (VObj Fresh [("and", VArr Fresh [exists_filter "a"; exists_filter "b";
                                               exists_filter "c"]);
                          ("_isLeaf", VNum 1)]).
Proof. vm_compute. reflexivity. Qed.

(** ** Leaf predicates *)

Lemma no_other_than_strings (vs : list string) :
  existsb (fun v => negb (String.eqb (typeof v) "string")) (map VStr vs) = false.
Proof.
  induction vs as [|v vs IH]; simpl; [reflexivity|exact IH].
Qed.

Lemma standardize_ids_values (h : host) (o1 o2 o3 : origin) (v : string) (vs : list string) :
  standardize h (VObj o1 [("ids", VObj o2 [("values", VArr o3 (map VStr (v :: vs)))])])
  = (Resolved (VObj Fresh
       [("or", VArr Fresh
                 (map (fun x => VObj Fresh [("equals", VObj Fresh [("_id", VStr x)])])
                      (v :: vs)));
        ("_isLeaf", VBool true)]), []).
Proof.
  rewrite (standardize_keyword h o1 "ids" _ m_ids) by reflexivity.
  unfold invoke, pure_, ids. cbn -[existsb equals_of map].
  rewrite no_other_than_strings. unfold equals_of. rewrite map_map. reflexivity.
Qed.

(** C5: an [ids] filter whose [values] is a non-empty array of strings
    v1..vn is rewritten to an [or] node whose children are the leaves
    [{equals: {_id: vi}}] in the same order, with the leaf flag [true]; in
    particular [{ids: {values: ["a", "b"]}}] gives
    [{or: [{equals: {_id: "a"}}, {equals: {_id: "b"}}]}] flagged as a leaf. *)
Theorem ids_rewritten_to_or (h : host) (o1 o2 o3 : origin) (v : string) (vs : list string) :
  standardize h (VObj o1 [("ids", VObj o2 [("values", VArr o3 (map VStr (v :: vs)))])])
  = (Resolved (VObj Fresh
       [("or", VArr Fresh
                 (map (fun x => VObj Fresh [("equals", VObj Fresh [("_id", VStr x)])])
                      (v :: vs)));
        ("_isLeaf", VBool true)]), [])
  /\ standardize h (obj [("ids", obj [("values", arr [str "a"; str "b"])])])
     = (Resolved (VObj Fresh
          [("or", VArr Fresh [VObj Fresh [("equals", VObj Fresh [("_id", VStr "a")])];
                              VObj Fresh [("equals", VObj Fresh [("_id", VStr "b")])]]);
           ("_isLeaf", VBool true)]), []).
Proof.
  split.
  - apply standardize_ids_values.
  - exact (standardize_ids_values h Input Input Input "a" ["b"]).
Qed.

(** ** Dispatch *)

Lemma keywords_resolve (v : value) : exists ks, keywords v = Resolved ks.
Proof.
  unfold keywords. destruct v; simpl; eauto.
  destruct b; simpl; eauto.
  destruct (negb (x =? 0)%float && negb (is_nan x)); eauto.
  destruct (negb (String.eqb s EmptyString)); eauto.
Qed.

(** No top-level key: the empty filter, which matches everything. *)
Lemma standardize_no_key (h : host) (v : value) :
  keywords v = Resolved [] -> standardize h v = (Resolved (VObj Fresh []), []).
Proof.
  intros Hk. rewrite standardize_unfold. unfold standardize_body. rewrite Hk. reflexivity.
Qed.

(** Two top-level keys or more: invalid syntax. *)
Lemma standardize_many_keys (h : host) (v : value) (k1 k2 : string) (ks : list string) :
  keywords v = Resolved (k1 :: k2 :: ks) ->
  standardize h v = (reject "Invalid filter syntax", []).
Proof.
  intros Hk. rewrite standardize_unfold. unfold standardize_body. rewrite Hk. reflexivity.
Qed.

(** A single key that names no member of the instance, own or inherited:
    unknown keyword. *)
Lemma standardize_unknown_key (h : host) (v : value) (k : string) :
  keywords v = Resolved [k] ->
  member_named k members = None ->
  inherited h k v = None ->
  standardize h v = (reject ("Unknown DSL keyword: " ++ k), []).
Proof.
  intros Hk Hm Hi. rewrite standardize_unfold. unfold standardize_body.
  rewrite Hk, Hm, Hi. reflexivity.
Qed.

(** C3 (the code departs from it): a single top-level key that is not one
    of the fifteen keywords is not always answered with the unknown-keyword
    error.  The test is [this[name]], which also finds the entry point, the
    private helper and the constructor; the call then throws instead of
    rejecting with [Unknown DSL keyword]. *)
Theorem standardize_member_names_not_rejected (h : host) :
  standardize h (obj [("_standardizeFilterArray", obj [])]) = (Thrown TypeError, [])
  /\ standardize h (obj [("standardize", obj [])]) = (Thrown RangeError, [])
  /\ standardize h (obj [("constructor", obj [])]) = (Thrown TypeError, [])
  /\ standardize h (obj [("_standardizeFilterArray", obj [])])
     <> (reject ("Unknown DSL keyword: " ++ "_standardizeFilterArray"), []).
Proof.
  repeat split; try reflexivity. discriminate.
Qed.

(** ** Bounding boxes *)

Lemma bbox_standardized_flat (h : host) (o : origin) (fields : list (string * value))
  (t l b r : float) :
  lookup "top" fields = VNum t ->
  lookup "left" fields = VNum l ->
  lookup "bottom" fields = VNum b ->
  lookup "right" fields = VNum r ->
  bbox_standardized h (VObj o fields)
  = Resolved [("top", VNum t); ("left", VNum l); ("bottom", VNum b); ("right", VNum r)].
Proof.
  intros Ht Hl Hb Hr. unfold bbox_standardized, fieldsExist.
  cbn [forallb get_prop nullish negb andb map]. rewrite Ht, Hl, Hb, Hr. reflexivity.
Qed.

Lemma geoBoundingBox_outcome (h : host) (o1 o2 : origin) (field : string)
  (box bBox : value) (standardized : list (string * value)) :
  geoLocationToCamelCase h box = Resolved bBox ->
  bbox_standardized h bBox = Resolved standardized ->
  standardize h (VObj o1 [("geoBoundingBox", VObj o2 [(field, box)])])
  = (if negb (truthy (lookup "top" standardized))
     then reject ("Unrecognized geo-point format in " ++ dq ++ "geoBoundingBox." ++ field)
     else Resolved (VObj Fresh [("geospatial",
            VObj Fresh [("geoBoundingBox",
              VObj Fresh [(field, VObj Fresh standardized)])])]), []).
Proof.
  intros Hc Hs.
  rewrite (@standardize_keyword h o1 "geoBoundingBox" _ m_geoBoundingBox) by reflexivity.
  unfold invoke, pure_, geoBoundingBox.
  cbn [get_prop lookup String.eqb Ascii.eqb Bool.eqb mustBeNonEmptyObject map fst then_
       onlyOneFieldAttribute List.length Nat.ltb Nat.leb first_key hd].
  rewrite String.eqb_refl. rewrite Hc. cbn [seq_]. rewrite Hs. cbn [seq_].
  destruct (negb (truthy (lookup "top" standardized))); reflexivity.
Qed.

(** With a truthy [top] the flat box is accepted and carried over. *)
Lemma geoBoundingBox_flat_accepted (h : host) (o1 o2 o : origin) (field : string)
  (box : value) (fields : list (string * value)) (t l b r : float) :
  geoLocationToCamelCase h box = Resolved (VObj o fields) ->
  lookup "top" fields = VNum t ->
  lookup "left" fields = VNum l ->
  lookup "bottom" fields = VNum b ->
  lookup "right" fields = VNum r ->
  truthy (VNum t) = true ->
  standardize h (VObj o1 [("geoBoundingBox", VObj o2 [(field, box)])])
  = (Resolved (VObj Fresh [("geospatial",
       VObj Fresh [("geoBoundingBox",
         VObj Fresh [(field, VObj Fresh [("top", VNum t); ("left", VNum l);
                                         ("bottom", VNum b); ("right", VNum r)])])])]), []).
Proof.
  intros Hc Ht Hl Hb Hr Htruthy.
  rewrite (geoBoundingBox_outcome h o1 o2 field _ _ _ Hc (bbox_standardized_flat h o _ _ _ _ _ Ht Hl Hb Hr)).
  cbn [lookup String.eqb Ascii.eqb Bool.eqb]. rewrite Htruthy. reflexivity.
Qed.

(** C10: a [geoBoundingBox] filter whose normalized rectangle has a falsy
    [top] is rejected as an unrecognized geo-point format although it
    matches a supported encoding; so is, in particular, every flat numeric
    box whose [top] is 0 (or -0, or NaN). *)
Theorem geoBoundingBox_falsy_top_rejected (h : host) (o1 o2 : origin) (field : string)
  (box bBox : value) :
  geoLocationToCamelCase h box = Resolved bBox ->
  (forall standardized,
     bbox_standardized h bBox = Resolved standardized ->
     truthy (lookup "top" standardized) = false ->
     standardize h (VObj o1 [("geoBoundingBox", VObj o2 [(field, box)])])
     = (reject ("Unrecognized geo-point format in " ++ dq ++ "geoBoundingBox." ++ field), []))
  /\ (forall o fields t l b r,
        bBox = VObj o fields ->
        lookup "top" fields = VNum t ->
        lookup "left" fields = VNum l ->
        lookup "bottom" fields = VNum b ->
        lookup "right" fields = VNum r ->
        truthy (VNum t) = false ->
        standardize h (VObj o1 [("geoBoundingBox", VObj o2 [(field, box)])])
        = (reject ("Unrecognized geo-point format in " ++ dq ++ "geoBoundingBox." ++ field),
           [])).
Proof.
  intros Hc.
  assert (Hgen : forall standardized,
     bbox_standardized h bBox = Resolved standardized ->
     truthy (lookup "top" standardized) = false ->
     standardize h (VObj o1 [("geoBoundingBox", VObj o2 [(field, box)])])
     = (reject ("Unrecognized geo-point format in " ++ dq ++ "geoBoundingBox." ++ field), [])).
  { intros standardized Hs Ht. rewrite (geoBoundingBox_outcome h o1 o2 field _ _ _ Hc Hs).
    rewrite Ht. reflexivity. }
  split; [exact Hgen|].
  intros o fields t l b r -> Ht Hl Hb Hr Hfalsy.
  apply (Hgen _ (bbox_standardized_flat h o _ _ _ _ _ Ht Hl Hb Hr)).
  cbn [lookup String.eqb Ascii.eqb Bool.eqb]. exact Hfalsy.
Qed.

Lemma geoBoundingBox_falsy_top_rejected_witness :
  standardize plain_host
    (obj [("geoBoundingBox",
           obj [("loc", obj [("top", num 0); ("left", num 2);
                             ("bottom", num (-3)); ("right", num 4)])])])
  = (reject ("Unrecognized geo-point format in " ++ dq ++ "geoBoundingBox." ++ "loc"), []).
Proof.
  refine (proj2 (@geoBoundingBox_falsy_top_rejected plain_host Input Input "loc"
                   (obj [("top", num 0); ("left", num 2);
                         ("bottom", num (-3)); ("right", num 4)]) _ eq_refl)
                Input [("top", num 0); ("left", num 2); ("bottom", num (-3)); ("right", num 4)]
                0%float 2%float (-3)%float 4%float
                eq_refl eq_refl eq_refl eq_refl eq_refl eq_refl).
Defined.

(** C6 (the code departs from it): the flat box of the specification is
    accepted and carried over, but a flat numeric box on the equator is
    not: with [top] equal to 0 the filter is rejected, because the test
    after the cascade is on the truthiness of [standardized.top]. *)
Theorem geoBoundingBox_flat_box_on_equator (h : host) :
  geoLocationToCamelCase h = (fun v => Resolved v) ->
  standardize h
    (obj [("geoBoundingBox",
           obj [("loc", obj [("top", num 0); ("left", num 2);
                             ("bottom", num (-3)); ("right", num 4)])])])
  = (Rejected (BadRequestError
       ("Unrecognized geo-point format in " ++ dq ++ "geoBoundingBox.loc")), [])
  /\ standardize h
       (obj [("geoBoundingBox",
              obj [("loc", obj [("top", num 1); ("left", num 2);
                                ("bottom", num 3); ("right", num 4)])])])
     = (Resolved (VObj Fresh [("geospatial",
          VObj Fresh [("geoBoundingBox",
            VObj Fresh [("loc", VObj Fresh [("top", VNum 1); ("left", VNum 2);
                                            ("bottom", VNum 3); ("right", VNum 4)])])])]),
        []).
Proof.
  intros Hc.
  assert (Hbox : forall v, geoLocationToCamelCase h v = Resolved v)
    by (intros v; rewrite Hc; reflexivity).
  split.
  - exact (eq_trans
             (geoBoundingBox_outcome h Input Input "loc" _ _ _ (Hbox _)
                (bbox_standardized_flat h Input
                   [("top", num 0); ("left", num 2); ("bottom", num (-3)); ("right", num 4)]
                   0%float 2%float (-3)%float 4%float
                   eq_refl eq_refl eq_refl eq_refl))
             eq_refl).
  - exact (geoBoundingBox_flat_accepted h Input Input Input "loc" _
             [("top", num 1); ("left", num 2); ("bottom", num 3); ("right", num 4)]
             1%float 2%float 3%float 4%float (Hbox _)
             eq_refl eq_refl eq_refl eq_refl eq_refl).
Qed.

Lemma geoBoundingBox_flat_box_on_equator_witness :
  fst (standardize plain_host
    (obj [("geoBoundingBox",
           obj [("loc", obj [("top", num 0); ("left", num 2);
                             ("bottom", num (-3)); ("right", num 4)])])]))
  = Rejected (BadRequestError
       ("Unrecognized geo-point format in " ++ dq ++ "geoBoundingBox.loc")).
Proof.
  rewrite (proj1 (geoBoundingBox_flat_box_on_equator plain_host eq_refl)). reflexivity.
Defined.

(** ** [bool] *)

(** C2 (the code departs from it): the [bool] filter of the specification,
    with one [must] term and two [should] terms, is not standardized to an
    [and] node.  The single [must] term comes back unwrapped from [and] and
    is taken as [standardized]; it has no [and] attribute, so adding the
    [should] clause throws and the promise is rejected with a [TypeError].
    With two [must] terms the [and] node the claim describes is returned. *)
Theorem bool_must_should_example (h : host) :
  fst (standardize h
         (obj [("bool", obj [("must", arr [exists_filter "a"]);
                             ("should", arr [exists_filter "b"; exists_filter "c"])])]))
  = Rejected TypeError
  /\ fst (standardize h
            (obj [("bool", obj [("must", arr [exists_filter "a"; exists_filter "d"]);
                                ("should", arr [exists_filter "b"; exists_filter "c"])])]))
     = Resolved (VObj Fresh
         [("and", VArr Fresh
                    [exists_filter "a"; exists_filter "d";
                     VObj Fresh [("or", VArr Fresh [exists_filter "b"; exists_filter "c"]);
                                 ("_isLeaf", VBool true)]]);
          ("_isLeaf", VBool false)]).
Proof.
  split; vm_compute; reflexivity.
Qed.

(** The same slip with a single clause: [and] and [or] return a single
    child unwrapped, and so does [bool] for a single [should] term, but a
    [bool] whose only clause is a single [must] term is not unwrapped: the
    term is taken as [standardized], and reading [standardized.and.length]
    throws. *)
Lemma bool_single_must_not_unwrapped (h : host) :
  fst (standardize h (obj [("bool", obj [("must", arr [exists_filter "a"])])]))
  = Rejected TypeError
  /\ fst (standardize h (obj [("and", arr [exists_filter "a"])]))
     = Resolved (exists_filter "a")
  /\ fst (standardize h (obj [("or", arr [exists_filter "a"])]))
     = Resolved (exists_filter "a")
  /\ fst (standardize h (obj [("bool", obj [("should", arr [exists_filter "a"])])]))
     = Resolved (exists_filter "a").
Proof.
  repeat split; vm_compute; reflexivity.
Qed.

(** ** Ranges *)

Lemma then_settled {A B : Type} (a : A) (f : A -> outcome B) :
  (forall e, f a <> Thrown e) -> then_ (Resolved a) f = f a.
Proof.
  intros Hf. unfold then_. destruct (f a) as [b|e|e]; try reflexivity.
  exfalso. exact (Hf e eq_refl).
Qed.

Lemma range_values_settled (filter : value) (rangeField : string) (ks : list string) (e : exn) :
  range_values filter rangeField ks <> Thrown e.
Proof.
  unfold range_values, reject.
  destruct (existsb _ ks); [discriminate|].
  destruct (find _ ks); [discriminate|].
  destruct (error _); [discriminate|].
  destruct (_ <=? _)%float; discriminate.
Qed.

(** A range filter with a non-empty bound object gets to the checks on
    the bounds. *)
Lemma standardize_range (h : host) (o1 o2 o3 : origin) (field : string)
  (kv : string * value) (bs : list (string * value)) :
  standardize h (range_filter o1 o2 o3 field (kv :: bs))
  = (range_values (range_filter o1 o2 o3 field (kv :: bs)) field (map fst (kv :: bs)), []).
Proof.
  unfold range_filter.
  rewrite (standardize_keyword h o1 "range" _ m_range) by reflexivity.
  unfold invoke, pure_, range.
  cbn [get_prop lookup String.eqb Ascii.eqb Bool.eqb mustBeNonEmptyObject map fst then_
       onlyOneFieldAttribute List.length Nat.ltb Nat.leb first_key hd].
  rewrite String.eqb_refl.
  cbn [mustBeNonEmptyObject].
  rewrite then_settled by apply range_values_settled.
  change (match range_values ?f ?g ?k with Thrown e => Rejected e | r => r end)
    with (then_ (Resolved tt) (fun _ => range_values f g k)).
  rewrite then_settled by apply range_values_settled.
  reflexivity.
Qed.

Lemma prefix_lt_not_gt (k : string) :
  String.prefix "lt" k = true -> String.prefix "gt" k = false.
Proof.
  destruct k as [|c k]; [discriminate|]. cbn [String.prefix].
  destruct (Ascii.ascii_dec "l" c) as [<-|Hl]; [|discriminate].
  intros _. destruct (Ascii.ascii_dec "g" "l"); [discriminate|reflexivity].
Qed.

Section RangeLoop.

Variables (rangeField : string) (obj : value) (ks : list string).

Hypothesis bounded_keys : forall k, In k ks ->
  (number_of (get_prop obj k) =? infinity)%float = false
  /\ (number_of (get_prop obj k) =? neg_infinity)%float = false.

Lemma bounds_inv_init :
  bounds_inv obj [] {| high := infinity; low := neg_infinity; error := None |}.
Proof.
  unfold bounds_inv; simpl. repeat split; auto.
Qed.

Lemma bounds_inv_step (seen : list string) (st : bounds) (k : string) :
  incl seen ks -> In k ks ->
  bounds_inv obj seen st ->
  bounds_inv obj (seen ++ [k]) (range_step rangeField obj st k).
Proof.
  intros Hseen Hk (Hhigh & Hlow & Herr).
  unfold bounds_inv, uppers, lowers in *. rewrite !filter_app. cbn [filter].
  unfold range_step.
  destruct (String.prefix "lt" k) eqn:Elt.
  - rewrite (prefix_lt_not_gt k Elt). rewrite app_nil_r.
    destruct (filter (String.prefix "lt") seen) as [|k0 us] eqn:Eus.
    + rewrite Hhigh. cbn [bound_of negb app high low error].
      change (infinity =? infinity)%float with true. cbn [negb high low error].
      split; [reflexivity|]. split; [exact Hlow|].
      rewrite Herr. simpl. split; intros [_ H]; split; solve [lia|exact H].
    + assert (Hk0 : In k0 ks).
      { apply Hseen. apply (proj1 (filter_In (String.prefix "lt") k0 seen)).
        rewrite Eus. left. reflexivity. }
      rewrite Hhigh. cbn [bound_of app]. rewrite (proj1 (bounded_keys k0 Hk0)).
      cbn [negb high low error bound_of]. split; [reflexivity|]. split; [exact Hlow|].
      split; [discriminate|].
      intros [Hlen _]. simpl in Hlen. rewrite length_app in Hlen. simpl in Hlen. lia.
  - rewrite app_nil_r.
    destruct (String.prefix "gt" k) eqn:Egt.
    + destruct (filter (String.prefix "gt") seen) as [|k0 ls] eqn:Els.
      * rewrite Hlow. cbn [bound_of negb app high low error].
        change (neg_infinity =? neg_infinity)%float with true. cbn [negb high low error].
        split; [exact Hhigh|]. split; [reflexivity|].
        rewrite Herr. simpl. split; intros [H _]; split; solve [lia|exact H].
      * assert (Hk0 : In k0 ks).
        { apply Hseen. apply (proj1 (filter_In (String.prefix "gt") k0 seen)).
          rewrite Els. left. reflexivity. }
        rewrite Hlow. cbn [bound_of app]. rewrite (proj2 (bounded_keys k0 Hk0)).
        cbn [negb high low error bound_of]. split; [exact Hhigh|]. split; [reflexivity|].
        split; [discriminate|].
        intros [_ Hlen]. simpl in Hlen. rewrite length_app in Hlen. simpl in Hlen. lia.
    + rewrite app_nil_r. split; [exact Hhigh|]. split; [exact Hlow|exact Herr].
Qed.

Lemma bounds_inv_fold (todo seen : list string) (st : bounds) :
  incl seen ks -> incl todo ks ->
  bounds_inv obj seen st ->
  bounds_inv obj (seen ++ todo) (fold_left (range_step rangeField obj) todo st).
Proof.
  revert seen st. induction todo as [|k todo IH]; intros seen st Hseen Htodo Hinv.
  - rewrite app_nil_r. exact Hinv.
  - cbn [fold_left].
    replace (seen ++ k :: todo)%list with ((seen ++ [k]) ++ todo)%list
      by (rewrite <- app_assoc; reflexivity).
    apply IH.
    + apply incl_app; [exact Hseen|]. intros x [<- | []]. apply Htodo. left. reflexivity.
    + intros x Hx. apply Htodo. right. exact Hx.
    + apply bounds_inv_step; [exact Hseen| |exact Hinv]. apply Htodo. left. reflexivity.
Qed.

Lemma range_bounds_inv : bounds_inv obj ks (range_bounds rangeField obj ks).
Proof.
  unfold range_bounds.
  apply (bounds_inv_fold ks [] _ (incl_nil_l _) (incl_refl _) bounds_inv_init).
Qed.

End RangeLoop.

Lemma mem_In (k : string) (l : list string) : mem k l = true <-> In k l.
Proof.
  unfold mem. rewrite existsb_exists. split.
  - intros (x & Hx & Heq). apply String.eqb_eq in Heq. subst. exact Hx.
  - intros Hin. exists k. split; [exact Hin|apply String.eqb_refl].
Qed.

Lemma mem_false (k : string) (l : list string) : mem k l = false <-> ~ In k l.
Proof.
  rewrite <- mem_In. destruct (mem k l); split; intros H; congruence.
Qed.

Lemma lookup_NoDup (bs : list (string * value)) (k : string) (v : value) :
  NoDup (map fst bs) -> In (k, v) bs -> lookup k bs = v.
Proof.
  induction bs as [|[k' v'] bs IH]; simpl; intros Hnd Hin.
  - contradiction.
  - apply NoDup_cons_iff in Hnd. destruct Hnd as [Hk' Hnd].
    destruct Hin as [Heq|Hin].
    + inversion Heq; subst. rewrite String.eqb_refl. reflexivity.
    + destruct (String.eqb k k') eqn:E.
      * apply String.eqb_eq in E. subst. exfalso. apply Hk'.
        apply in_map_iff. exists (k', v). split; [reflexivity|exact Hin].
      * apply IH; assumption.
Qed.

Section RangeStatement.

Variable bs : list (string * value).
Hypothesis attributes : forallb range_attribute bs = true.
Hypothesis distinct : NoDup (map fst bs).

Lemma range_key (k : string) :
  In k (map fst bs) ->
  In k ["gt"; "gte"; "lt"; "lte"] /\ exists x, lookup k bs = VNum x /\ In (k, VNum x) bs.
Proof.
  intros Hin. apply in_map_iff in Hin. destruct Hin as ([k' v] & Hk & Hin). simpl in Hk. subst k'.
  pose proof (proj1 (forallb_forall _ _) attributes _ Hin) as Ha.
  unfold range_attribute in Ha. simpl in Ha. apply andb_true_iff in Ha. destruct Ha as [Hm Hn].
  split; [apply mem_In; exact Hm|].
  destruct v; try discriminate. exists x. split; [|exact Hin].
  apply lookup_NoDup; assumption.
Qed.

Lemma range_keys_known :
  existsb (fun v => negb (mem v ["gt"; "lt"; "gte"; "lte"])) (map fst bs) = false.
Proof.
  destruct (existsb _ _) eqn:E; [|reflexivity].
  apply existsb_exists in E. destruct E as (k & Hin & Hk).
  destruct (range_key k Hin) as [Hk4 _].
  apply negb_true_iff, mem_false in Hk. exfalso. apply Hk.
  simpl in *. tauto.
Qed.

Lemma range_keys_numbers (o : origin) :
  find (fun v => negb (String.eqb (typeof (get_prop (VObj o bs) v)) "number")) (map fst bs)
  = None.
Proof.
  destruct (find _ _) eqn:E; [|reflexivity].
  apply find_some in E. destruct E as [Hin Hk].
  destruct (range_key s Hin) as (_ & x & Hx & _).
  simpl in Hk. rewrite Hx in Hk. discriminate.
Qed.

Lemma uppers_known (k : string) :
  In k (uppers (map fst bs)) -> k = "lt" \/ k = "lte".
Proof.
  unfold uppers. rewrite filter_In. intros [Hin Hp].
  destruct (range_key k Hin) as [Hk _]. simpl in Hk.
  destruct Hk as [H|[H|[H|[H|H]]]]; subst; try discriminate; try contradiction; auto.
Qed.

Lemma lowers_known (k : string) :
  In k (lowers (map fst bs)) -> k = "gt" \/ k = "gte".
Proof.
  unfold lowers. rewrite filter_In. intros [Hin Hp].
  destruct (range_key k Hin) as [Hk _]. simpl in Hk.
  destruct Hk as [H|[H|[H|[H|H]]]]; subst; try discriminate; try contradiction; auto.
Qed.

Lemma one_side (side : list string) (a b : string) :
  a <> b -> NoDup side -> (forall k, In k side -> k = a \/ k = b) ->
  (List.length side <= 1 <-> ~ (In a side /\ In b side)).
Proof.
  intros Hab Hnd Hside. split.
  - intros Hlen [Ha Hb].
    assert (Hincl : incl [a; b] side) by (intros x [<- | [<- | []]]; assumption).
    assert (Hnd2 : NoDup [a; b]).
    { constructor; [intros [Heq|[]]; congruence|]. constructor; [intros []|constructor]. }
    pose proof (NoDup_incl_length Hnd2 Hincl) as Hl. simpl in Hl. lia.
  - intros Hnot.
    destruct (in_dec string_dec a side) as [Ha|Ha].
    + assert (Hincl : incl side [a]).
      { intros x Hx. destruct (Hside x Hx) as [-> | ->]; [left; reflexivity|].
        exfalso. apply Hnot. split; assumption. }
      pose proof (NoDup_incl_length Hnd Hincl) as Hl. simpl in Hl. exact Hl.
    + assert (Hincl : incl side [b]).
      { intros x Hx. destruct (Hside x Hx) as [-> | ->]; [contradiction|left; reflexivity]. }
      pose proof (NoDup_incl_length Hnd Hincl) as Hl. simpl in Hl. exact Hl.
Qed.

Lemma one_upper : List.length (uppers (map fst bs)) <= 1 <-> two_upper bs = false.
Proof.
  rewrite (one_side (uppers (map fst bs)) "lt" "lte");
    [|discriminate|apply NoDup_filter; exact distinct|exact uppers_known].
  unfold two_upper, has_bound, uppers. rewrite !filter_In.
  destruct (mem "lt" (map fst bs)) eqn:E1; destruct (mem "lte" (map fst bs)) eqn:E2; simpl;
    rewrite ?mem_In, ?mem_false in *; split; intros H; try reflexivity; try discriminate.
  - exfalso. apply H. repeat split; auto.
  - intros [[H1 _] [H2 _]]. contradiction.
  - intros [[H1 _] [H2 _]]. contradiction.
  - intros [[H1 _] [H2 _]]. contradiction.
Qed.

Lemma one_lower : List.length (lowers (map fst bs)) <= 1 <-> two_lower bs = false.
Proof.
  rewrite (one_side (lowers (map fst bs)) "gt" "gte");
    [|discriminate|apply NoDup_filter; exact distinct|exact lowers_known].
  unfold two_lower, has_bound, lowers. rewrite !filter_In.
  destruct (mem "gt" (map fst bs)) eqn:E1; destruct (mem "gte" (map fst bs)) eqn:E2; simpl;
    rewrite ?mem_In, ?mem_false in *; split; intros H; try reflexivity; try discriminate.
  - exfalso. apply H. repeat split; auto.
  - intros [[H1 _] [H2 _]]. contradiction.
  - intros [[H1 _] [H2 _]]. contradiction.
  - intros [[H1 _] [H2 _]]. contradiction.
Qed.

(** The bound the loop ends with is the one the statement resolves. *)
Lemma bound_of_find (p : string -> bool) (default : float) (o : origin) :
  bound_of default (VObj o bs) (filter p (map fst bs))
  = match find (fun kv => p (fst kv)) bs with
    | Some kv => number_of (snd kv)
    | None => default
    end.
Proof.
  assert (Hgen : forall l, incl l bs ->
    bound_of default (VObj o bs) (filter p (map fst l))
    = match find (fun kv => p (fst kv)) l with
      | Some kv => number_of (snd kv)
      | None => default
      end).
  { induction l as [|[k v] l IH]; intros Hincl; [reflexivity|].
    cbn [map filter find fst snd]. destruct (p k) eqn:E.
    - cbn [bound_of get_prop].
      rewrite (lookup_NoDup bs k v distinct) by (apply Hincl; left; reflexivity).
      reflexivity.
    - apply IH. intros x Hx. apply Hincl. right. exact Hx. }
  apply Hgen. apply incl_refl.
Qed.

End RangeStatement.

Lemma range_step_error (rangeField : string) (obj : value) (st : bounds) (k : string) :
  (forall e, error st = Some e -> exists m, e = BadRequestError m) ->
  forall e, error (range_step rangeField obj st k) = Some e -> exists m, e = BadRequestError m.
Proof.
  intros Hst e. unfold range_step.
  destruct (String.prefix "lt" k); destruct (String.prefix "gt" k);
    repeat match goal with
           | |- context [if ?c then _ else _] => destruct c
           end; cbn [error]; intros He;
    solve [apply Hst; exact He | inversion He; eexists; reflexivity].
Qed.

Lemma range_bounds_error (rangeField : string) (obj : value) (ks : list string) (e : exn) :
  error (range_bounds rangeField obj ks) = Some e -> exists m, e = BadRequestError m.
Proof.
  unfold range_bounds.
  assert (Hgen : forall l st,
    (forall e, error st = Some e -> exists m, e = BadRequestError m) ->
    forall e, error (fold_left (range_step rangeField obj) l st) = Some e ->
              exists m, e = BadRequestError m).
  { induction l as [|k l IH]; intros st Hst; [exact Hst|].
    cbn [fold_left]. apply IH. apply range_step_error. exact Hst. }
  apply Hgen. cbn [error]. discriminate.
Qed.

(** C4, amended: a range filter with one field whose bound object is not
    empty, uses only gt/gte/lt/lte and holds numbers other than [Infinity]
    and [-Infinity] fails when it has two lower or two upper bounds, fails
    when the upper bound (any lt* bound, +infinity by default) is less than
    or equal to the lower bound (any gt* bound, -infinity by default), and
    is returned as it is otherwise.  [{range: {age: {gt: 10, lt: 5}}}]
    fails and [{range: {age: {gte: 0, lte: 120}}}] is returned unchanged. *)
Theorem range_bounds_checked (h : host) (o1 o2 o3 : origin) (field : string)
  (bs : list (string * value)) :
  (bs <> [] -> forallb bounded bs = true -> range_claim h o1 o2 o3 field bs)
  /\ failed (standardize h
               (range_filter Input Input Input "age" [("gt", num 10); ("lt", num 5)]))
  /\ standardize h (range_filter Input Input Input "age" [("gte", num 0); ("lte", num 120)])
     = (Resolved (range_filter Input Input Input "age" [("gte", num 0); ("lte", num 120)]),
        []).
Proof.
  split; [|split; [eexists; vm_compute; reflexivity|vm_compute; reflexivity]].
  unfold range_claim. intros Hne Hbounded Hattr Hnd.
  destruct bs as [|kv bs']; [congruence|].
  rewrite standardize_range. set (bs := kv :: bs') in *. unfold range_values.
  assert (Hobj : get_prop (get_prop (range_filter o1 o2 o3 field bs) "range") field
                 = VObj o3 bs).
  { unfold range_filter. cbn [get_prop lookup String.eqb Ascii.eqb Bool.eqb].
    rewrite String.eqb_refl. reflexivity. }
  rewrite Hobj, (range_keys_known bs Hattr Hnd), (range_keys_numbers bs Hattr Hnd).
  assert (Hkeys : forall k, In k (map fst bs) ->
    (number_of (get_prop (VObj o3 bs) k) =? infinity)%float = false
    /\ (number_of (get_prop (VObj o3 bs) k) =? neg_infinity)%float = false).
  { intros k Hk. destruct (range_key bs Hattr Hnd k Hk) as (_ & x & Hx & Hin).
    cbn [get_prop]. rewrite Hx.
    pose proof (proj1 (forallb_forall _ _) Hbounded _ Hin) as Hb.
    unfold bounded in Hb. cbn [snd number_of] in *.
    apply andb_true_iff in Hb. destruct Hb as [H1 H2].
    apply negb_true_iff in H1, H2. split; assumption. }
  destruct (range_bounds_inv field (VObj o3 bs) (map fst bs) Hkeys) as (Hhigh & Hlow & Herr).
  unfold uppers, lowers in Hhigh, Hlow.
  rewrite (bound_of_find bs Hnd) in Hhigh, Hlow.
  fold (resolved_high bs) in Hhigh. fold (resolved_low bs) in Hlow.
  rewrite (one_upper bs Hattr Hnd), (one_lower bs Hattr Hnd) in Herr.
  pose proof (range_bounds_error field (VObj o3 bs) (map fst bs)) as Hkind.
  destruct (error (range_bounds field (VObj o3 bs) (map fst bs))) as [e|].
  - destruct (Hkind e eq_refl) as [m ->].
    split; [intros _; exists m; reflexivity|].
    split; [intros _; exists m; reflexivity|].
    intros Htwo _. apply orb_false_iff in Htwo. destruct Htwo as [Hl Hu].
    discriminate (proj2 Herr (conj Hu Hl)).
  - destruct (proj1 Herr eq_refl) as [Hu Hl].
    rewrite Hhigh, Hlow.
    split; [intros Htwo; rewrite Hu, Hl in Htwo; discriminate|].
    split.
    + intros Hle. rewrite Hle. eexists. reflexivity.
    + intros _ Hle. rewrite Hle. reflexivity.
Qed.

Lemma range_bounds_checked_witness :
  standardize plain_host
    (range_filter Input Input Input "age" [("gte", num 0); ("lte", num 120)])
  = (Resolved (range_filter Input Input Input "age" [("gte", num 0); ("lte", num 120)]), []).
Proof.
  refine (proj2 (proj2 (proj1 (range_bounds_checked plain_host Input Input Input "age"
            [("gte", num 0); ("lte", num 120)]) _ eq_refl eq_refl _)) eq_refl eq_refl).
  - discriminate.
  - repeat constructor; simpl; intuition discriminate.
Defined.

(** The loop of [range] takes [Infinity] and [-Infinity] for bounds that
    are not set yet: a second upper bound goes unnoticed when the first one
    met is [Infinity].  The theorem above leaves these bounds out. *)
Lemma range_infinite_bound_not_counted (h : host) :
  standardize h (range_filter Input Input Input "age"
                   [("lt", num infinity); ("lte", num 5)])
  = (Resolved (range_filter Input Input Input "age"
                 [("lt", num infinity); ("lte", num 5)]), []).
Proof.
  vm_compute. reflexivity.
Qed.

(** C4 as it is stated fails on an empty bound object: it has no two
    bounds on a side and its bounds are in order, yet it is rejected as not
    being a non-empty object. *)
Lemma range_claim_empty_bounds : ~ range_claim plain_host Input Input Input "age" [].
Proof.
  intros H. destruct (H eq_refl (NoDup_nil _)) as (_ & _ & H3).
  specialize (H3 eq_refl eq_refl). vm_compute in H3. discriminate H3.
Qed.

(** ** The shape of what [standardize] returns, and where it writes *)

Lemma then_resolved {A B : Type} (p : outcome A) (f : A -> outcome B) (b : B) :
  then_ p f = Resolved b -> exists a, p = Resolved a /\ f a = Resolved b.
Proof.
  unfold then_. destruct p as [a|e|e]; try discriminate.
  intros H. exists a. split; [reflexivity|]. destruct (f a); congruence.
Qed.

Lemma seq_resolved {A B : Type} (p : outcome A) (f : A -> outcome B) (b : B) :
  seq_ p f = Resolved b -> exists a, p = Resolved a /\ f a = Resolved b.
Proof.
  unfold seq_. destruct p as [a|e|e]; try discriminate.
  intros H. exists a. split; [reflexivity|exact H].
Qed.

(** Walks back a resolved chain to the value its last callback returned. *)
Ltac last_callback H :=
  repeat first
    [ apply then_resolved in H; destruct H as (? & _ & H); cbv beta zeta in H
    | apply seq_resolved in H; destruct H as (? & _ & H); cbv beta zeta in H
    | discriminate H
    | match type of H with
      | (if ?c then _ else _) = Resolved _ => destruct c
      | match ?x with _ => _ end = Resolved _ => destruct x
      end ].

Lemma keyword_object_sound (o : origin) (k : string) (c : value) :
  String.eqb k "and" = false -> String.eqb k "or" = false -> sound (VObj o [(k, c)]).
Proof.
  intros Hand Hor. cbn [sound]. rewrite Hand, Hor. cbn [orb lookup].
  rewrite String.eqb_sym, Hand. reflexivity.
Qed.

Lemma equals_of_sound (field : string) (values : list value) :
  (fix all (l : list value) : Prop :=
     match l with
     | [] => True
     | x :: r => sound x /\ all r
     end) (equals_of field values).
Proof.
  induction values as [|v values IH]; cbn [equals_of map]; [exact I|].
  split; [|exact IH]. apply keyword_object_sound; reflexivity.
Qed.

Section LeafShapes.

Variable h : host.
Variables (o : origin) (c : value).

Lemma exists_sound (r : value) :
  exists_ (VObj o [("exists", c)]) None = Resolved r -> sound r.
Proof.
  intros H. unfold exists_ in H. last_callback H.
  inversion H; subst. apply keyword_object_sound; reflexivity.
Qed.

Lemma missing_sound (r : value) :
  missing (VObj o [("missing", c)]) = Resolved r -> sound r.
Proof.
  intros H. unfold missing in H. last_callback H.
  inversion H; subst. apply keyword_object_sound; reflexivity.
Qed.

Lemma ids_sound (r : value) :
  ids (VObj o [("ids", c)]) = Resolved r -> sound r.
Proof.
  intros H. unfold ids in H. last_callback H.
  inversion H; subst. cbn [sound String.eqb Ascii.eqb Bool.eqb orb].
  split; [reflexivity|]. split; [eexists; split; [reflexivity|left; reflexivity]|].
  apply equals_of_sound.
Qed.

Lemma in_sound (r : value) :
  in_ (VObj o [("in", c)]) = Resolved r -> sound r.
Proof.
  intros H. unfold in_ in H. last_callback H.
  inversion H; subst. cbn [sound String.eqb Ascii.eqb Bool.eqb orb].
  split; [reflexivity|]. split; [eexists; split; [reflexivity|left; reflexivity]|].
  apply equals_of_sound.
Qed.

Lemma equals_sound (r : value) :
  equals (VObj o [("equals", c)]) = Resolved r -> sound r.
Proof.
  intros H. unfold equals in H. last_callback H.
  inversion H; subst. apply keyword_object_sound; reflexivity.
Qed.

Lemma range_sound (r : value) :
  range (VObj o [("range", c)]) = Resolved r -> sound r.
Proof.
  intros H. unfold range in H. last_callback H. unfold range_values in H. last_callback H.
  inversion H; subst. apply keyword_object_sound; reflexivity.
Qed.

Lemma regexp_sound (r : value) :
  regexp h (VObj o [("regexp", c)]) = Resolved r -> sound r.
Proof.
  intros H. unfold regexp in H. last_callback H.
  inversion H; subst. apply keyword_object_sound; reflexivity.
Qed.

Lemma geoBoundingBox_sound (r : value) :
  geoBoundingBox h (VObj o [("geoBoundingBox", c)]) = Resolved r -> sound r.
Proof.
  intros H. unfold geoBoundingBox in H. last_callback H.
  inversion H; subst. apply keyword_object_sound; reflexivity.
Qed.

Lemma geoDistance_sound (r : value) :
  geoDistance h (VObj o [("geoDistance", c)]) = Resolved r -> sound r.
Proof.
  intros H. unfold geoDistance in H.
  last_callback H; inversion H; subst; apply keyword_object_sound; reflexivity.
Qed.

Lemma geoDistanceRange_sound (r : value) :
  geoDistanceRange h (VObj o [("geoDistanceRange", c)]) = Resolved r -> sound r.
Proof.
  intros H. unfold geoDistanceRange in H.
  last_callback H; inversion H; subst; apply keyword_object_sound; reflexivity.
Qed.

Lemma geoPolygon_sound (r : value) :
  geoPolygon h (VObj o [("geoPolygon", c)]) = Resolved r -> sound r.
Proof.
  intros H. unfold geoPolygon in H.
  last_callback H; inversion H; subst; apply keyword_object_sound; reflexivity.
Qed.

End LeafShapes.

Lemma all_sound_Forall (l : list value) :
  (fix all (l : list value) : Prop :=
     match l with
     | [] => True
     | x :: r => sound x /\ all r
     end) l <-> Forall sound l.
Proof.
  induction l as [|x l IH]; split; intros H.
  - constructor.
  - exact I.
  - destruct H as [Hx Hl]. constructor; [exact Hx|apply IH; exact Hl].
  - inversion H; subst. split; [assumption|apply IH; assumption].
Qed.

(** An [and] or [or] node of the standardizer. *)
Lemma sound_node (o : origin) (operand : string) (c : value) (rest : list (string * value)) :
  String.eqb operand "and" || String.eqb operand "or" = true ->
  sound (VObj o ((operand, c) :: rest)) <->
  o = Fresh /\ exists items co flag,
    c = VArr co items /\ rest = [("_isLeaf", flag)] /\ flag_ok flag /\ Forall sound items.
Proof.
  intros Hop. cbn [sound]. rewrite Hop. split.
  - intros (Ho & (flag & Hrest & Hflag) & Hc). split; [exact Ho|].
    destruct c as [| | | | |co items|]; try contradiction.
    exists items, co, flag. repeat split; try assumption. apply all_sound_Forall. exact Hc.
  - intros (Ho & items & co & flag & -> & Hrest & Hflag & Hitems).
    split; [exact Ho|]. split; [exists flag; split; assumption|].
    apply all_sound_Forall. exact Hitems.
Qed.

Lemma sound_other (o : origin) (k : string) (c : value) (rest : list (string * value)) :
  String.eqb k "and" || String.eqb k "or" = false ->
  sound (VObj o ((k, c) :: rest)) <-> lookup "and" ((k, c) :: rest) = VUndef.
Proof.
  intros Hop. cbn [sound]. rewrite Hop. reflexivity.
Qed.

Lemma bitand_flags (h : host) (a b : value) :
  flag_ok a -> flag_ok b ->
  bitand h a b = VNum (if truthy a && truthy b then 1 else 0)%float.
Proof.
  intros [-> | [-> | [-> | ->]]] [-> | [-> | [-> | ->]]]; reflexivity.
Qed.

Lemma bitand_flag_ok (h : host) (a b : value) :
  flag_ok a -> flag_ok b -> flag_ok (bitand h a b).
Proof.
  intros Ha Hb. rewrite (bitand_flags h a b Ha Hb).
  destruct (truthy a && truthy b); unfold flag_ok; auto.
Qed.

Lemma fresh_log_app (w1 w2 : log) :
  fresh_log w1 -> fresh_log w2 -> fresh_log (w1 ++ w2)%list.
Proof.
  unfold fresh_log. intros H1 H2. apply Forall_app. split; assumption.
Qed.

Lemma good_pure (p : outcome value) :
  (forall x, p = Resolved x -> sound x) -> good (pure_ p).
Proof.
  intros Hp. split; [exact Hp|constructor].
Qed.

Lemma good_failure (e : exn) (w : log) :
  fresh_log w -> good (Rejected e, w) /\ good (Thrown e, w).
Proof.
  intros Hw. split; (split; [intros x Hx; discriminate Hx|exact Hw]).
Qed.

Lemma thenW_good {A : Type} (p : outcome A * log) (f : A -> run) :
  fresh_log (snd p) ->
  (forall a, fst p = Resolved a -> good (f a)) ->
  good (thenW p f).
Proof.
  intros Hw Hf. unfold thenW. destruct (fst p) as [a|e|e] eqn:Ep.
  - destruct (Hf a eq_refl) as [Hs Hl]. split.
    + cbn [fst]. intros x Hx. apply Hs. destruct (fst (f a)); congruence.
    + cbn [snd]. apply fresh_log_app; assumption.
  - apply good_failure. exact Hw.
  - apply good_failure. exact Hw.
Qed.

Lemma sound_spread (v : value) : sound v -> spread v = [v].
Proof.
  destruct v; try reflexivity. intros [].
Qed.

Section Combinators.

Variable h : host.
Variable self : value -> run.
Hypothesis self_good : forall c, good (self c).

Lemma operand_cases (operand : string) :
  String.eqb operand "and" || String.eqb operand "or" = true ->
  operand = "and" \/ operand = "or".
Proof.
  intros Hop. apply orb_true_iff in Hop.
  destruct Hop as [Ho|Ho]; apply String.eqb_eq in Ho; auto.
Qed.

Lemma reducer_good (operand : string) (result : flat) (sub : value) :
  String.eqb operand "and" || String.eqb operand "or" = true ->
  result_inv result -> sound sub ->
  fresh_log (snd (reducer h operand result sub))
  /\ forall result', fst (reducer h operand result sub) = Resolved result' ->
       result_inv result'.
Proof.
  intros Hop (Hal & Hcal & Hch & Hflag) Hsub. unfold reducer, result_inv.
  rewrite Hal, Hcal.
  assert (Hpush : Forall sound (children result ++ [sub])%list)
    by (apply Forall_app; split; [exact Hch|repeat constructor; exact Hsub]).
  destruct sub as [| | | | |so sitems|so [|[k c] rest]]; cbn [keys];
    try (split; [constructor|intros result' H; discriminate H]).
  - cbn [hd_error is_key orb fst snd]. split; [repeat constructor|].
    intros result' H. inversion H; subst; cbn [children isLeaf allocated children_allocated]. auto.
  - cbn [hd_error is_key orb fst snd]. split; [repeat constructor|].
    intros result' H. inversion H; subst; cbn [children isLeaf allocated children_allocated]. auto.
  - assert (Hkey : forall k, k = "and" \/ k = "or" ->
        is_key (hd_error (map index_key (seq 0 (String.length s)))) k = false).
    { intros k Hk. destruct s; [reflexivity|].
      destruct Hk as [-> | ->]; reflexivity. }
    rewrite (Hkey operand (operand_cases operand Hop)).
    rewrite (Hkey "and"), (Hkey "or") by auto.
    cbn [orb fst snd]. split; [repeat constructor|].
    intros result' H. inversion H; subst; cbn [children isLeaf allocated children_allocated]. auto.
  - contradiction.
  - cbn [map hd_error is_key orb fst snd]. split; [repeat constructor|].
    intros result' H. inversion H; subst; cbn [children isLeaf allocated children_allocated]. auto.
  - cbn [map fst hd_error is_key].
    destruct (String.eqb k operand) eqn:Ek.
    + apply String.eqb_eq in Ek. subst k.
      apply (sound_node so operand c rest Hop) in Hsub.
      destruct Hsub as (-> & items & co & flag & -> & -> & Hf & Hitems).
      cbn [fst snd]. split; [repeat constructor|].
      intros result' H. inversion H; subst; cbn [children isLeaf allocated children_allocated].
      destruct (operand_cases operand Hop) as [-> | ->];
        cbn [get_prop lookup spread String.eqb Ascii.eqb Bool.eqb];
        refine (conj eq_refl (conj eq_refl (conj _ _)));
        [apply Forall_app; split; assumption|apply bitand_flag_ok; assumption
        |apply Forall_app; split; assumption|apply bitand_flag_ok; assumption].
    + destruct (String.eqb k "and" || String.eqb k "or");
        cbn [fst snd]; (split; [repeat constructor|]);
        intros result' H; inversion H; subst; cbn [children isLeaf allocated children_allocated].
      * refine (conj eq_refl (conj eq_refl (conj Hpush _))). right; left; reflexivity.
      * exact (conj eq_refl (conj eq_refl (conj Hpush Hflag))).
Qed.

Lemma reduce_good (operand : string) (subs : list (outcome value)) :
  String.eqb operand "and" || String.eqb operand "or" = true ->
  (forall sub, In (Resolved sub) subs -> sound sub) ->
  forall result,
    result_inv result ->
    fresh_log (snd (reduce h operand subs result))
    /\ forall result', fst (reduce h operand subs result) = Resolved result' ->
         result_inv result'.
Proof.
  intros Hop. induction subs as [|[sub|e|e] subs IH]; intros Hsubs result Hinv;
    cbn [reduce].
  - split; [constructor|]. intros result' H. inversion H; subst. exact Hinv.
  - destruct (reducer_good operand result sub Hop Hinv
                (Hsubs sub (or_introl eq_refl))) as [Hw Hres].
    destruct (reducer h operand result sub) as [[result1|e|e] w]; cbn [fst snd] in *.
    + pose proof (Hres result1 eq_refl) as Hinv1.
      destruct (IH (fun x Hx => Hsubs x (or_intror Hx)) result1 Hinv1) as [Hw2 Hres2].
      split; [apply fresh_log_app; assumption|exact Hres2].
    + split; [exact Hw|intros result' H; discriminate H].
    + split; [exact Hw|intros result' H; discriminate H].
  - split; [constructor|intros result' H; discriminate H].
  - split; [constructor|intros result' H; discriminate H].
Qed.

Lemma calls_good (items : list value) :
  fresh_log (snd (calls self items))
  /\ forall subs, fst (calls self items) = Resolved subs ->
       forall sub, In (Resolved sub) subs -> sound sub.
Proof.
  induction items as [|f items [IHw IHs]]; cbn [calls].
  - split; [constructor|]. intros subs H. inversion H; subst. intros sub [].
  - destruct (self_good f) as [Hs Hw].
    destruct (fst (self f)) as [x|e|e] eqn:Ef; cbn [fst snd].
    + split; [apply fresh_log_app; assumption|].
      destruct (fst (calls self items)) as [l|e|e]; intros subs H; inversion H; subst.
      intros sub [Hsub|Hsub]; [inversion Hsub; subst; apply Hs; reflexivity|].
      apply (IHs l eq_refl). exact Hsub.
    + split; [apply fresh_log_app; assumption|].
      destruct (fst (calls self items)) as [l|e'|e']; intros subs H; inversion H; subst.
      intros sub [Hsub|Hsub]; [discriminate Hsub|].
      apply (IHs l eq_refl). exact Hsub.
    + split; [exact Hw|intros subs H; discriminate H].
Qed.

Lemma finish_sound (operand : string) (result : flat) :
  String.eqb operand "and" || String.eqb operand "or" = true ->
  result_inv result ->
  sound (finish operand result).
Proof.
  intros Hop (Hal & Hcal & Hch & Hflag). unfold finish. rewrite Hal.
  destruct (children result) as [|x [|y l]] eqn:E.
  - apply (sound_node Fresh operand _ _ Hop). split; [reflexivity|].
    exists [], (children_allocated result), (isLeaf result). repeat split; auto.
  - inversion Hch; assumption.
  - apply (sound_node Fresh operand _ _ Hop). split; [reflexivity|].
    exists (x :: y :: l), (children_allocated result), (isLeaf result). repeat split; auto.
Qed.

Lemma new_result_inv : result_inv new_result.
Proof.
  repeat split; [constructor|left; reflexivity].
Qed.

Lemma _standardizeFilterArray_good (filter : value) (operand : string) :
  String.eqb operand "and" || String.eqb operand "or" = true ->
  good (_standardizeFilterArray h self filter operand).
Proof.
  intros Hop. unfold _standardizeFilterArray.
  destruct (keys (get_prop filter operand)) as [ks|e|e];
    try (apply good_failure; constructor).
  destruct (bad_item (elements (get_prop filter operand))) as [[|]|e|e];
    try (apply good_failure; constructor).
  destruct (get_prop filter operand) as [| | | | |o items|o fields];
    try (apply good_failure; constructor).
  destruct (calls_good items) as [Hw Hsubs].
  destruct (fst (calls self items)) as [subs|e|e];
    try (apply good_failure; exact Hw).
  destruct (reduce_good operand subs Hop (Hsubs subs eq_refl) new_result new_result_inv)
    as [Hw2 Hres].
  split; cbn [fst snd].
  - intros x Hx. destruct (fst (reduce h operand subs _)) as [result|e|e];
      inversion Hx; subst.
    apply finish_sound; [exact Hop|]. apply Hres. reflexivity.
  - apply fresh_log_app; assumption.
Qed.

Lemma and_good (filter : value) (keyword : option string) : good (and_ h self filter keyword).
Proof.
  unfold and_. apply thenW_good; [constructor|].
  intros _ _. apply _standardizeFilterArray_good. reflexivity.
Qed.

Lemma or_good (filter : value) (keyword : option string) : good (or_ h self filter keyword).
Proof.
  unfold or_. apply thenW_good; [constructor|].
  intros _ _. apply _standardizeFilterArray_good. reflexivity.
Qed.

Lemma not_good (filter : value) : good (not_ self filter).
Proof.
  unfold not_. apply thenW_good.
  - apply thenW_good; [constructor|]. intros _ _. apply self_good.
  - intros result _. apply good_pure. intros x Hx. inversion Hx; subst.
    apply keyword_object_sound; reflexivity.
Qed.

Lemma clause_good (call : value -> run) (operand : string) (attribute : value) :
  (forall f, good (call f)) -> good (clause call operand attribute).
Proof.
  intros Hcall. unfold clause. destruct (truthy attribute); [apply Hcall|].
  apply good_pure. intros x Hx. inversion Hx; subst. exact I.
Qed.

Lemma add_clause_good (standardized cl : value) :
  sound standardized -> sound cl -> good (add_clause h standardized cl).
Proof.
  intros Hst Hcl. unfold add_clause.
  destruct standardized as [| | | | |o items|o [|[k c] rest]];
    try (apply good_failure; constructor).
  destruct (String.eqb k "and") eqn:Ek.
  - apply String.eqb_eq in Ek. subst k.
    apply (sound_node o "and" c rest eq_refl) in Hst.
    destruct Hst as (-> & items & co & flag & -> & -> & Hf & Hitems).
    cbn [lookup String.eqb Ascii.eqb Bool.eqb assign]. split; cbn [fst snd].
    + intros x Hx. inversion Hx; subst.
      apply (sound_node Fresh "and" _ _ eq_refl). split; [reflexivity|].
      exists (items ++ spread cl)%list, Fresh, (VBool false).
      repeat split; [right; left; reflexivity|].
      apply Forall_app. split; [exact Hitems|].
      rewrite (sound_spread cl Hcl). repeat constructor. exact Hcl.
    + repeat constructor.
  - assert (Hno : lookup "and" ((k, c) :: rest) = VUndef).
    { destruct (String.eqb k "or") eqn:Eo.
      - apply String.eqb_eq in Eo. subst k.
        apply (sound_node o "or" c rest eq_refl) in Hst.
        destruct Hst as (_ & items & co & flag & _ & -> & _ & _). reflexivity.
      - apply (sound_other o k c rest) in Hst; [exact Hst|]. rewrite Ek, Eo. reflexivity. }
    rewrite Hno. apply good_failure. constructor.
Qed.

Lemma bool_last_sound (standardized x : value) :
  sound standardized -> bool_last standardized = Resolved x -> sound x.
Proof.
  intros Hst H. unfold bool_last, read in H.
  destruct (nullish standardized); [discriminate H|]. cbn [seq_] in H.
  destruct standardized as [| | | | |o items|o [|[k c] rest]]; try discriminate H.
  cbn [get_prop] in H.
  destruct (String.eqb k "and") eqn:Ek.
  - apply String.eqb_eq in Ek. subst k.
    pose proof Hst as Hnode. apply (sound_node o "and" c rest eq_refl) in Hnode.
    destruct Hnode as (-> & items & co & flag & -> & -> & Hf & Hitems).
    cbn [lookup String.eqb Ascii.eqb Bool.eqb length_is seq_] in H.
    destruct items as [|y [|z l]]; cbn [List.length Nat.eqb get_index nth] in H;
      inversion H; subst; try exact Hst.
    inversion Hitems; assumption.
  - assert (Hno : lookup "and" ((k, c) :: rest) = VUndef).
    { destruct (String.eqb k "or") eqn:Eo.
      - apply String.eqb_eq in Eo. subst k.
        apply (sound_node o "or" c rest eq_refl) in Hst.
        destruct Hst as (_ & items & co & flag & _ & -> & _ & _). reflexivity.
      - apply (sound_other o k c rest) in Hst; [exact Hst|]. rewrite Ek, Eo. reflexivity. }
    rewrite Hno in H. discriminate H.
Qed.

Lemma thenW_sound (p : run) (f : value -> run) :
  good p -> (forall a, sound a -> good (f a)) -> good (thenW p f).
Proof.
  intros [Hs Hw] Hf. apply thenW_good; [exact Hw|].
  intros a Ha. apply Hf. apply Hs. exact Ha.
Qed.

Lemma bool_good (filter : value) : good (bool_ h self filter).
Proof.
  assert (Hand : forall a, good (clause (fun f => and_ h self f None) "and" a))
    by (intros a; apply clause_good; intros f; apply and_good).
  assert (Hor : forall a, good (clause (fun f => or_ h self f None) "or" a))
    by (intros a; apply clause_good; intros f; apply or_good).
  assert (Hadd : forall standardized f cl,
            sound standardized -> sound cl ->
            good (if truthy f then add_clause h standardized cl
                  else pure_ (Resolved standardized))).
  { intros standardized f cl Hst Hcl. destruct (truthy f).
    - apply add_clause_good; assumption.
    - apply good_pure. intros x Hx. inversion Hx; subst. exact Hst. }
  assert (Hneg : forall f, sound (negated f))
    by (intros f; apply keyword_object_sound; reflexivity).
  unfold bool_. apply thenW_sound.
  - apply thenW_good; [constructor|]. intros fields _.
    destruct (existsb _ fields); [|apply Hand].
    apply good_pure. intros x Hx. discriminate Hx.
  - intros f Hf.
    assert (Hst : sound (if truthy f then f
                         else VObj Fresh [("and", VArr Fresh []); ("_isLeaf", VBool true)])).
    { destruct (truthy f); [exact Hf|].
      apply (sound_node Fresh "and" _ _ eq_refl). split; [reflexivity|].
      exists [], Fresh, (VBool true). repeat split; auto. left. reflexivity. }
    cbv zeta. apply thenW_sound; [apply Hor|]. intros f1 Hf1.
    apply thenW_sound; [apply Hadd; [exact Hst|apply Hneg]|]. intros st1 Hst1.
    apply thenW_sound; [apply Hor|]. intros f2 Hf2.
    apply thenW_sound; [apply Hadd; assumption|]. intros st2 Hst2.
    apply thenW_sound; [apply Hand|]. intros f3 Hf3.
    apply thenW_sound; [apply Hadd; [exact Hst2|apply Hneg]|]. intros st3 Hst3.
    apply good_pure. intros x Hx. apply (bool_last_sound st3 x Hst3 Hx).
Qed.

End Combinators.

Lemma member_named_name (k : string) (m : member) :
  member_named k members = Some m -> k = name_of m.
Proof.
  unfold members. cbn [member_named].
  repeat match goal with
         | |- (if String.eqb k ?s then _ else _) = _ -> _ =>
             destruct (String.eqb k s) eqn:?E;
             [apply String.eqb_eq in E; intros H; inversion H; subst; reflexivity|clear E]
         end.
  discriminate.
Qed.

(** A value with a single key that names a member is an object with that
    key: the keys of arrays and strings are indices. *)
Lemma member_keyword_object (v : value) (k : string) (m : member) :
  keywords v = Resolved [k] -> member_named k members = Some m ->
  exists o c, v = VObj o [(k, c)].
Proof.
  unfold keywords. intros Hk Hm.
  destruct v as [| |b|x|s|o items|o fields]; cbn [truthy keys] in Hk; try discriminate Hk.
  - destruct b; discriminate Hk.
  - destruct (negb (x =? 0)%float && negb (is_nan x)); discriminate Hk.
  - destruct (negb (String.eqb s EmptyString)); [|discriminate Hk].
    destruct s as [|a [|b s]]; inversion Hk; subst. discriminate Hm.
  - destruct items as [|x [|y items]]; inversion Hk; subst. discriminate Hm.
  - destruct fields as [|[k' c] [|kv fields]]; inversion Hk; subst. eauto.
Qed.

Lemma standardize_body_good (h : host) (self : value -> run) (v : value) :
  host_sound h -> (forall c, good (self c)) -> good (standardize_body h self v).
Proof.
  intros Hhost Hself. unfold standardize_body.
  destruct (keywords v) as [[|k [|k2 ks]]|e|e] eqn:Hk;
    try (apply good_failure; constructor);
    try (apply good_pure; intros x Hx; inversion Hx; subst; exact I).
  destruct (member_named k members) as [m|] eqn:Hm.
  - destruct (member_keyword_object v k m Hk Hm) as (o & c & ->).
    apply member_named_name in Hm. subst k.
    destruct m; cbn [invoke name_of].
    + apply good_pure. apply exists_sound.
    + apply good_pure. apply ids_sound.
    + apply good_pure. apply missing_sound.
    + apply good_pure. apply range_sound.
    + apply good_pure. apply regexp_sound.
    + apply good_pure. apply equals_sound.
    + apply good_pure. apply in_sound.
    + apply good_pure. apply geoBoundingBox_sound.
    + apply good_pure. apply geoDistance_sound.
    + apply good_pure. apply geoDistanceRange_sound.
    + apply good_pure. apply geoPolygon_sound.
    + apply and_good. exact Hself.
    + apply or_good. exact Hself.
    + apply not_good. exact Hself.
    + apply bool_good. exact Hself.
    + apply good_failure. constructor.
    + apply good_failure. constructor.
    + apply good_failure. constructor.
  - destruct (inherited h k v) as [[r|e|e]|] eqn:Hi;
      try (apply good_failure; constructor).
    apply good_pure. intros x Hx. inversion Hx; subst. exact (Hhost k v x Hi).
Qed.

Lemma standardize_at_good (h : host) (n : nat) :
  host_sound h -> forall v, good (standardize_at h n v).
Proof.
  intros Hhost. induction n as [|n IH]; intros v.
  - apply good_failure. constructor.
  - cbn [standardize_at]. apply standardize_body_good; assumption.
Qed.

Lemma standardize_good (h : host) (v : value) : host_sound h -> good (standardize h v).
Proof.
  intros Hhost. apply standardize_at_good. exact Hhost.
Qed.

Lemma plain_host_sound : host_sound plain_host.
Proof.
  intros name filters r. cbn [inherited plain_host].
  destruct (String.eqb name "toString"); [intros H; inversion H; exact I|].
  destruct (String.eqb name "hasOwnProperty"); [intros H; inversion H; exact I|].
  discriminate.
Qed.

(** C9: [standardize] never mutates the filter it is given.  Whether the
    call succeeds or fails, every assignment it makes goes to an object
    that the standardizer allocated itself, never to an object of the
    caller, also where the result shares subtrees with the input (the
    filters that [exists], [equals], [range] and [regexp] return are the
    caller's own objects). *)
Theorem standardize_leaves_input_alone (h : host) (filters : value) :
  host_sound h ->
  caller_owned filters ->
  ~ In Input (snd (standardize h filters)).
Proof.
  intros Hhost _ Hin.
  destruct (standardize_good h filters Hhost) as [_ Hw].
  pose proof (proj1 (Forall_forall _ _) Hw Input Hin) as H. discriminate H.
Qed.

Lemma standardize_leaves_input_alone_witness :
  ~ In Input (snd (standardize plain_host
       (obj [("bool", obj [("must", arr [exists_filter "a"; exists_filter "d"]);
                           ("should", arr [exists_filter "b"])])]))).
Proof.
  apply (standardize_leaves_input_alone plain_host _ plain_host_sound).
  cbn. intuition reflexivity.
Defined.

(** ** Flattening of [and] and [or] *)

Lemma thenW_resolved_unit (f : unit -> run) :
  fst (thenW (pure_ (Resolved tt)) f)
  = match fst (f tt) with
    | Thrown e => Rejected e
    | x => x
    end.
Proof.
  reflexivity.
Qed.

Lemma bad_item_none (items : list value) :
  forallb filter_object items = true -> bad_item items = Resolved false.
Proof.
  induction items as [|e items IH]; cbn [forallb bad_item]; [reflexivity|].
  intros H. apply andb_true_iff in H. destruct H as [He Hitems].
  destruct e as [| | | | |o l|o [|kv fields]]; try discriminate He.
  cbn. apply IH. exact Hitems.
Qed.

Lemma calls_resolved (self : value -> run) (items subs : list value) :
  Forall2 (fun c s => fst (self c) = Resolved s) items subs ->
  fst (calls self items) = Resolved (map Resolved subs).
Proof.
  induction 1 as [|c s items subs Hc _ IH]; cbn [calls map]; [reflexivity|].
  rewrite Hc. cbn [fst]. rewrite IH. reflexivity.
Qed.

Lemma top_key_hd (sub : value) (ks : list string) :
  keys sub = Resolved ks -> hd_error ks = top_key sub.
Proof.
  intros H. unfold top_key. rewrite H. destruct ks; reflexivity.
Qed.

Lemma keys_resolve (sub : value) : nullish sub = false -> exists ks, keys sub = Resolved ks.
Proof.
  destruct sub; cbn; intros H; try discriminate H; eauto.
Qed.

Section Flatten.

Variable h : host.
Variable operand : string.
Hypothesis combinator : String.eqb operand "and" || String.eqb operand "or" = true.

(** One call of the reducer is one step of [flatten]. *)
Lemma reducer_flatten_step (result : flat) (sub : value) :
  result_inv result -> sound sub -> nullish sub = false ->
  exists result',
    fst (reducer h operand result sub) = Resolved result'
    /\ (children result', truthy (isLeaf result'))
       = flatten_step operand (children result, truthy (isLeaf result)) sub.
Proof.
  intros (Hal & Hcal & Hch & Hflag) Hsub Hnn.
  destruct (keys_resolve sub Hnn) as [ks Hks].
  unfold reducer, flatten_step. rewrite Hks, (top_key_hd sub ks Hks). cbn [fst snd].
  destruct (is_key (top_key sub) operand) eqn:Eop.
  - eexists. split; [reflexivity|]. cbn [children isLeaf fst].
    (* the sub-result is a node of the operand *)
    unfold top_key in Eop. rewrite Hks in Eop.
    destruct sub as [| | | | |so sitems|so [|[k c] rest]]; try discriminate Hnn;
      try contradiction;
      try (cbn in Hks; inversion Hks; subst; discriminate Eop).
    + (* a string: its first key is an index *)
      cbn [keys] in Hks. inversion Hks; subst.
      destruct s; [discriminate Eop|].
      destruct (operand_cases operand combinator) as [-> | ->]; discriminate Eop.
    + cbn [keys map fst] in Hks. inversion Hks; subst. cbn [is_key] in Eop.
      apply String.eqb_eq in Eop. subst k.
      apply (sound_node so operand c rest combinator) in Hsub.
      destruct Hsub as (-> & items & co & flag & -> & -> & Hf & Hitems).
      unfold leaf_flag.
      destruct (operand_cases operand combinator) as [-> | ->];
        cbn [get_prop lookup spread items_of String.eqb Ascii.eqb Bool.eqb];
        rewrite (bitand_flags h _ _ Hflag Hf);
        destruct (truthy (isLeaf result) && truthy flag) eqn:E; rewrite ?E; reflexivity.
  - destruct (is_key (top_key sub) "and" || is_key (top_key sub) "or");
      eexists; (split; [reflexivity|reflexivity]).
Qed.

Lemma reduce_flatten (subs : list value) :
  Forall sound subs -> Forall (fun s => nullish s = false) subs ->
  forall result, result_inv result ->
  exists result',
    fst (reduce h operand (map Resolved subs) result) = Resolved result'
    /\ result_inv result'
    /\ (children result', truthy (isLeaf result'))
       = fold_left (flatten_step operand) subs (children result, truthy (isLeaf result)).
Proof.
  induction subs as [|sub subs IH]; intros Hs Hn result Hinv; cbn [map reduce fold_left].
  - exists result. split; [reflexivity|split; [exact Hinv|reflexivity]].
  - inversion Hs; subst. inversion Hn; subst.
    destruct (reducer_flatten_step result sub Hinv H1 H3) as (result1 & Hr & Hstep).
    pose proof (reducer_good h operand result sub combinator Hinv H1) as [_ Hinv1].
    specialize (Hinv1 result1 Hr).
    destruct (reducer h operand result sub) as [r w]. cbn [fst] in Hr. subst r.
    destruct (IH H2 H4 result1 Hinv1) as (result' & Hred & Hinv' & Hfold).
    exists result'. cbn [fst]. rewrite <- Hstep.
    split; [exact Hred|split; [exact Hinv'|exact Hfold]].
Qed.

End Flatten.

Lemma standardize_array_children (h : host) (operand : string) (o1 o2 : origin)
  (items subs : list value) :
  host_sound h ->
  operand = "and" \/ operand = "or" ->
  items <> [] ->
  forallb filter_object items = true ->
  Forall (fun s => nullish s = false) subs ->
  Forall2 (fun c s => fst (standardize h c) = Resolved s) items subs ->
  exists result,
    fst (standardize h (VObj o1 [(operand, VArr o2 items)])) = Resolved (finish operand result)
    /\ result_inv result
    /\ (children result, truthy (isLeaf result)) = flatten operand subs.
Proof.
  intros Hhost Hop Hne Hobjs Hnn Hsubs.
  assert (Hcomb : String.eqb operand "and" || String.eqb operand "or" = true)
    by (destruct Hop as [-> | ->]; reflexivity).
  assert (Hsound : Forall sound subs).
  { clear - Hsubs Hhost. induction Hsubs as [|c s items' subs' Hc _ IH]; constructor.
    - exact (proj1 (standardize_good h c Hhost) s Hc).
    - exact IH. }
  destruct (reduce_flatten h operand Hcomb subs Hsound Hnn new_result new_result_inv)
    as (result & Hred & Hinv & Hfold).
  exists result. split; [|split; [exact Hinv|exact Hfold]].
  assert (Hsfa : fst (_standardizeFilterArray h (standardize h)
                        (VObj o1 [(operand, VArr o2 items)]) operand)
                 = Resolved (finish operand result)).
  { unfold _standardizeFilterArray. cbn [get_prop lookup]. rewrite String.eqb_refl.
    cbn [keys elements]. rewrite (bad_item_none items Hobjs).
    rewrite (calls_resolved (standardize h) items subs Hsubs).
    cbn [fst]. rewrite Hred. reflexivity. }
  destruct items as [|c items]; [congruence|].
  destruct Hop as [-> | ->].
  - rewrite (standardize_keyword h o1 "and" _ m_and eq_refl). cbn [invoke]. unfold and_.
    cbn [or_default mustBeNonEmptyArray read nullish get_prop lookup String.eqb Ascii.eqb
         Bool.eqb seq_].
    rewrite thenW_resolved_unit. rewrite Hsfa. reflexivity.
  - rewrite (standardize_keyword h o1 "or" _ m_or eq_refl). cbn [invoke]. unfold or_.
    cbn [or_default mustBeNonEmptyArray read nullish get_prop lookup String.eqb Ascii.eqb
         Bool.eqb seq_].
    rewrite thenW_resolved_unit. rewrite Hsfa. reflexivity.
Qed.

(** Where the elements of the accumulator come from: the children of a
    sub-result that is a node of the operand, or a sub-result that is not. *)
Lemma flatten_element (operand : string) (x : value) (subs : list value)
  (st : list value * bool) :
  In x (fst (fold_left (flatten_step operand) subs st)) ->
  In x (fst st)
  \/ exists s, In s subs
       /\ ((is_key (top_key s) operand = true /\ In x (items_of (get_prop s operand)))
           \/ (is_key (top_key s) operand = false /\ x = s)).
Proof.
  revert st. induction subs as [|sub subs IH]; intros st Hin; cbn [fold_left] in Hin.
  - left. exact Hin.
  - destruct (IH _ Hin) as [Hst | (s & Hs & Hfrom)].
    + unfold flatten_step in Hst.
      destruct (is_key (top_key sub) operand) eqn:Eop; cbn [fst] in Hst;
        apply in_app_or in Hst; destruct Hst as [Hst | Hst].
      * left. exact Hst.
      * right. exists sub. split; [left; reflexivity|]. left. split; [exact Eop|exact Hst].
      * left. exact Hst.
      * right. exists sub. split; [left; reflexivity|]. right.
        destruct Hst as [<- | []]. split; [exact Eop|reflexivity].
    + right. exists s. split; [right; exact Hs|exact Hfrom].
Qed.

(** A node of the operand in the accumulator was a child of a sub-result
    that is a node of the operand. *)
Lemma flatten_nested_child (operand : string) (x : value) (subs : list value) :
  In x (fst (flatten operand subs)) ->
  is_key (top_key x) operand = true ->
  exists s, In s subs /\ nests operand s = true.
Proof.
  intros Hin Hx. destruct (flatten_element operand x subs _ Hin) as [[] | (s & Hs & Hfrom)].
  exists s. split; [exact Hs|].
  destruct Hfrom as [[Hop Hchild] | [Hop ->]]; [|congruence].
  unfold nests. rewrite Hop. cbn [andb].
  apply existsb_exists. exists x. split; [exact Hchild|exact Hx].
Qed.

(** C1, amended: for an [and] (resp. [or]) filter over a non-empty array of
    non-array, non-empty objects, when every child standardizes to a value
    (other than [undefined] and [null]), standardization folds the results
    with the flattening algorithm of the specification: a result whose top
    key is the operand has its children spliced into the accumulator and its
    leaf flag ANDed in, any other is appended as it is and forces the flag
    to false when it is an [and] or an [or]; a single element is returned
    unwrapped, otherwise the operand node with a leaf flag of that truth
    value.  The fold splices one level only: what it returns is an operand
    node over an operand node only when the result of one of the children
    already was one.  [{and: [{and: [a, b]}, c]}] gives one [and] node with
    the three children and, for leaf flag, the number 1 that [&=] leaves,
    which is truthy. *)
Theorem and_or_flatten (h : host) (operand : string) (o1 o2 : origin)
  (items subs : list value) :
  (host_sound h ->
   operand = "and" \/ operand = "or" ->
   items <> [] ->
   forallb filter_object items = true ->
   Forall (fun s => nullish s = false) subs ->
   flatten_claim h operand o1 o2 items subs)
  /\ (host_sound h ->
      operand = "and" \/ operand = "or" ->
      items <> [] ->
      forallb filter_object items = true ->
      Forall (fun s => nullish s = false) subs ->
      Forall2 (fun c s => fst (standardize h c) = Resolved s) items subs ->
      forall r,
        fst (standardize h (VObj o1 [(operand, VArr o2 items)])) = Resolved r ->
        nests operand r = true ->
        exists s, In s subs /\ nests operand s = true)
  /\ fst (standardize h
            (obj [("and", arr [obj [("and", arr [exists_filter "a"; exists_filter "b"])];
                               exists_filter "c"])]))
     = Resolved (VObj Fresh [("and", VArr Fresh [exists_filter "a"; exists_filter "b";
                                                  exists_filter "c"]);
                             ("_isLeaf", VNum 1)])
  /\ leaf_flag (VObj Fresh [("and", VArr Fresh [exists_filter "a"; exists_filter "b";
                                                exists_filter "c"]);
                            ("_isLeaf", VNum 1)]) = true.
Proof.
  split; [|split; [|split; vm_compute; reflexivity]].
  - intros Hhost Hop Hne Hobjs Hnn Hsubs.
    destruct (standardize_array_children h operand o1 o2 items subs
                Hhost Hop Hne Hobjs Hnn Hsubs)
      as (result & Hr & (Hal & Hcal & _ & _) & Hfold).
    exists (finish operand result). split; [exact Hr|].
    unfold flattened, finish. rewrite <- Hfold, Hal, Hcal. cbn [fst snd].
    destruct (children result) as [|x [|y l]].
    + exists (isLeaf result). split; reflexivity.
    + reflexivity.
    + exists (isLeaf result). split; reflexivity.
  - intros Hhost Hop Hne Hobjs Hnn Hsubs r Hr Hnests.
    destruct (standardize_array_children h operand o1 o2 items subs
                Hhost Hop Hne Hobjs Hnn Hsubs)
      as (result & Hr' & _ & Hfold).
    rewrite Hr' in Hr. injection Hr as <-.
    assert (Hchildren : children result = fst (flatten operand subs))
      by (rewrite <- Hfold; reflexivity).
    assert (Hchild : exists x, In x (children result) /\ is_key (top_key x) operand = true).
    { unfold finish in Hnests.
      destruct (children result) as [|x [|y l]] eqn:Ech.
      - unfold nests in Hnests. cbn [get_prop lookup] in Hnests.
        rewrite String.eqb_refl in Hnests. cbn [items_of existsb] in Hnests.
        rewrite andb_false_r in Hnests. discriminate Hnests.
      - exists x. split; [left; reflexivity|].
        unfold nests in Hnests. apply andb_true_iff in Hnests. exact (proj1 Hnests).
      - unfold nests in Hnests. cbn [get_prop lookup] in Hnests.
        rewrite String.eqb_refl in Hnests. cbn [items_of] in Hnests.
        apply andb_true_iff in Hnests. destruct Hnests as [_ Hex].
        apply existsb_exists in Hex. exact Hex. }
    destruct Hchild as (x & Hx & Hop').
    rewrite Hchildren in Hx.
    exact (flatten_nested_child operand x subs Hx Hop').
Qed.

Lemma and_or_flatten_witness :
  exists r,
    fst (standardize plain_host
           (obj [("and", arr [obj [("and", arr [exists_filter "a"; exists_filter "b"])];
                              exists_filter "c"])])) = Resolved r
    /\ flattened "and"
         [VObj Fresh [("and", VArr Fresh [exists_filter "a"; exists_filter "b"]);
                      ("_isLeaf", VBool true)];
          exists_filter "c"] r.
Proof.
  apply (proj1 (and_or_flatten plain_host "and" Input Input
                  [obj [("and", arr [exists_filter "a"; exists_filter "b"])];
                   exists_filter "c"]
                  [VObj Fresh [("and", VArr Fresh [exists_filter "a"; exists_filter "b"]);
                               ("_isLeaf", VBool true)];
                   exists_filter "c"])).
  - exact plain_host_sound.
  - left. reflexivity.
  - discriminate.
  - reflexivity.
  - repeat constructor.
  - repeat constructor.
Defined.

(** C1 as it is stated fails in three places.  On [{and: [{}]}] the empty
    filter standardizes to the empty mapping, yet the [and] over it is
    rejected, because [and] takes non-empty objects only.  On
    [{and: [{bool: {must: [a, b], should: [{and: [x, y]}]}}, c]}] the
    children standardize successfully and the result is
    [{and: [a, b, {and: [x, y]}, c]}], an [and] nested in an [and]: [bool]
    appends what its [should] clause standardized to as one conjunct of the
    [and] node of its [must] clause, and the fold splices that node one
    level only.  And the leaf flag of the example of the specification is
    the number 1, not [true]. *)
Lemma and_or_claim_fails :
  ~ flatten_claim plain_host "and" Input Input [obj []] [VObj Fresh []]
  /\ ~ never_nests plain_host "and" Input Input
         [obj [("bool",
                obj [("must", arr [exists_filter "a"; exists_filter "b"]);
                     ("should", arr [obj [("and", arr [exists_filter "x";
                                                        exists_filter "y"])]])])];
          exists_filter "c"]
  /\ fst (standardize plain_host
            (obj [("and",
                   arr [obj [("bool",
                              obj [("must", arr [exists_filter "a"; exists_filter "b"]);
                                   ("should", arr [obj [("and", arr [exists_filter "x";
                                                                      exists_filter "y"])]])])];
                        exists_filter "c"])]))
     = Resolved (node "and" [exists_filter "a"; exists_filter "b";
                             node "and" [exists_filter "x"; exists_filter "y"] (VBool true);
                             exists_filter "c"] (VNum 0))
  /\ fst (standardize plain_host
            (obj [("and", arr [obj [("and", arr [exists_filter "a"; exists_filter "b"])];
                               exists_filter "c"])]))
     <> Resolved (node "and" [exists_filter "a"; exists_filter "b"; exists_filter "c"]
                   (VBool true)).
Proof.
  split; [|split; [|split]].
  - intros H. destruct H as (r & Hr & _).
    + constructor; [reflexivity|constructor].
    + vm_compute in Hr. discriminate Hr.
  - intros H.
    assert (Hchildren : Forall (fun c => exists s, fst (standardize plain_host c) = Resolved s)
              [obj [("bool",
                     obj [("must", arr [exists_filter "a"; exists_filter "b"]);
                          ("should", arr [obj [("and", arr [exists_filter "x";
                                                             exists_filter "y"])]])])];
               exists_filter "c"])
      by (repeat constructor; eexists; vm_compute; reflexivity).
    specialize (H Hchildren _ eq_refl). vm_compute in H. discriminate H.
  - vm_compute. reflexivity.
  - vm_compute. discriminate.
Qed.

(** ** What the combinators do with the failure of a child *)

Lemma standardize_not (h : host) (o : origin) (child : value) :
  not_checks child = true ->
  fst (standardize h (VObj o [("not", child)]))
  = match fst (standardize h child) with
    | Resolved result => Resolved (VObj Fresh [("not", result)])
    | Rejected e | Thrown e => Rejected e
    end.
Proof.
  intros Hc. rewrite (standardize_keyword h o "not" _ m_not eq_refl). cbn [invoke].
  unfold not_. cbn [get_prop lookup String.eqb Ascii.eqb Bool.eqb].
  destruct child as [| | | | |oc items|oc [|[kwd c] [|kv rest]]]; try discriminate Hc.
  cbn [not_checks] in Hc.
  cbn [mustBeNonEmptyObject map fst then_ onlyOneFieldAttribute List.length Nat.ltb Nat.leb
       first_key hd].
  destruct (String.eqb kwd "and" || String.eqb kwd "or") eqn:Ek.
  - destruct c as [| | | | |co [|x items]|co fields]; try discriminate Hc.
    cbn [mustBeNonEmptyArray read nullish get_prop lookup seq_]. rewrite String.eqb_refl.
    cbn [pure_ thenW fst snd].
    destruct (fst (standardize h (VObj oc [(kwd, VArr co (x :: items))]))); reflexivity.
  - destruct c as [| | | | |co items|co [|kv fields]]; try discriminate Hc.
    cbn [get_prop lookup]. rewrite String.eqb_refl.
    cbn [mustBeNonEmptyObject then_ pure_ thenW fst snd].
    destruct (fst (standardize h (VObj oc [(kwd, VObj co (kv :: fields))]))); reflexivity.
Qed.

Lemma reducer_resolves (h : host) (operand : string) (result : flat) (sub : value) :
  nullish sub = false -> exists result', fst (reducer h operand result sub) = Resolved result'.
Proof.
  intros Hnn. destruct (keys_resolve sub Hnn) as [ks Hks]. unfold reducer. rewrite Hks.
  destruct (is_key (hd_error ks) operand);
    [|destruct (is_key (hd_error ks) "and" || is_key (hd_error ks) "or")];
    eexists; reflexivity.
Qed.

(** [Promise.reduce] rejects with the first rejection in array order. *)
Lemma reduce_first_rejection (h : host) (operand : string) (before : list value)
  (e : exn) (after : list (outcome value)) :
  Forall (fun s => nullish s = false) before ->
  forall result,
    fst (reduce h operand (map Resolved before ++ Rejected e :: after)%list result)
    = Rejected e.
Proof.
  induction 1 as [|sub before Hsub _ IH]; intros result; cbn [map app reduce].
  - reflexivity.
  - destruct (reducer_resolves h operand result sub Hsub) as [result' Hr].
    destruct (reducer h operand result sub) as [r w]. cbn [fst] in Hr. subst r.
    cbn [fst]. apply IH.
Qed.

Section Calls.

Variable self : value -> run.

Lemma calls_no_throw (items : list value) :
  Forall (fun c => forall e, fst (self c) <> Thrown e) items ->
  fst (calls self items) = Resolved (map (fun c => fst (self c)) items).
Proof.
  induction 1 as [|c items Hc _ IH]; cbn [calls map]; [reflexivity|].
  destruct (fst (self c)) as [x|e|e] eqn:Ec.
  - cbn [fst]. rewrite IH. reflexivity.
  - cbn [fst]. rewrite IH. reflexivity.
  - exfalso. exact (Hc e eq_refl).
Qed.

(** [map] ends with the first call that throws. *)
Lemma calls_first_throw (before : list value) (c : value) (after : list value) (e : exn) :
  Forall (fun x => forall e', fst (self x) <> Thrown e') before ->
  fst (self c) = Thrown e ->
  fst (calls self (before ++ c :: after)%list) = Thrown e.
Proof.
  induction 1 as [|x before Hx _ IH]; intros Hc; cbn [app calls].
  - rewrite Hc. reflexivity.
  - destruct (fst (self x)) as [y|e'|e'] eqn:Ex.
    + cbn [fst]. rewrite (IH Hc). reflexivity.
    + cbn [fst]. rewrite (IH Hc). reflexivity.
    + exfalso. exact (Hx e' eq_refl).
Qed.

End Calls.

Lemma standardize_combinator (h : host) (operand : string) (o1 o2 : origin) (x : value)
  (items : list value) :
  operand = "and" \/ operand = "or" ->
  fst (standardize h (VObj o1 [(operand, VArr o2 (x :: items))]))
  = match fst (_standardizeFilterArray h (standardize h)
                 (VObj o1 [(operand, VArr o2 (x :: items))]) operand) with
    | Thrown e => Rejected e
    | r => r
    end.
Proof.
  intros [-> | ->].
  - rewrite (standardize_keyword h o1 "and" _ m_and eq_refl). reflexivity.
  - rewrite (standardize_keyword h o1 "or" _ m_or eq_refl). reflexivity.
Qed.

Lemma array_children_first_rejection (h : host) (operand : string) (o1 o2 : origin)
  (before : list value) (c : value) (after : list value) (e : exn) :
  operand = "and" \/ operand = "or" ->
  forallb filter_object (before ++ c :: after) = true ->
  Forall (never_throws h) (before ++ c :: after) ->
  Forall (resolves h) before ->
  fst (standardize h c) = Rejected e ->
  fst (standardize h (VObj o1 [(operand, VArr o2 (before ++ c :: after))])) = Rejected e.
Proof.
  intros Hop Hobjs Hnt Hbefore Hc.
  assert (Hsplit : exists subs, Forall (fun s => nullish s = false) subs
            /\ map (fun x => fst (standardize h x)) before = map Resolved subs).
  { clear - Hbefore. induction Hbefore as [|x before (s & Hs & Hn) _ (subs & Hsubs & Hmap)].
    - exists []. split; [constructor|reflexivity].
    - exists (s :: subs). split; [constructor; assumption|].
      cbn [map]. rewrite Hs, Hmap. reflexivity. }
  destruct Hsplit as (subs & Hsubs & Hmap).
  assert (Hsfa : fst (_standardizeFilterArray h (standardize h)
                        (VObj o1 [(operand, VArr o2 (before ++ c :: after))]) operand)
                 = Rejected e).
  { unfold _standardizeFilterArray. cbn [get_prop lookup]. rewrite String.eqb_refl.
    cbn [keys elements]. rewrite (bad_item_none _ Hobjs).
    rewrite (calls_no_throw (standardize h) _ Hnt).
    rewrite map_app. cbn [map]. rewrite Hmap, Hc. cbn [fst].
    rewrite (reduce_first_rejection h operand subs e _ Hsubs). reflexivity. }
  destruct before as [|x before]; cbn [app] in *;
    rewrite (standardize_combinator h operand o1 o2 _ _ Hop), Hsfa; reflexivity.
Qed.

Lemma array_children_first_throw (h : host) (operand : string) (o1 o2 : origin)
  (before : list value) (c : value) (after : list value) (e : exn) :
  operand = "and" \/ operand = "or" ->
  forallb filter_object (before ++ c :: after) = true ->
  Forall (never_throws h) before ->
  fst (standardize h c) = Thrown e ->
  fst (standardize h (VObj o1 [(operand, VArr o2 (before ++ c :: after))])) = Rejected e.
Proof.
  intros Hop Hobjs Hnt Hc.
  assert (Hsfa : fst (_standardizeFilterArray h (standardize h)
                        (VObj o1 [(operand, VArr o2 (before ++ c :: after))]) operand)
                 = Thrown e).
  { unfold _standardizeFilterArray. cbn [get_prop lookup]. rewrite String.eqb_refl.
    cbn [keys elements]. rewrite (bad_item_none _ Hobjs).
    rewrite (calls_first_throw (standardize h) before c after e Hnt Hc). reflexivity. }
  destruct before as [|x before]; cbn [app] in *;
    rewrite (standardize_combinator h operand o1 o2 _ _ Hop), Hsfa; reflexivity.
Qed.

Lemma thenW_rejected {A B : Type} (p : outcome A * log) (f : A -> outcome B * log) (e : exn) :
  fst p = Rejected e -> fst (thenW p f) = Rejected e.
Proof.
  intros Hp. unfold thenW. rewrite Hp. reflexivity.
Qed.

Lemma thenW_callback {A B : Type} (p : outcome A * log) (f : A -> outcome B * log) (a : A) :
  fst p = Resolved a ->
  fst (thenW p f) = match fst (f a) with
                    | Thrown e => Rejected e
                    | x => x
                    end.
Proof.
  intros Hp. unfold thenW. rewrite Hp. reflexivity.
Qed.

Lemma clause_call (call : value -> run) (operand : string) (attribute : value) :
  truthy attribute = true ->
  clause call operand attribute = call (VObj Fresh [(operand, attribute)]).
Proof.
  intros Ht. unfold clause. rewrite Ht. reflexivity.
Qed.

(** ** Singletons *)

(** A [bool] with a single clause other than [must] returns the clause
    unwrapped: the standardized [should], or the negation of the
    standardized [must_not] or [should_not]. *)
Lemma bool_clause_unwrapped (h : host) (o1 o2 : origin) (attribute operand : string)
  (items f : value) :
  clause_operand attribute = Some operand ->
  String.eqb attribute "must" = false ->
  truthy items = true ->
  fst (standardize h (VObj Fresh [(operand, items)])) = Resolved f ->
  truthy f = true ->
  isArray f = false ->
  fst (standardize h (VObj o1 [("bool", VObj o2 [(attribute, items)])]))
  = Resolved (if String.eqb attribute "should" then f else negated f).
Proof.
  intros Hop Hmust Ht Hcall Hf Harr.
  rewrite (standardize_keyword h o1 "bool" _ m_bool eq_refl). cbn [invoke].
  unfold clause_operand in Hop. rewrite Hmust in Hop.
  destruct (String.eqb attribute "must_not") eqn:E2;
    [apply String.eqb_eq in E2; subst attribute; inversion Hop; subst operand|].
  { rewrite (standardize_keyword h Fresh "or" _ m_or eq_refl) in Hcall. cbn [invoke] in Hcall.
    unfold bool_, clause. cbn [get_prop lookup String.eqb Ascii.eqb Bool.eqb truthy].
    rewrite Ht.
    destruct (or_ h (standardize h) (VObj Fresh [("or", items)]) None) as [r w].
    cbn [fst] in Hcall. subst r.
    unfold thenW, pure_. cbn [fst snd mustBeNonEmptyObject existsb map mem negb orb
       String.eqb Ascii.eqb Bool.eqb truthy].
    rewrite Hf. reflexivity. }
  destruct (String.eqb attribute "should") eqn:E3;
    [apply String.eqb_eq in E3; subst attribute; inversion Hop; subst operand|].
  { rewrite (standardize_keyword h Fresh "or" _ m_or eq_refl) in Hcall. cbn [invoke] in Hcall.
    unfold bool_, clause. cbn [get_prop lookup String.eqb Ascii.eqb Bool.eqb truthy].
    rewrite Ht.
    destruct (or_ h (standardize h) (VObj Fresh [("or", items)]) None) as [r w].
    cbn [fst] in Hcall. subst r.
    unfold thenW, pure_. cbn [fst snd mustBeNonEmptyObject existsb map mem negb orb
       String.eqb Ascii.eqb Bool.eqb truthy].
    rewrite Hf. destruct f; try discriminate Harr; try discriminate Hf; reflexivity. }
  destruct (String.eqb attribute "should_not") eqn:E4;
    [apply String.eqb_eq in E4; subst attribute; inversion Hop; subst operand|discriminate Hop].
  rewrite (standardize_keyword h Fresh "and" _ m_and eq_refl) in Hcall. cbn [invoke] in Hcall.
  unfold bool_, clause. cbn [get_prop lookup String.eqb Ascii.eqb Bool.eqb truthy].
  rewrite Ht.
  destruct (and_ h (standardize h) (VObj Fresh [("and", items)]) None) as [r w].
  cbn [fst] in Hcall. subst r.
  unfold thenW, pure_. cbn [fst snd mustBeNonEmptyObject existsb map mem negb orb
     String.eqb Ascii.eqb Bool.eqb truthy].
  rewrite Hf. reflexivity.
Qed.

(** C7, amended: the [and] and [or] combinators return a single flattened
    child unwrapped, without the combinator wrapper, and so does a [bool]
    whose single clause is a [should], a [must_not] or a [should_not] (the
    last two negated); the [or] node that [ids] builds keeps its wrapper
    even over a single value.  In particular [{and: [{exists: {field:
    "a"}}]}] gives [{exists: {field: "a"}}]. *)
Theorem single_child_unwrapped (h : host) :
  (forall operand o1 o2 items subs x,
     host_sound h ->
     operand = "and" \/ operand = "or" ->
     items <> [] ->
     forallb filter_object items = true ->
     Forall (fun s => nullish s = false) subs ->
     Forall2 (fun c s => fst (standardize h c) = Resolved s) items subs ->
     fst (flatten operand subs) = [x] ->
     fst (standardize h (VObj o1 [(operand, VArr o2 items)])) = Resolved x)
  /\ (forall o1 o2 attribute operand items f,
        clause_operand attribute = Some operand ->
        String.eqb attribute "must" = false ->
        truthy items = true ->
        fst (standardize h (VObj Fresh [(operand, items)])) = Resolved f ->
        truthy f = true ->
        isArray f = false ->
        fst (standardize h (VObj o1 [("bool", VObj o2 [(attribute, items)])]))
        = Resolved (if String.eqb attribute "should" then f else negated f))
  /\ (forall o1 o2 o3 v,
        singleton_node (VObj Fresh [("or", VArr Fresh [VObj Fresh [("equals",
                                       VObj Fresh [("_id", VStr v)])]]);
                                    ("_isLeaf", VBool true)]) = true
        /\ fst (standardize h (VObj o1 [("ids", VObj o2 [("values", VArr o3 [VStr v])])]))
           = Resolved (VObj Fresh [("or", VArr Fresh [VObj Fresh [("equals",
                                            VObj Fresh [("_id", VStr v)])]]);
                                   ("_isLeaf", VBool true)]))
  /\ fst (standardize h (obj [("and", arr [exists_filter "a"])]))
     = Resolved (exists_filter "a").
Proof.
  split; [|split; [|split]].
  - intros operand o1 o2 items subs x Hhost Hop Hne Hobjs Hnn Hsubs Hone.
    destruct (standardize_array_children h operand o1 o2 items subs
                Hhost Hop Hne Hobjs Hnn Hsubs) as (result & Hr & _ & Hfold).
    rewrite Hr. unfold finish.
    rewrite <- Hfold in Hone. cbn [fst] in Hone. rewrite Hone. reflexivity.
  - intros o1 o2 attribute operand items f. apply bool_clause_unwrapped.
  - intros o1 o2 o3 v. split; [reflexivity|].
    exact (f_equal fst (standardize_ids_values h o1 o2 o3 v [])).
  - vm_compute. reflexivity.
Qed.

Lemma single_child_unwrapped_witness :
  fst (standardize plain_host (obj [("or", arr [exists_filter "a"])]))
  = Resolved (exists_filter "a").
Proof.
  apply (proj1 (single_child_unwrapped plain_host) "or" Input Input
           [exists_filter "a"] [exists_filter "a"] (exists_filter "a")).
  - exact plain_host_sound.
  - right. reflexivity.
  - discriminate.
  - reflexivity.
  - repeat constructor.
  - repeat constructor.
  - reflexivity.
Defined.

(** C7 as it is stated fails on [{ids: {values: ["a"]}}]: [ids] rewrites
    its values to an [or] node whatever their number, so an [or] over a
    single child is emitted. *)
Lemma ids_single_value_wrapped :
  ~ never_singleton plain_host (obj [("ids", obj [("values", arr [str "a"])])]).
Proof.
  intros H. specialize (H _ eq_refl). discriminate H.
Qed.

(** ** What a call can and cannot end with *)

Lemma then_thrown {A B : Type} (p : outcome A) (f : A -> outcome B) (e : exn) :
  then_ p f = Thrown e -> p = Thrown e.
Proof.
  unfold then_. destruct p as [a|e'|e']; try discriminate.
  - destruct (f a); discriminate.
  - intros H. inversion H. reflexivity.
Qed.

Lemma thenW_thrown {A B : Type} (p : outcome A * log) (f : A -> outcome B * log) (e : exn) :
  fst (thenW p f) = Thrown e -> fst p = Thrown e.
Proof.
  unfold thenW. destruct (fst p) as [a|e'|e']; cbn [fst]; try discriminate.
  - destruct (fst (f a)); discriminate.
  - intros H. inversion H. reflexivity.
Qed.

Lemma mustBeNonEmptyObject_settled (filter : value) (keyword : string) (e : exn) :
  mustBeNonEmptyObject filter keyword <> Thrown e.
Proof.
  unfold mustBeNonEmptyObject, reject.
  destruct filter as [| | | | | |o [|kv fields]]; discriminate.
Qed.

Lemma mustBeNonEmptyArray_settled (o : origin) (fields : list (string * value))
  (keyword field : string) (e : exn) :
  mustBeNonEmptyArray (VObj o fields) keyword field <> Thrown e.
Proof.
  unfold mustBeNonEmptyArray, read, reject. cbn [nullish seq_].
  destruct (get_prop (VObj o fields) field) as [| | | | |oa [|x items]|]; discriminate.
Qed.

(** Peels the chain of [then] off a call that is said to throw. *)
Ltac first_step H :=
  repeat first [apply then_thrown in H | apply thenW_thrown in H; cbn [pure_ fst] in H].

Lemma invoke_settled (h : host) (self : value -> run) (m : member) (o : origin)
  (fields : list (string * value)) (e : exn) :
  fst (invoke h self m (VObj o fields)) = Thrown e ->
  m = m_standardize \/ m = m_standardizeFilterArray \/ m = m_constructor.
Proof.
  intros H.
  destruct m; cbn [invoke pure_ fst] in H; auto; exfalso.
  - unfold exists_ in H. first_step H. exact (mustBeNonEmptyObject_settled _ _ _ H).
  - unfold ids in H. first_step H. exact (mustBeNonEmptyObject_settled _ _ _ H).
  - unfold missing, exists_ in H. first_step H. exact (mustBeNonEmptyObject_settled _ _ _ H).
  - unfold range in H. first_step H. exact (mustBeNonEmptyObject_settled _ _ _ H).
  - unfold regexp in H. first_step H. exact (mustBeNonEmptyObject_settled _ _ _ H).
  - unfold equals in H. first_step H. exact (mustBeNonEmptyObject_settled _ _ _ H).
  - unfold in_ in H. first_step H. exact (mustBeNonEmptyObject_settled _ _ _ H).
  - unfold geoBoundingBox in H. first_step H. exact (mustBeNonEmptyObject_settled _ _ _ H).
  - unfold geoDistance in H. first_step H. exact (mustBeNonEmptyObject_settled _ _ _ H).
  - unfold geoDistanceRange in H. first_step H. exact (mustBeNonEmptyObject_settled _ _ _ H).
  - unfold geoPolygon in H. first_step H. exact (mustBeNonEmptyObject_settled _ _ _ H).
  - unfold and_ in H. first_step H. exact (mustBeNonEmptyArray_settled _ _ _ _ _ H).
  - unfold or_ in H. first_step H. exact (mustBeNonEmptyArray_settled _ _ _ _ _ H).
  - unfold not_ in H. first_step H. exact (mustBeNonEmptyObject_settled _ _ _ H).
  - unfold bool_ in H. first_step H. exact (mustBeNonEmptyObject_settled _ _ _ H).
Qed.

(** X1: [standardize] reports every failure of a DSL keyword through the
    promise it returns.  A call throws synchronously only when the single
    key of the filter names a member of the instance that is not a keyword:
    the entry point, the private helper, the constructor, or a member
    inherited from [Object.prototype] that throws. *)
Theorem standardize_throws_only_outside_keywords (h : host) (filters : value) (e : exn) :
  fst (standardize h filters) = Thrown e ->
  exists k,
    keywords filters = Resolved [k]
    /\ (In k ["standardize"; "_standardizeFilterArray"; "constructor"]
        \/ (member_named k members = None /\ inherited h k filters = Some (Thrown e))).
Proof.
  intros H. rewrite standardize_unfold in H. unfold standardize_body in H.
  destruct (keywords_resolve filters) as [ks Hk]. rewrite Hk in H.
  destruct ks as [|k [|k2 ks]]; try discriminate H.
  exists k. split; [exact Hk|].
  destruct (member_named k members) as [m|] eqn:Hm.
  - left. destruct (member_keyword_object filters k m Hk Hm) as (o & c & ->).
    pose proof (member_named_name k m Hm) as Hname.
    destruct (invoke_settled h _ m o _ e H) as [-> | [-> | ->]]; subst k; cbn; auto.
  - right. split; [reflexivity|].
    destruct (inherited h k filters) as [[r|e'|e']|]; cbn [pure_ fst] in H;
      try discriminate H.
    inversion H; subst. reflexivity.
Qed.

Lemma standardize_throws_only_outside_keywords_witness :
  exists k,
    keywords (obj [("constructor", obj [])]) = Resolved [k]
    /\ (In k ["standardize"; "_standardizeFilterArray"; "constructor"]
        \/ (member_named k members = None
            /\ inherited plain_host k (obj [("constructor", obj [])])
               = Some (Thrown TypeError))).
Proof.
  apply (standardize_throws_only_outside_keywords plain_host). reflexivity.
Defined.

(** ** The entry point *)

Lemma keywords_count (v : value) (ks : list string) :
  keywords v = Resolved ks -> List.length ks = key_count v.
Proof.
  unfold keywords.
  destruct v as [| |b|x|s|o items|o fields]; cbn [truthy keys key_count].
  - intros H. injection H as <-. reflexivity.
  - intros H. injection H as <-. reflexivity.
  - destruct b; intros H; injection H as <-; reflexivity.
  - destruct (negb (x =? 0)%float && negb (is_nan x)); intros H; injection H as <-;
      reflexivity.
  - destruct s as [|a s]; cbn [String.eqb negb]; intros H; injection H as <-.
    + reflexivity.
    + cbn [List.length String.length]. rewrite length_map, length_seq. reflexivity.
  - intros H. injection H as <-. rewrite length_map, length_seq. reflexivity.
  - intros H. injection H as <-. rewrite length_map. reflexivity.
Qed.

(** X2: [standardize] first counts the keys of what it is given.  A value
    without keys (undefined, null, a boolean, a number, the empty string,
    array or object) resolves to a new empty object, the filter that matches
    everything; a value with two keys or more (an object, but also an array
    or a string of that length) is rejected as invalid syntax; a value whose
    single key names no member of the instance, own or inherited, is
    rejected as an unknown keyword.  Nothing is written in any of the three
    cases. *)
Theorem standardize_by_key_count (h : host) (filters : value) :
  (key_count filters = 0 -> standardize h filters = (Resolved (VObj Fresh []), []))
  /\ (2 <= key_count filters ->
      standardize h filters = (reject "Invalid filter syntax", []))
  /\ (forall k,
        keywords filters = Resolved [k] ->
        member_named k members = None ->
        inherited h k filters = None ->
        standardize h filters = (reject ("Unknown DSL keyword: " ++ k), [])).
Proof.
  destruct (keywords_resolve filters) as [ks Hk].
  pose proof (keywords_count filters ks Hk) as Hn.
  split; [|split].
  - intros H0. rewrite H0 in Hn. destruct ks; [|discriminate Hn].
    apply standardize_no_key. exact Hk.
  - intros H2. destruct ks as [|k1 [|k2 ks]]; cbn [List.length] in Hn; try lia.
    apply (standardize_many_keys h filters k1 k2 ks). exact Hk.
  - intros k. apply standardize_unknown_key.
Qed.

Lemma standardize_by_key_count_witness :
  standardize plain_host (arr [exists_filter "a"; exists_filter "b"])
  = (reject "Invalid filter syntax", []).
Proof.
  apply (proj1 (proj2 (standardize_by_key_count plain_host
                         (arr [exists_filter "a"; exists_filter "b"])))).
  cbn. lia.
Defined.

(** ** [exists], [missing] and [equals] *)

Lemma then_rejected {A B : Type} (e : exn) (f : A -> outcome B) :
  then_ (Rejected e) f = Rejected e.
Proof. reflexivity. Qed.

(** The chain of [exists] on the content [c] found under [name]. *)
Lemma exists_outcome (o : origin) (name : option string) (c : value) :
  let n := or_default name "exists" in
  (field_only c = true
   /\ exists_ (VObj o [(n, c)]) name = Resolved (VObj o [(n, c)]))
  \/ (field_only c = false
      /\ exists m, exists_ (VObj o [(n, c)]) name = reject m).
Proof.
  intros n. unfold exists_. fold n.
  cbn [get_prop lookup]. rewrite String.eqb_refl.
  destruct c as [| | | | | |oc [|[k v] [|kv rest]]];
    try (right; split; [reflexivity|eexists; reflexivity]);
    try (right; split; [destruct v; reflexivity|eexists; reflexivity]).
  cbn [mustBeNonEmptyObject map fst then_ onlyOneFieldAttribute List.length Nat.ltb Nat.leb
       mustBeString read nullish get_prop lookup seq_ field_only].
  rewrite (String.eqb_sym "field" k).
  destruct (String.eqb k "field") eqn:Ek.
  - destruct v as [| | | |s| |]; cbn [typeof String.eqb Ascii.eqb Bool.eqb negb andb];
      try (right; split; [reflexivity|eexists; reflexivity]).
    cbn [length_is seq_].
    destruct s as [|a s]; cbn [String.length Nat.eqb String.eqb negb].
    + right. split; [reflexivity|eexists; reflexivity].
    + left. split; reflexivity.
  - right. split; [destruct v; reflexivity|]. eexists. reflexivity.
Qed.

Lemma field_only_spec (c : value) :
  field_only c = true <->
  exists o' s, c = VObj o' [("field", VStr s)] /\ s <> EmptyString.
Proof.
  split.
  - destruct c as [| | | | | |oc [|[k v] [|kv rest]]]; try discriminate;
      try (destruct v; discriminate).
    destruct v as [| | | |s| |]; try discriminate. cbn [field_only].
    intros H. apply andb_true_iff in H. destruct H as [Hk Hs].
    apply String.eqb_eq in Hk. subst k. exists oc, s. split; [reflexivity|].
    intros ->. discriminate Hs.
  - intros (o' & s & -> & Hs). cbn [field_only String.eqb Ascii.eqb Bool.eqb andb].
    destruct s; [congruence|reflexivity].
Qed.

Lemma standardize_exists (h : host) (o : origin) (c : value) :
  standardize h (VObj o [("exists", c)]) = (exists_ (VObj o [("exists", c)]) None, []).
Proof.
  rewrite (standardize_keyword h o "exists" _ m_exists eq_refl). reflexivity.
Qed.

(** X3: [exists] accepts exactly the filters [{exists: {field: s}}] whose
    content has the single attribute [field], holding a non-empty string,
    and returns them as they are (the same object, nothing written).  Any
    other content is rejected with a validation error; the call never ends
    with an exception of the engine. *)
Theorem exists_accepts_field_only (h : host) (o : origin) (c : value) :
  (forall r,
     fst (standardize h (VObj o [("exists", c)])) = Resolved r
     <-> (exists o' s, c = VObj o' [("field", VStr s)] /\ s <> EmptyString)
         /\ r = VObj o [("exists", c)])
  /\ ((exists r, standardize h (VObj o [("exists", c)]) = (Resolved r, []))
      \/ (exists m, standardize h (VObj o [("exists", c)]) = (reject m, []))).
Proof.
  rewrite standardize_exists. cbn [fst].
  destruct (exists_outcome o None c) as [[Hc Hr]|[Hc [m Hr]]];
    cbn [or_default] in Hr; rewrite Hr.
  - split; [|left; eexists; reflexivity].
    intros r. split.
    + intros H. injection H as <-. split; [|reflexivity]. apply field_only_spec. exact Hc.
    + intros [_ ->]. reflexivity.
  - split; [|right; exists m; reflexivity].
    intros r. split; [discriminate|].
    intros [Hshape _]. apply field_only_spec in Hshape. congruence.
Qed.

Lemma exists_accepts_field_only_witness :
  fst (standardize plain_host (exists_filter "a")) = Resolved (exists_filter "a").
Proof.
  apply (proj1 (exists_accepts_field_only plain_host Input (obj [("field", str "a")]))).
  split; [|reflexivity]. exists Input, "a". split; [reflexivity|discriminate].
Defined.

Lemma standardize_missing (h : host) (o : origin) (c : value) :
  standardize h (VObj o [("missing", c)]) = (missing (VObj o [("missing", c)]), []).
Proof.
  rewrite (standardize_keyword h o "missing" _ m_missing eq_refl). reflexivity.
Qed.

Lemma missing_outcome (o : origin) (c : value) :
  (exists o' s, c = VObj o' [("field", VStr s)] /\ s <> EmptyString
     /\ missing (VObj o [("missing", c)])
        = Resolved (VObj Fresh [("not", VObj Fresh [("exists",
                      VObj Fresh [("field", VStr s)])])]))
  \/ (field_only c = false /\ exists m, missing (VObj o [("missing", c)]) = reject m).
Proof.
  unfold missing.
  destruct (exists_outcome o (Some "missing") c) as [[Hc Hr]|[Hc [m Hr]]];
    cbn [or_default String.eqb] in Hr; rewrite Hr.
  - left. apply field_only_spec in Hc. destruct Hc as (o' & s & -> & Hs).
    exists o', s. split; [reflexivity|]. split; [exact Hs|reflexivity].
  - right. split; [exact Hc|]. exists m. reflexivity.
Qed.

(** X4: [missing] is the negation of [exists].  [{missing: {field: s}}]
    with a non-empty string [s] is rewritten to the new filter
    [{not: {exists: {field: s}}}], and for any content the filter
    [{missing: c}] and the filter [{not: {exists: c}}] are accepted together
    and then standardize to the same tree (up to who allocated the
    objects), or are both rejected with a validation error. *)
Theorem missing_is_not_exists (h : host) (o1 o2 o3 : origin) (c : value) :
  (forall o' s,
     c = VObj o' [("field", VStr s)] -> s <> EmptyString ->
     standardize h (VObj o1 [("missing", c)])
     = (Resolved (VObj Fresh [("not", VObj Fresh [("exists",
                    VObj Fresh [("field", VStr s)])])]), []))
  /\ match fst (standardize h (VObj o1 [("missing", c)])),
           fst (standardize h (VObj o2 [("not", VObj o3 [("exists", c)])])) with
     | Resolved a, Resolved b => strip a = strip b
     | Rejected (BadRequestError _), Rejected (BadRequestError _) => True
     | _, _ => False
     end.
Proof.
  rewrite standardize_missing. cbn [fst].
  destruct (missing_outcome o1 c) as [(o' & s & -> & Hs & Hr)|[Hc [m Hr]]]; rewrite Hr.
  - split.
    + intros o'' s' H _. injection H as _ <-. reflexivity.
    + rewrite (standardize_not h o2 (VObj o3 [("exists", VObj o' [("field", VStr s)])])
                 eq_refl), standardize_exists. cbn [fst].
      destruct (exists_outcome o3 None (VObj o' [("field", VStr s)])) as [[_ He]|[Hc _]].
      * cbn [or_default] in He. rewrite He. reflexivity.
      * exfalso. assert (Ht : field_only (VObj o' [("field", VStr s)]) = true)
          by (apply field_only_spec; eauto). congruence.
  - split.
    + intros o' s -> Hs. exfalso.
      assert (Ht : field_only (VObj o' [("field", VStr s)]) = true)
        by (apply field_only_spec; eauto). congruence.
    + unfold reject. destruct (filter_object c) eqn:Hobj.
      * rewrite (standardize_not h o2 (VObj o3 [("exists", c)]) Hobj), standardize_exists.
        cbn [fst].
        destruct (exists_outcome o3 None c) as [[Ht _]|[_ [m' He]]]; [congruence|].
        cbn [or_default] in He. rewrite He. exact I.
      * rewrite (standardize_keyword h o2 "not" _ m_not eq_refl). cbn [invoke].
        unfold not_. cbn [get_prop lookup String.eqb Ascii.eqb Bool.eqb
          mustBeNonEmptyObject map fst then_ onlyOneFieldAttribute List.length Nat.ltb
          Nat.leb first_key hd orb].
        destruct c as [| | | | | |oc [|kv fields]]; try discriminate Hobj; exact I.
Qed.

Lemma missing_is_not_exists_witness :
  standardize plain_host (obj [("missing", obj [("field", str "a")])])
  = (Resolved (VObj Fresh [("not", VObj Fresh [("exists",
                 VObj Fresh [("field", VStr "a")])])]), []).
Proof.
  apply (proj1 (missing_is_not_exists plain_host Input Input Input
                  (obj [("field", str "a")])) Input "a").
  - reflexivity.
  - discriminate.
Defined.

Lemma standardize_equals (h : host) (o : origin) (c : value) :
  standardize h (VObj o [("equals", c)]) = (equals (VObj o [("equals", c)]), []).
Proof.
  rewrite (standardize_keyword h o "equals" _ m_equals eq_refl). reflexivity.
Qed.

Lemma equals_outcome (o : origin) (c : value) :
  (exists oc k s, c = VObj oc [(k, VStr s)]
     /\ equals (VObj o [("equals", c)]) = Resolved (VObj o [("equals", c)]))
  \/ ((forall oc k s, c <> VObj oc [(k, VStr s)])
      /\ exists m, equals (VObj o [("equals", c)]) = reject m).
Proof.
  unfold equals. cbn [get_prop lookup String.eqb Ascii.eqb Bool.eqb].
  destruct c as [| | | | | |oc [|[k v] [|kv rest]]];
    try (right; split; [discriminate|eexists; reflexivity]).
  cbn [mustBeNonEmptyObject map fst then_ onlyOneFieldAttribute List.length Nat.ltb Nat.leb
       first_key hd mustBeString read nullish get_prop lookup seq_].
  rewrite String.eqb_refl.
  destruct v as [| | | |s| |];
    try (right; split; [discriminate|eexists; reflexivity]).
  left. exists oc, k, s. split; reflexivity.
Qed.

(** X5: [equals] accepts exactly the filters [{equals: {<field>: s}}]
    whose content has a single attribute holding a string, whatever the
    name of the attribute and also when the string is empty, and returns
    them as they are (the same object, nothing written).  Any other content
    is rejected with a validation error. *)
Theorem equals_accepts_one_string (h : host) (o : origin) (c : value) :
  (forall r,
     fst (standardize h (VObj o [("equals", c)])) = Resolved r
     <-> (exists oc k s, c = VObj oc [(k, VStr s)]) /\ r = VObj o [("equals", c)])
  /\ ((exists r, standardize h (VObj o [("equals", c)]) = (Resolved r, []))
      \/ (exists m, standardize h (VObj o [("equals", c)]) = (reject m, []))).
Proof.
  rewrite standardize_equals. cbn [fst].
  destruct (equals_outcome o c) as [(oc & k & s & Hc & Hr)|[Hc [m Hr]]]; rewrite Hr.
  - split; [|left; eexists; reflexivity].
    intros r. split.
    + intros H. injection H as <-. split; [eauto|reflexivity].
    + intros [_ ->]. reflexivity.
  - split; [|right; exists m; reflexivity].
    intros r. split; [discriminate|].
    intros [(oc & k & s & Hshape) _]. exfalso. exact (Hc oc k s Hshape).
Qed.

Lemma equals_accepts_one_string_witness :
  fst (standardize plain_host (obj [("equals", obj [("name", str EmptyString)])]))
  = Resolved (obj [("equals", obj [("name", str EmptyString)])]).
Proof.
  apply (proj1 (equals_accepts_one_string plain_host Input
                  (obj [("name", str EmptyString)]))).
  split; [|reflexivity]. exists Input, "name", EmptyString. reflexivity.
Defined.

(** ** [in] and [ids] *)

Lemma existsb_negb {A : Type} (p : A -> bool) (l : list A) :
  existsb (fun x => negb (p x)) l = negb (forallb p l).
Proof.
  induction l as [|x l IH]; cbn [existsb forallb]; [reflexivity|].
  rewrite IH. destruct (p x); reflexivity.
Qed.

Lemma standardize_in (h : host) (o : origin) (c : value) :
  standardize h (VObj o [("in", c)]) = (in_ (VObj o [("in", c)]), []).
Proof.
  rewrite (standardize_keyword h o "in" _ m_in eq_refl). reflexivity.
Qed.

Lemma standardize_ids (h : host) (o : origin) (c : value) :
  standardize h (VObj o [("ids", c)]) = (ids (VObj o [("ids", c)]), []).
Proof.
  rewrite (standardize_keyword h o "ids" _ m_ids eq_refl). reflexivity.
Qed.

Lemma in_outcome (o : origin) (c : value) :
  (exists oc f v, c = VObj oc [(f, v)] /\ strings v = true
     /\ in_ (VObj o [("in", c)])
        = Resolved (node "or" (equals_of f (items_of v)) (VBool true)))
  \/ ((forall oc f v, c = VObj oc [(f, v)] -> strings v = false)
      /\ exists m, in_ (VObj o [("in", c)]) = reject m).
Proof.
  unfold in_. cbn [get_prop lookup String.eqb Ascii.eqb Bool.eqb].
  destruct c as [| | | | | |oc [|[k v] [|kv rest]]];
    try (right; split; [discriminate|eexists; reflexivity]).
  cbn [mustBeNonEmptyObject map fst then_ onlyOneFieldAttribute List.length Nat.ltb Nat.leb
       first_key hd mustBeNonEmptyArray read nullish get_prop lookup seq_].
  rewrite String.eqb_refl.
  assert (Hno : forall w, strings w = false ->
            forall oc' f' v', VObj oc [(k, w)] = VObj oc' [(f', v')] -> strings v' = false).
  { intros w Hw oc' f' v' H. injection H as _ _ <-. exact Hw. }
  destruct v as [| | | | |oa [|x items]|];
    try (right; split; [apply Hno; reflexivity|eexists; reflexivity]).
  cbn [items_of]. rewrite existsb_negb.
  destruct (forallb (fun v => String.eqb (typeof v) "string") (x :: items)) eqn:Hs;
    cbn [negb].
  - left. exists oc, k, (VArr oa (x :: items)). split; [reflexivity|]. split; [exact Hs|].
    reflexivity.
  - right. split; [apply Hno; exact Hs|]. eexists. reflexivity.
Qed.

Lemma ids_outcome (o : origin) (c : value) :
  (exists oc v, c = VObj oc [("values", v)] /\ strings v = true
     /\ ids (VObj o [("ids", c)])
        = Resolved (node "or" (equals_of "_id" (items_of v)) (VBool true)))
  \/ ((forall oc v, c = VObj oc [("values", v)] -> strings v = false)
      /\ exists m, ids (VObj o [("ids", c)]) = reject m).
Proof.
  unfold ids. cbn [get_prop lookup String.eqb Ascii.eqb Bool.eqb].
  destruct c as [| | | | | |oc [|[k v] [|kv rest]]];
    try (right; split; [discriminate|eexists; reflexivity]).
  cbn [mustBeNonEmptyObject map fst then_ onlyOneFieldAttribute List.length Nat.ltb Nat.leb
       requireAttribute mustBeNonEmptyArray read nullish get_prop lookup seq_].
  destruct (String.eqb "values" k) eqn:Ek.
  - apply String.eqb_eq in Ek. subst k.
    assert (Hno : forall w, strings w = false ->
              forall oc' v', VObj oc [("values", w)] = VObj oc' [("values", v')] ->
                             strings v' = false).
    { intros w Hw oc' v' H. injection H as _ <-. exact Hw. }
    destruct v as [| |b|x|s|oa [|x items]|]; cbn [truthy negb];
      try (right; split; [apply Hno; reflexivity|eexists; reflexivity]).
    + destruct b; right; (split; [apply Hno; reflexivity|eexists; reflexivity]).
    + destruct (negb (x =? 0)%float && negb (is_nan x));
        right; (split; [apply Hno; reflexivity|eexists; reflexivity]).
    + destruct (negb (String.eqb s EmptyString));
        right; (split; [apply Hno; reflexivity|eexists; reflexivity]).
    + cbn [items_of]. rewrite existsb_negb.
      destruct (forallb (fun v => String.eqb (typeof v) "string") (x :: items)) eqn:Hs;
        cbn [negb].
      * left. exists oc, (VArr oa (x :: items)). split; [reflexivity|].
        split; [exact Hs|reflexivity].
      * right. split; [apply Hno; exact Hs|]. eexists. reflexivity.
  - right. split.
    + intros oc' v' H. injection H as _ -> _. discriminate Ek.
    + eexists. reflexivity.
Qed.

Lemma strings_items (v : value) :
  strings v = true -> Forall (fun x => exists s, x = VStr s) (items_of v).
Proof.
  destruct v as [| | | | |oa [|x items]|]; try discriminate.
  cbn [strings items_of]. intros H.
  apply Forall_forall. intros y Hy.
  pose proof (proj1 (forallb_forall _ _) H y Hy) as Ht.
  destruct y; try discriminate Ht. eauto.
Qed.

(** X6: [in] accepts exactly the filters [{in: {<field>: [s1, ..., sn]}}]
    whose content has a single attribute holding a non-empty array of
    strings, and rewrites them to a new [or] node flagged as a leaf, with
    one [{equals: {<field>: si}}] per value, in the order of the values.
    Each of these leaves is itself a filter that [standardize] returns
    unchanged.  Any other content is rejected with a validation error. *)
Theorem in_rewritten_to_or (h : host) (o : origin) (c : value) :
  (forall r,
     fst (standardize h (VObj o [("in", c)])) = Resolved r
     <-> exists oc f v, c = VObj oc [(f, v)] /\ strings v = true
           /\ r = node "or" (equals_of f (items_of v)) (VBool true))
  /\ (forall oc f v,
        c = VObj oc [(f, v)] -> strings v = true ->
        Forall (fun x => standardize h x = (Resolved x, [])) (equals_of f (items_of v)))
  /\ ((exists r, standardize h (VObj o [("in", c)]) = (Resolved r, []))
      \/ (exists m, standardize h (VObj o [("in", c)]) = (reject m, []))).
Proof.
  rewrite standardize_in. cbn [fst].
  split; [|split].
  - intros r.
    destruct (in_outcome o c) as [(oc & f & v & Hc & Hs & Hr)|[Hc [m Hr]]]; rewrite Hr.
    + split.
      * intros H. injection H as <-. exists oc, f, v. auto.
      * intros (oc' & f' & v' & Hc' & _ & ->). rewrite Hc in Hc'.
        injection Hc' as _ <- <-. reflexivity.
    + split; [discriminate|].
      intros (oc' & f' & v' & Hc' & Hs' & _). rewrite (Hc oc' f' v' Hc') in Hs'.
      discriminate Hs'.
  - intros oc f v _ Hs. apply strings_items in Hs. unfold equals_of.
    apply Forall_map. apply (Forall_impl _ (P := fun x => exists s, x = VStr s)); [|exact Hs].
    intros x [s ->]. rewrite standardize_equals.
    destruct (equals_outcome Fresh (VObj Fresh [(f, VStr s)])) as [(_ & _ & _ & _ & Hr)|[Hc _]].
    + rewrite Hr. reflexivity.
    + exfalso. exact (Hc Fresh f s eq_refl).
  - destruct (in_outcome o c) as [(oc & f & v & Hc & Hs & Hr)|[Hc [m Hr]]]; rewrite Hr.
    + left. eexists. reflexivity.
    + right. exists m. reflexivity.
Qed.

Lemma in_rewritten_to_or_witness :
  fst (standardize plain_host (obj [("in", obj [("tag", arr [str "x"; str "y"])])]))
  = Resolved (node "or" [VObj Fresh [("equals", VObj Fresh [("tag", VStr "x")])];
                         VObj Fresh [("equals", VObj Fresh [("tag", VStr "y")])]]
                (VBool true)).
Proof.
  apply (proj1 (in_rewritten_to_or plain_host Input
                  (obj [("tag", arr [str "x"; str "y"])]))).
  exists Input, "tag", (arr [str "x"; str "y"]).
  split; [reflexivity|]. split; reflexivity.
Defined.

(** X7: [ids] is [in] on the attribute [_id].  [ids] accepts only a content
    whose single attribute is [values], holding a non-empty array of
    strings; and for every value [v], the filter [{ids: {values: v}}] is
    accepted exactly when [{in: {_id: v}}] is, with the same result. *)
Theorem ids_is_in_on_id (h : host) (o1 : origin) :
  (forall c r,
     fst (standardize h (VObj o1 [("ids", c)])) = Resolved r ->
     exists oc v, c = VObj oc [("values", v)] /\ strings v = true)
  /\ (forall o2 o3 o4 v r,
        fst (standardize h (VObj o1 [("ids", VObj o2 [("values", v)])])) = Resolved r
        <-> fst (standardize h (VObj o3 [("in", VObj o4 [("_id", v)])])) = Resolved r).
Proof.
  split.
  - intros c r. rewrite standardize_ids. cbn [fst].
    destruct (ids_outcome o1 c) as [(oc & v & Hc & Hs & Hr)|[Hc [m Hr]]]; rewrite Hr.
    + intros _. eauto.
    + discriminate.
  - intros o2 o3 o4 v r. rewrite standardize_ids, standardize_in. cbn [fst].
    destruct (ids_outcome o1 (VObj o2 [("values", v)]))
      as [(oc & v1 & Hc1 & Hs1 & Hr1)|[Hc1 [m1 Hr1]]];
      destruct (in_outcome o3 (VObj o4 [("_id", v)]))
        as [(oc' & f & v2 & Hc2 & Hs2 & Hr2)|[Hc2 [m2 Hr2]]];
      rewrite Hr1, Hr2.
    + injection Hc1 as _ <-. injection Hc2 as _ <- <-. reflexivity.
    + injection Hc1 as _ <-. rewrite (Hc2 o4 "_id" v eq_refl) in Hs1. discriminate Hs1.
    + injection Hc2 as _ _ <-. rewrite (Hc1 o2 v eq_refl) in Hs2. discriminate Hs2.
    + split; discriminate.
Qed.

Lemma ids_is_in_on_id_witness :
  fst (standardize plain_host (obj [("in", obj [("_id", arr [str "a"])])]))
  = Resolved (node "or" [VObj Fresh [("equals", VObj Fresh [("_id", VStr "a")])]]
                (VBool true)).
Proof.
  apply (proj1 (proj2 (ids_is_in_on_id plain_host Input) Input Input Input
                  (arr [str "a"]) _)).
  reflexivity.
Defined.

(** ** [regexp] *)


Lemma get_prop_single (o : origin) (k : string) (v : value) :
  get_prop (VObj o [(k, v)]) k = v.
Proof.
  cbn [get_prop lookup]. rewrite String.eqb_refl. reflexivity.
Qed.




(** ** [range] *)

Lemma standardize_range_other (h : host) (o : origin) (c : value) :
  (exists o2 f o3 kv bs, c = VObj o2 [(f, VObj o3 (kv :: bs))])
  \/ ((forall o2 f o3 kv bs, c <> VObj o2 [(f, VObj o3 (kv :: bs))])
      /\ exists m, standardize h (VObj o [("range", c)]) = (reject m, [])).
Proof.
  destruct c as [| | | | | |o2 [|[f v] [|kv2 rest]]];
    try (right; split; [discriminate|eexists;
           rewrite (standardize_keyword h o "range" _ m_range eq_refl); reflexivity]).
  destruct v as [| | | | | |o3 [|kv bs]];
    try (right; split; [discriminate|eexists;
           rewrite (standardize_keyword h o "range" _ m_range eq_refl);
           unfold invoke, pure_, range;
           cbn [get_prop lookup String.eqb Ascii.eqb Bool.eqb mustBeNonEmptyObject map
                fst then_ onlyOneFieldAttribute List.length Nat.ltb Nat.leb first_key hd];
           rewrite String.eqb_refl; reflexivity]).
  left. eauto 6.
Qed.

(** X9: [range] returns the filter it was given or rejects it with a
    validation error; it builds nothing.  It accepts only a content with a
    single field over a non-empty object whose keys are all among gt, gte,
    lt and lte and hold numbers; a key outside these four is reported
    first, whatever the values are. *)
Theorem range_returns_filter_or_rejects (h : host) (o : origin) (c : value) :
  (forall r,
     fst (standardize h (VObj o [("range", c)])) = Resolved r ->
     r = VObj o [("range", c)]
     /\ exists o2 f o3 kv bs,
          c = VObj o2 [(f, VObj o3 (kv :: bs))]
          /\ forallb (fun k => mem k ["gt"; "lt"; "gte"; "lte"]
                                && is_number (lookup k (kv :: bs)))
                     (map fst (kv :: bs)) = true)
  /\ (forall o2 f o3 kv bs,
        c = VObj o2 [(f, VObj o3 (kv :: bs))] ->
        existsb (fun k => negb (mem k ["gt"; "lt"; "gte"; "lte"])) (map fst (kv :: bs)) = true ->
        standardize h (VObj o [("range", c)])
        = (reject (quoted ("range." ++ f)
                   ++ " accepts only the following attributes : gt, gte, lt, lte"), []))
  /\ ((exists r, standardize h (VObj o [("range", c)]) = (Resolved r, []))
      \/ (exists m, standardize h (VObj o [("range", c)]) = (reject m, []))).
Proof.
  destruct (standardize_range_other h o c) as [(o2 & f & o3 & kv & bs & ->)|[Hno [m Hr]]].
  - change (VObj o [("range", VObj o2 [(f, VObj o3 (kv :: bs))])])
      with (range_filter o o2 o3 f (kv :: bs)).
    rewrite standardize_range. cbn [fst]. unfold range_values.
    assert (Hobj : get_prop (get_prop (range_filter o o2 o3 f (kv :: bs)) "range") f
                   = VObj o3 (kv :: bs))
      by (unfold range_filter; rewrite !get_prop_single; reflexivity).
    rewrite Hobj. cbv zeta.
    set (ks := map fst (kv :: bs)).
    change (fun v => negb (String.eqb (typeof (get_prop (VObj o3 (kv :: bs)) v)) "number"))
      with (fun v => negb (String.eqb (typeof (lookup v (kv :: bs))) "number")).
    destruct (existsb (fun v => negb (mem v ["gt"; "lt"; "gte"; "lte"])) ks) eqn:Hunknown.
    + split; [intros r H; discriminate H|]. split; [|right; eexists; reflexivity].
      intros o2' f' o3' kv' bs' Hc _. injection Hc as _ <- _ _ _. reflexivity.
    + destruct (find (fun v => negb (String.eqb (typeof (lookup v (kv :: bs))) "number")) ks)
        as [bad|] eqn:Hfind.
      * split; [intros r H; discriminate H|]. split; [|right; eexists; reflexivity].
        intros o2' f' o3' kv' bs' Hc Hu. injection Hc as _ _ _ <- <-.
        fold ks in Hu. congruence.
      * assert (Hall : forallb (fun k => mem k ["gt"; "lt"; "gte"; "lte"]
                                         && is_number (lookup k (kv :: bs))) ks = true).
        { apply forallb_forall. intros k Hk. apply andb_true_iff. split.
          - rewrite existsb_negb in Hunknown. apply negb_false_iff in Hunknown.
            exact (proj1 (forallb_forall _ _) Hunknown k Hk).
          - pose proof (find_none _ _ Hfind k Hk) as Hn. cbv beta in Hn.
            destruct (lookup k (kv :: bs)); try discriminate Hn. reflexivity. }
        pose proof (range_bounds_error f (VObj o3 (kv :: bs)) ks) as Hkind.
        destruct (error (range_bounds f (VObj o3 (kv :: bs)) ks)) as [e|].
        -- destruct (Hkind e eq_refl) as [m ->].
           split; [intros r H; discriminate H|]. split; [|right; exists m; reflexivity].
           intros o2' f' o3' kv' bs' Hc Hu. injection Hc as _ _ _ <- <-.
           fold ks in Hu. congruence.
        -- destruct (_ <=? _)%float.
           ++ split; [intros r H; discriminate H|]. split; [|right; eexists; reflexivity].
              intros o2' f' o3' kv' bs' Hc Hu. injection Hc as _ _ _ <- <-.
              fold ks in Hu. congruence.
           ++ split; [|split; [|left; eexists; reflexivity]].
              ** intros r H. injection H as <-. split; [reflexivity|].
                 exists o2, f, o3, kv, bs. split; [reflexivity|exact Hall].
              ** intros o2' f' o3' kv' bs' Hc Hu. injection Hc as _ _ _ <- <-.
                 fold ks in Hu. congruence.
  - rewrite Hr. split; [|split].
    + intros r H. discriminate H.
    + intros o2 f o3 kv bs Hc. exfalso. exact (Hno _ _ _ _ _ Hc).
    + right. exists m. reflexivity.
Qed.

Lemma range_returns_filter_or_rejects_witness :
  standardize plain_host
    (obj [("range", obj [("age", obj [("gt", num 1); ("above", num 2)])])])
  = (reject (quoted ("range." ++ "age")
             ++ " accepts only the following attributes : gt, gte, lt, lte"), []).
Proof.
  apply (proj1 (proj2 (range_returns_filter_or_rejects plain_host Input
                         (obj [("age", obj [("gt", num 1); ("above", num 2)])])))
           Input "age" Input ("gt", num 1) [("above", num 2)]).
  - reflexivity.
  - reflexivity.
Defined.

(** X10: the loop of [range] counts the bounds of a side by comparing the
    running bound with its initial value, so an upper bound of [Infinity]
    (a lower bound of [-Infinity]) met first is not counted: a second bound
    on the same side is accepted and replaces it, and the order check is
    made against that second bound. *)
Theorem range_bound_after_infinity_replaces_it (h : host) (o1 o2 o3 : origin)
  (field : string) (x y : float) :
  standardize h (range_filter o1 o2 o3 field
                   [("lt", VNum infinity); ("lte", VNum x); ("gt", VNum y)])
  = (if (x <=? y)%float
     then reject (quoted ("range." ++ field ++ ":")
                  ++ " lower boundary must be strictly inferior to the upper one")
     else Resolved (range_filter o1 o2 o3 field
                      [("lt", VNum infinity); ("lte", VNum x); ("gt", VNum y)]), [])
  /\ standardize h (range_filter o1 o2 o3 field
                      [("gt", VNum neg_infinity); ("gte", VNum y); ("lt", VNum x)])
     = (if (x <=? y)%float
        then reject (quoted ("range." ++ field ++ ":")
                     ++ " lower boundary must be strictly inferior to the upper one")
        else Resolved (range_filter o1 o2 o3 field
                         [("gt", VNum neg_infinity); ("gte", VNum y); ("lt", VNum x)]), []).
Proof.
  split; rewrite standardize_range; unfold range_values, range_filter;
    rewrite get_prop_single; rewrite get_prop_single;
    cbv [map fst existsb mem negb orb String.eqb Ascii.eqb Bool.eqb find typeof get_prop
         lookup range_bounds fold_left range_step String.prefix Ascii.ascii_dec
         ascii_rec ascii_rect Bool.bool_dec bool_rec bool_rect sumbool_rec sumbool_rect
         high low error number_of eq_rec_r eq_rec eq_rect eq_sym f_equal];
    change (infinity =? infinity)%float with true;
    change (neg_infinity =? neg_infinity)%float with true;
    cbv [negb high low error]; reflexivity.
Qed.

(** ** Geo predicates *)

Lemma fieldsExist_number (obj : value) (fields : list string) (f : string) :
  fieldsExist obj fields "number" None = true -> In f fields ->
  exists x, get_prop obj f = VNum x.
Proof.
  unfold fieldsExist. intros H Hin.
  pose proof (proj1 (forallb_forall _ _) H f Hin) as Hf. cbv beta zeta in Hf.
  apply andb_true_iff in Hf. destruct Hf as [Hf _].
  apply andb_true_iff in Hf. destruct Hf as [_ Ht].
  destruct (get_prop obj f); try discriminate Ht. eauto.
Qed.

Lemma two_numbers (v : value) :
  isArray v = true ->
  Nat.eqb (List.length (items_of v)) 2 = true ->
  all_numbers (items_of v) = true ->
  exists a b, get_index v 0 = VNum a /\ get_index v 1 = VNum b.
Proof.
  destruct v as [| | | | |o items|]; try discriminate. intros _.
  destruct items as [|x [|y [|z items]]]; try discriminate. intros _.
  cbn [items_of all_numbers forallb get_index nth]. intros H.
  apply andb_true_iff in H. destruct H as [Hx H].
  apply andb_true_iff in H. destruct H as [Hy _].
  destruct x; try discriminate Hx. destruct y; try discriminate Hy. eauto.
Qed.

(** What the cascade of format tests of [geoBoundingBox] leaves in
    [standardized]: nothing, or the four coordinates as numbers. *)
Lemma bbox_standardized_shape (h : host) (bBox : value) (st : list (string * value)) :
  bbox_standardized h bBox = Resolved st ->
  st = [] \/ exists t l b r,
    st = [("top", VNum t); ("left", VNum l); ("bottom", VNum b); ("right", VNum r)].
Proof.
  unfold bbox_standardized.
  destruct (fieldsExist bBox ["top"; "left"; "bottom"; "right"] "number" None) eqn:Hflat.
  { intros H. injection H as <-. right.
    destruct (fieldsExist_number bBox _ "top" Hflat) as [t Ht]; [cbn; auto|].
    destruct (fieldsExist_number bBox _ "left" Hflat) as [l Hl]; [cbn; auto|].
    destruct (fieldsExist_number bBox _ "bottom" Hflat) as [b Hb]; [cbn; auto|].
    destruct (fieldsExist_number bBox _ "right" Hflat) as [r Hr]; [cbn; auto 6|].
    exists t, l, b, r. cbn [map]. rewrite Ht, Hl, Hb, Hr. reflexivity. }
  destruct (fieldsExist bBox ["bottomRight"; "topLeft"] "object" None
            && fieldsExist (get_prop bBox "bottomRight") ["lat"; "lon"] "number" None
            && fieldsExist (get_prop bBox "topLeft") ["lat"; "lon"] "number" None) eqn:Hobj.
  { intros H. injection H as <-. right.
    apply andb_true_iff in Hobj. destruct Hobj as [Hobj Htl].
    apply andb_true_iff in Hobj. destruct Hobj as [_ Hbr].
    destruct (fieldsExist_number _ _ "lat" Htl) as [t Ht]; [cbn; auto|].
    destruct (fieldsExist_number _ _ "lon" Htl) as [l Hl]; [cbn; auto|].
    destruct (fieldsExist_number _ _ "lat" Hbr) as [b Hb]; [cbn; auto|].
    destruct (fieldsExist_number _ _ "lon" Hbr) as [r Hr]; [cbn; auto|].
    exists t, l, b, r. rewrite Ht, Hl, Hb, Hr. reflexivity. }
  destruct (fieldsExist bBox ["bottomRight"; "topLeft"] "object" None
            && isArray (get_prop bBox "bottomRight") && isArray (get_prop bBox "topLeft")
            && Nat.eqb (List.length (items_of (get_prop bBox "bottomRight"))) 2
            && Nat.eqb (List.length (items_of (get_prop bBox "topLeft"))) 2
            && all_numbers (items_of (get_prop bBox "bottomRight"))
            && all_numbers (items_of (get_prop bBox "topLeft"))) eqn:Harr.
  { intros H. injection H as <-. right.
    repeat match type of Harr with
           | _ && _ = true => apply andb_true_iff in Harr; destruct Harr as [Harr ?]
           end.
    destruct (two_numbers (get_prop bBox "topLeft")) as (t & l & Ht & Hl); try assumption.
    destruct (two_numbers (get_prop bBox "bottomRight")) as (b & r & Hb & Hr);
      try assumption.
    exists t, l, b, r. rewrite Ht, Hl, Hb, Hr. reflexivity. }
  destruct (fieldsExist bBox ["bottomRight"; "topLeft"] "string" (Some (bbox_matches h))).
  { destruct (get_prop bBox "topLeft") as [| | | |tl| |]; try discriminate.
    destruct (get_prop bBox "bottomRight") as [| | | |br| |]; try discriminate.
    destruct (bbox_string h tl) as [[t1 t2]|]; try discriminate.
    destruct (bbox_string h br) as [[b1 b2]|]; try discriminate.
    intros H. injection H as <-. right. eauto 6. }
  destruct (fieldsExist bBox ["bottomRight"; "topLeft"] "string" (Some (geohash_test h))).
  { destruct (get_prop bBox "topLeft") as [| | | |tl| |]; try discriminate.
    destruct (get_prop bBox "bottomRight") as [| | | |br| |]; try discriminate.
    intros H. injection H as <-. right. eauto 6. }
  intros H. injection H as <-. left. reflexivity.
Qed.

(** X11: whatever the format of the box it is given, a [geoBoundingBox]
    filter that is accepted has a single field and is rewritten to a new
    [{geospatial: {geoBoundingBox: {<field>: box}}}] whose box holds
    exactly [top], [left], [bottom] and [right], in this order, all four
    numbers, with a [top] that is neither 0 nor NaN.  ([util/fieldsExist]
    is taken as the test of the [typeof] of each listed field that its call
    sites describe.) *)
Theorem geoBoundingBox_result_shape (h : host) (o : origin) (c r : value) :
  fst (standardize h (VObj o [("geoBoundingBox", c)])) = Resolved r ->
  exists oc field box t l b r',
    c = VObj oc [(field, box)]
    /\ r = VObj Fresh [("geospatial",
             VObj Fresh [("geoBoundingBox",
               VObj Fresh [(field, VObj Fresh [("top", VNum t); ("left", VNum l);
                                               ("bottom", VNum b); ("right", VNum r')])])])]
    /\ truthy (VNum t) = true.
Proof.
  rewrite (standardize_keyword h o "geoBoundingBox" _ m_geoBoundingBox eq_refl).
  unfold invoke, pure_, geoBoundingBox. cbn [fst]. rewrite get_prop_single.
  destruct c as [| | | | | |oc [|[field box] [|kv rest]]]; try discriminate.
  cbn [mustBeNonEmptyObject map fst then_ onlyOneFieldAttribute List.length Nat.ltb Nat.leb
       first_key hd].
  rewrite get_prop_single.
  destruct (geoLocationToCamelCase h box) as [bBox|e|e]; try discriminate. cbn [seq_].
  destruct (bbox_standardized h bBox) as [st|e|e] eqn:Hst; try discriminate. cbn [seq_].
  destruct (bbox_standardized_shape h bBox st Hst) as [->|(t & l & b & r' & ->)].
  - discriminate.
  - cbn [lookup String.eqb Ascii.eqb Bool.eqb].
    destruct (truthy (VNum t)) eqn:Ht; cbn [negb]; [|discriminate].
    intros H. injection H as <-. exists oc, field, box, t, l, b, r'. auto.
Qed.

Lemma geoBoundingBox_result_shape_witness :
  exists oc field box t l b r',
    obj [("loc", obj [("top", num 1); ("left", num 2); ("bottom", num 3); ("right", num 4)])]
    = VObj oc [(field, box)]
    /\ VObj Fresh [("geospatial",
         VObj Fresh [("geoBoundingBox",
           VObj Fresh [("loc", VObj Fresh [("top", VNum 1); ("left", VNum 2);
                                           ("bottom", VNum 3); ("right", VNum 4)])])])]
       = VObj Fresh [("geospatial",
           VObj Fresh [("geoBoundingBox",
             VObj Fresh [(field, VObj Fresh [("top", VNum t); ("left", VNum l);
                                             ("bottom", VNum b); ("right", VNum r')])])])]
    /\ truthy (VNum t) = true.
Proof.
  apply (geoBoundingBox_result_shape plain_host Input). reflexivity.
Defined.

(** X12: the three structural formats of a bounding box are read the same
    way.  The flat box [{top, left, bottom, right}], the box of two points
    [{topLeft: {lat, lon}, bottomRight: {lat, lon}}] and the box of two
    pairs [{topLeft: [lat, lon], bottomRight: [lat, lon]}] standardize to
    the same result when they hold the same four numbers: the latitude of
    the top left corner is [top] and its longitude [left], those of the
    bottom right corner are [bottom] and [right].  (With a [top] that is
    neither 0 nor NaN, on boxes whose keys [geoLocationToCamelCase] leaves as
    they are; [util/fieldsExist] is taken as the test of the [typeof] of each
    listed field that its call sites describe.) *)
Theorem geoBoundingBox_formats_agree (h : host) (o1 o2 o3 o4 o5 : origin) (field : string)
  (t l b r : float) :
  let flat_box := VObj o3 [("top", VNum t); ("left", VNum l);
                           ("bottom", VNum b); ("right", VNum r)] in
  let points_box := VObj o3 [("topLeft", VObj o4 [("lat", VNum t); ("lon", VNum l)]);
                             ("bottomRight", VObj o5 [("lat", VNum b); ("lon", VNum r)])] in
  let pairs_box := VObj o3 [("topLeft", VArr o4 [VNum t; VNum l]);
                            ("bottomRight", VArr o5 [VNum b; VNum r])] in
  let result := VObj Fresh [("geospatial",
                  VObj Fresh [("geoBoundingBox",
                    VObj Fresh [(field, VObj Fresh [("top", VNum t); ("left", VNum l);
                                                    ("bottom", VNum b); ("right", VNum r)])])])] in
  truthy (VNum t) = true ->
  geoLocationToCamelCase h flat_box = Resolved flat_box ->
  geoLocationToCamelCase h points_box = Resolved points_box ->
  geoLocationToCamelCase h pairs_box = Resolved pairs_box ->
  standardize h (VObj o1 [("geoBoundingBox", VObj o2 [(field, flat_box)])])
  = (Resolved result, [])
  /\ standardize h (VObj o1 [("geoBoundingBox", VObj o2 [(field, points_box)])])
     = (Resolved result, [])
  /\ standardize h (VObj o1 [("geoBoundingBox", VObj o2 [(field, pairs_box)])])
     = (Resolved result, []).
Proof.
  intros flat_box points_box pairs_box result Ht Hflat Hpoints Hpairs.
  assert (Hst : forall box,
            bbox_standardized h box
            = Resolved [("top", VNum t); ("left", VNum l); ("bottom", VNum b); ("right", VNum r)] ->
            geoLocationToCamelCase h box = Resolved box ->
            standardize h (VObj o1 [("geoBoundingBox", VObj o2 [(field, box)])])
            = (Resolved result, [])).
  { intros box Hbox Hc. rewrite (geoBoundingBox_outcome h o1 o2 field box box _ Hc Hbox).
    cbn [lookup String.eqb Ascii.eqb Bool.eqb]. rewrite Ht. reflexivity. }
  split; [|split]; apply Hst; try assumption; reflexivity.
Qed.

Lemma geoBoundingBox_formats_agree_witness :
  standardize plain_host
    (obj [("geoBoundingBox",
           obj [("loc", obj [("topLeft", arr [num 1; num 2]);
                             ("bottomRight", arr [num 3; num 4])])])])
  = (Resolved (VObj Fresh [("geospatial",
       VObj Fresh [("geoBoundingBox",
         VObj Fresh [("loc", VObj Fresh [("top", VNum 1); ("left", VNum 2);
                                         ("bottom", VNum 3); ("right", VNum 4)])])])]), []).
Proof.
  apply (proj2 (proj2 (geoBoundingBox_formats_agree plain_host Input Input Input Input Input
                         "loc" 1%float 2%float 3%float 4%float
                         eq_refl eq_refl eq_refl eq_refl))).
Defined.

(** The attributes of an object do not depend on the order of its keys. *)
Lemma lookup_permutation (fields expected : list (string * value)) (k : string) (v : value) :
  Permutation fields expected -> NoDup (map fst expected) -> In (k, v) expected ->
  lookup k fields = v.
Proof.
  intros Hp Hnd Hin. apply lookup_NoDup.
  - apply (Permutation_NoDup (l := map fst expected)); [|exact Hnd].
    apply Permutation_map. apply Permutation_sym. exact Hp.
  - apply (Permutation_in (l := expected)); [apply Permutation_sym; exact Hp|exact Hin].
Qed.

Lemma mem_permutation (keys expected : list string) (k : string) :
  Permutation keys expected -> In k expected -> mem k keys = true.
Proof.
  intros Hp Hin. apply mem_In.
  apply (Permutation_in (l := expected)); [apply Permutation_sym; exact Hp|exact Hin].
Qed.

(** [find] with a predicate that a single key satisfies. *)
Lemma find_key_unique (p : string -> bool) (keys : list string) (doc : string) :
  In doc keys -> p doc = true -> (forall k, In k keys -> p k = true -> k = doc) ->
  find_key p keys = doc.
Proof.
  unfold find_key. intros Hin Hp Huniq.
  destruct (find p keys) as [k|] eqn:Hf.
  - apply find_some in Hf. destruct Hf as [Hk Hpk]. exact (Huniq k Hk Hpk).
  - pose proof (find_none _ _ Hf doc Hin) as Hn. congruence.
Qed.

Lemma neq_eqb (a b : string) : a <> b -> String.eqb a b = false.
Proof.
  intros H. apply String.eqb_neq. exact H.
Qed.

(** X13: a [geoDistance] filter with a document field and a [distance]
    string is standardized the same way whatever the order of its two
    attributes.  The point is converted first: an exception of
    [convertGeopoint] rejects the promise as it is, a point it answers
    [null] for rejects the filter with a validation error naming the field,
    and an answer [undefined] rejects the promise with the [TypeError] of
    reading [point.lat].  Otherwise the distance is converted, an exception
    of the converter rejects the promise as it is, and the result is the new
    [{geospatial: {geoDistance: {<field>: {lat, lon, distance}}}}] with the
    [lat] and [lon] of the answer; for the field [__proto__] the inner
    object has no key of its own, the assignment having set its prototype. *)
Theorem geoDistance_any_key_order (h : host) (o1 o2 : origin) (doc d : string)
  (p : value) (fields : list (string * value)) :
  Permutation fields [(doc, p); ("distance", VStr d)] ->
  doc <> "distance" ->
  standardize h (VObj o1 [("geoDistance", VObj o2 fields)])
  = (match convertGeopoint h p with
     | inl e => Rejected e
     | inr VNull => reject ("geoDistance." ++ doc ++ ": unrecognized point format")
     | inr VUndef => Rejected TypeError
     | inr point =>
         match convertDistance h (VStr d) with
         | inl e => Rejected e
         | inr dist =>
             let entry := VObj Fresh [("lat", get_prop point "lat");
                                      ("lon", get_prop point "lon");
                                      ("distance", VNum dist)] in
             Resolved (VObj Fresh [("geospatial",
               VObj Fresh [("geoDistance",
                 VObj Fresh (if String.eqb doc "__proto__" then [] else [(doc, entry)]))])])
         end
     end, []).
Proof.
  intros Hp Hdoc.
  assert (Hnd : NoDup (map fst [(doc, p); ("distance", VStr d)])).
  { cbn [map fst]. constructor; [intros [H|[]]; congruence|].
    constructor; [intros []|constructor]. }
  assert (Hkeys : Permutation (map fst fields) [doc; "distance"])
    by (apply (Permutation_map fst) in Hp; exact Hp).
  pose proof (Permutation_length Hkeys) as Hlen. cbn [List.length] in Hlen.
  assert (Hdist : lookup "distance" fields = VStr d)
    by (apply (lookup_permutation _ _ _ _ Hp Hnd); cbn; auto).
  assert (Hpoint : lookup doc fields = p)
    by (apply (lookup_permutation _ _ _ _ Hp Hnd); cbn; auto).
  assert (Hfind : find_key (fun f => negb (String.eqb f "distance")) (map fst fields) = doc).
  { apply find_key_unique.
    - apply (Permutation_in (l := [doc; "distance"]));
        [apply Permutation_sym; exact Hkeys|cbn; auto].
    - rewrite (neq_eqb _ _ Hdoc). reflexivity.
    - intros k Hk Hpk. apply (Permutation_in _ Hkeys) in Hk.
      destruct Hk as [<- | [<- | []]]; [reflexivity|discriminate Hpk]. }
  rewrite (standardize_keyword h o1 "geoDistance" _ m_geoDistance eq_refl).
  unfold invoke, pure_, geoDistance. rewrite get_prop_single.
  destruct fields as [|kv fields']; [discriminate Hlen|].
  set (fs := kv :: fields') in *.
  change (mustBeNonEmptyObject (VObj o2 fs) "geoDistance") with (Resolved (map fst fs)).
  cbn [then_]. rewrite length_map in Hlen. rewrite length_map, Hlen.
  rewrite (mem_permutation _ _ "distance" Hkeys) by (cbn; auto).
  cbn [Nat.eqb negb orb].
  unfold mustBeString, read. cbn [nullish seq_ get_prop keys]. rewrite Hdist.
  cbn [typeof String.eqb Ascii.eqb Bool.eqb negb then_].
  rewrite Hfind, Hpoint. unfold assigned.
  destruct (convertGeopoint h p) as [e|point]; [reflexivity|].
  destruct point; try reflexivity; cbn [nullish seq_];
    destruct (convertDistance h (VStr d)); reflexivity.
Qed.

Lemma geoDistance_any_key_order_witness :
  standardize geo_host
    (obj [("geoDistance", obj [("distance", str "1km");
                               ("loc", obj [("lat", num 1); ("lon", num 2)])])])
  = (Resolved (VObj Fresh [("geospatial",
       VObj Fresh [("geoDistance",
         VObj Fresh [("loc",
           VObj Fresh [("lat", VNum 1); ("lon", VNum 2); ("distance", VNum 1000)])])])]),
     []).
Proof.
  apply (geoDistance_any_key_order geo_host Input Input "loc" "1km"
           (obj [("lat", num 1); ("lon", num 2)])
           [("distance", str "1km"); ("loc", obj [("lat", num 1); ("lon", num 2)])]).
  - apply perm_swap.
  - discriminate.
Defined.

(** X14: a [geoDistanceRange] filter with a document field and the strings
    [from] and [to] is standardized the same way whatever the order of its
    three attributes.  The point is converted first, with the three failures
    of [geoDistance] (an exception of [convertGeopoint], the answer [null],
    the answer [undefined]); then [from], then [to] are converted, and an
    exception of the distance converter rejects the promise as it is.  The
    filter is rejected when the converted [from] is greater than or equal
    to the converted [to], so that an accepted range never has an outer
    radius less than or equal to its inner one; otherwise the result is the
    new [{geospatial: {geoDistanceRange: {<field>: {lat, lon, from, to}}}}],
    in which the inner object has no key of its own for the field
    [__proto__]. *)
Theorem geoDistanceRange_any_key_order (h : host) (o1 o2 : origin) (doc f t : string)
  (p : value) (fields : list (string * value)) :
  Permutation fields [(doc, p); ("from", VStr f); ("to", VStr t)] ->
  doc <> "from" -> doc <> "to" ->
  standardize h (VObj o1 [("geoDistanceRange", VObj o2 fields)])
  = (match convertGeopoint h p with
     | inl e => Rejected e
     | inr VNull => reject ("geoDistanceRange." ++ doc ++ ": unrecognized point format")
     | inr VUndef => Rejected TypeError
     | inr point =>
         match convertDistance h (VStr f) with
         | inl e => Rejected e
         | inr from =>
             match convertDistance h (VStr t) with
             | inl e => Rejected e
             | inr to =>
                 if (to <=? from)%float
                 then reject ("geoDistanceRange." ++ doc
                              ++ ": inner radius must be smaller than outer radius")
                 else
                   let entry := VObj Fresh [("lat", get_prop point "lat");
                                            ("lon", get_prop point "lon");
                                            ("from", VNum from); ("to", VNum to)] in
                   Resolved (VObj Fresh [("geospatial",
                     VObj Fresh [("geoDistanceRange",
                       VObj Fresh (if String.eqb doc "__proto__" then []
                                   else [(doc, entry)]))])])
             end
         end
     end, []).
Proof.
  intros Hp Hfrom Hto.
  assert (Hnd : NoDup (map fst [(doc, p); ("from", VStr f); ("to", VStr t)])).
  { cbn [map fst]. constructor; [intros [H|[H|[]]]; congruence|].
    constructor; [intros [H|[]]; discriminate H|].
    constructor; [intros []|constructor]. }
  assert (Hkeys : Permutation (map fst fields) [doc; "from"; "to"])
    by (apply (Permutation_map fst) in Hp; exact Hp).
  pose proof (Permutation_length Hkeys) as Hlen. cbn [List.length] in Hlen.
  assert (Hf : lookup "from" fields = VStr f)
    by (apply (lookup_permutation _ _ _ _ Hp Hnd); cbn; auto).
  assert (Ht : lookup "to" fields = VStr t)
    by (apply (lookup_permutation _ _ _ _ Hp Hnd); cbn; auto).
  assert (Hpoint : lookup doc fields = p)
    by (apply (lookup_permutation _ _ _ _ Hp Hnd); cbn; auto).
  assert (Hfind : find_key (fun k => negb (String.eqb k "from") && negb (String.eqb k "to"))
                    (map fst fields) = doc).
  { apply find_key_unique.
    - apply (Permutation_in (l := [doc; "from"; "to"]));
        [apply Permutation_sym; exact Hkeys|cbn; auto].
    - rewrite (neq_eqb _ _ Hfrom), (neq_eqb _ _ Hto). reflexivity.
    - intros k Hk Hpk. apply (Permutation_in _ Hkeys) in Hk.
      destruct Hk as [<- | [<- | [<- | []]]]; [reflexivity|discriminate Hpk|discriminate Hpk]. }
  rewrite (standardize_keyword h o1 "geoDistanceRange" _ m_geoDistanceRange eq_refl).
  unfold invoke, pure_, geoDistanceRange. rewrite get_prop_single.
  destruct fields as [|kv fields']; [discriminate Hlen|].
  set (fs := kv :: fields') in *.
  change (mustBeNonEmptyObject (VObj o2 fs) "geoDistanceRange") with (Resolved (map fst fs)).
  cbn [then_]. rewrite length_map in Hlen. rewrite length_map, Hlen.
  rewrite (mem_permutation _ _ "from" Hkeys) by (cbn; auto).
  rewrite (mem_permutation _ _ "to" Hkeys) by (cbn; auto).
  cbn [Nat.eqb negb orb].
  unfold mustBeString, read. cbn [nullish seq_ get_prop keys]. rewrite Hf, Ht.
  cbn [typeof String.eqb Ascii.eqb Bool.eqb negb then_].
  rewrite Hfind, Hpoint. unfold assigned.
  destruct (convertGeopoint h p) as [e|point]; [reflexivity|].
  destruct point; try reflexivity; cbn [nullish seq_];
    (destruct (convertDistance h (VStr f)); [reflexivity|]);
    (destruct (convertDistance h (VStr t)); [reflexivity|]);
    destruct (_ <=? _)%float; reflexivity.
Qed.

Lemma geoDistanceRange_any_key_order_witness :
  standardize geo_host
    (obj [("geoDistanceRange", obj [("to", str "1km"); ("from", str "10m");
                                    ("loc", obj [("lat", num 1); ("lon", num 2)])])])
  = (Resolved (VObj Fresh [("geospatial",
       VObj Fresh [("geoDistanceRange",
         VObj Fresh [("loc",
           VObj Fresh [("lat", VNum 1); ("lon", VNum 2);
                       ("from", VNum 10); ("to", VNum 1000)])])])]), []).
Proof.
  apply (geoDistanceRange_any_key_order geo_host Input Input "loc" "10m" "1km"
           (obj [("lat", num 1); ("lon", num 2)])
           [("to", str "1km"); ("from", str "10m");
            ("loc", obj [("lat", num 1); ("lon", num 2)])]).
  - apply Permutation_rev.
  - discriminate.
  - discriminate.
Defined.

Lemma polygon_points_converted (h : host) (docField : string) (points qs : list value) :
  Forall2 (fun p q => convertGeopoint h p = inr q /\ nullish q = false) points qs ->
  polygon_points h docField points
  = Resolved (map (fun q => VArr Fresh [get_prop q "lat"; get_prop q "lon"]) qs).
Proof.
  induction 1 as [|p q points qs [Hp Hq] _ IH]; cbn [polygon_points map]; [reflexivity|].
  rewrite Hp, IH. unfold read. rewrite Hq. destruct q; try discriminate Hq; reflexivity.
Qed.

(** The points before the first one that ends the loop are gone through. *)
Lemma polygon_points_first_bad (h : host) (docField : string) (before : list value)
  (bad : value) (after : list value) (r : outcome (list value)) :
  Forall (fun p => exists q, convertGeopoint h p = inr q /\ nullish q = false) before ->
  (forall rest, polygon_points h docField (bad :: rest) = r) ->
  (forall pts, r <> Resolved pts) ->
  polygon_points h docField (before ++ bad :: after) = r.
Proof.
  induction 1 as [|p before (q & Hp & Hq) _ IH]; intros Hbad Hr; cbn [app].
  - apply Hbad.
  - cbn [polygon_points]. rewrite Hp, (IH Hbad Hr). unfold read. rewrite Hq.
    destruct q; try discriminate Hq; destruct r; try reflexivity;
      exfalso; eapply Hr; reflexivity.
Qed.

Lemma standardize_geoPolygon (h : host) (o1 o2 o3 o4 : origin) (doc : string)
  (attrs : list (string * value)) (p : value) (points : list value) :
  lookup "points" attrs = VArr o4 (p :: points) ->
  standardize h (VObj o1 [("geoPolygon", VObj o2 [(doc, VObj o3 attrs)])])
  = (if Nat.ltb (List.length (p :: points)) 3
     then reject (quoted ("geoPolygon." ++ doc)
                  ++ ": at least 3 points are required to build a polygon")
     else
       match polygon_points h doc (p :: points) with
       | Resolved pts =>
           Resolved (VObj Fresh [("geospatial",
             VObj Fresh [("geoPolygon", VObj Fresh [(doc, VArr Fresh pts)])])])
       | Rejected e | Thrown e => Rejected e
       end, []).
Proof.
  intros Hpoints.
  rewrite (standardize_keyword h o1 "geoPolygon" _ m_geoPolygon eq_refl).
  unfold invoke, pure_, geoPolygon. rewrite get_prop_single.
  cbn [mustBeNonEmptyObject map fst then_ onlyOneFieldAttribute List.length Nat.ltb Nat.leb
       first_key hd].
  rewrite get_prop_single.
  unfold requireAttribute, mustBeNonEmptyArray, read. cbn [nullish seq_ get_prop].
  rewrite Hpoints. cbn [truthy negb then_ items_of].
  destruct points as [|p2 [|p3 points]]; try reflexivity.
  change (Nat.ltb (List.length (p :: p2 :: p3 :: points)) 3) with false. cbv iota.
  destruct (polygon_points h doc (p :: p2 :: p3 :: points)); reflexivity.
Qed.

(** X15: [geoPolygon] takes the [points] of its single field (whatever
    other attributes the field holds).  With fewer than three points the
    filter is rejected; with three or more, the points are converted in
    order and the first one that [convertGeopoint] does not turn into a
    point ends the loop: the answer [null] rejects the filter with an error
    that quotes the point, an exception of [convertGeopoint] rejects the
    promise as it is, and the answer [undefined] rejects it with the
    [TypeError] of reading [point.lat].  When all are converted the result
    is the new [{geospatial: {geoPolygon: {<field>: [[lat, lon], ...]}}}]
    with one pair per point, in the order of the points.  A field that holds
    [null] makes the promise reject with a [TypeError] of the engine, and a
    content with two fields or more is rejected with the message of
    [geoBoundingBox]. *)
Theorem geoPolygon_converts_points_in_order (h : host) (o1 o2 o3 o4 : origin)
  (doc : string) (attrs : list (string * value)) (points : list value) :
  lookup "points" attrs = VArr o4 points ->
  let filter := VObj o1 [("geoPolygon", VObj o2 [(doc, VObj o3 attrs)])] in
  let converted p := exists q, convertGeopoint h p = inr q /\ nullish q = false in
  (forall qs,
     3 <= List.length points ->
     Forall2 (fun p q => convertGeopoint h p = inr q /\ nullish q = false) points qs ->
     standardize h filter
     = (Resolved (VObj Fresh [("geospatial",
          VObj Fresh [("geoPolygon",
            VObj Fresh [(doc, VArr Fresh
              (map (fun q => VArr Fresh [get_prop q "lat"; get_prop q "lon"]) qs))])])]),
        []))
  /\ (forall before bad after,
        3 <= List.length points ->
        points = (before ++ bad :: after)%list ->
        Forall converted before ->
        (convertGeopoint h bad = inr VNull ->
         standardize h filter
         = (reject ("geoPolygon." ++ doc ++ ": unrecognized point format ("
                    ++ JSON_stringify h bad ++ ")"), []))
        /\ (forall e, convertGeopoint h bad = inl e ->
                      standardize h filter = (Rejected e, []))
        /\ (convertGeopoint h bad = inr VUndef ->
            standardize h filter = (Rejected TypeError, [])))
  /\ (0 < List.length points < 3 ->
      standardize h filter
      = (reject (quoted ("geoPolygon." ++ doc)
                 ++ ": at least 3 points are required to build a polygon"), []))
  /\ standardize h (VObj o1 [("geoPolygon", VObj o2 [(doc, VNull)])])
     = (Rejected TypeError, [])
  /\ (forall kv1 kv2 rest,
        standardize h (VObj o1 [("geoPolygon", VObj o2 (kv1 :: kv2 :: rest))])
        = (reject (quoted "geoBoundingBox" ++ " can contain only one attribute"), [])).
Proof.
  intros Hpoints filter converted. unfold filter, converted.
  split; [|split; [|split; [|split]]].
  - intros qs Hlen Hqs. destruct points as [|p points]; [cbn in Hlen; lia|].
    rewrite (standardize_geoPolygon h o1 o2 o3 o4 doc attrs p points Hpoints).
    apply Nat.ltb_ge in Hlen. rewrite Hlen.
    rewrite (polygon_points_converted h doc _ qs Hqs). reflexivity.
  - intros before bad after Hlen Heq Hbefore.
    destruct points as [|p points]; [cbn in Hlen; lia|].
    rewrite (standardize_geoPolygon h o1 o2 o3 o4 doc attrs p points Hpoints).
    apply Nat.ltb_ge in Hlen. rewrite Hlen. rewrite Heq.
    split; [|split].
    + intros Hbad.
      rewrite (polygon_points_first_bad h doc before bad after
                 (reject ("geoPolygon." ++ doc ++ ": unrecognized point format ("
                          ++ JSON_stringify h bad ++ ")")) Hbefore).
      * reflexivity.
      * intros rest. cbn [polygon_points]. rewrite Hbad. reflexivity.
      * discriminate.
    + intros e Hbad.
      rewrite (polygon_points_first_bad h doc before bad after (Thrown e) Hbefore).
      * reflexivity.
      * intros rest. cbn [polygon_points]. rewrite Hbad. reflexivity.
      * discriminate.
    + intros Hbad.
      rewrite (polygon_points_first_bad h doc before bad after (Thrown TypeError) Hbefore).
      * reflexivity.
      * intros rest. cbn [polygon_points]. rewrite Hbad. reflexivity.
      * discriminate.
  - intros [Hpos Hlen]. destruct points as [|p points]; [cbn in Hpos; lia|].
    rewrite (standardize_geoPolygon h o1 o2 o3 o4 doc attrs p points Hpoints).
    apply Nat.ltb_lt in Hlen. rewrite Hlen. reflexivity.
  - rewrite (standardize_keyword h o1 "geoPolygon" _ m_geoPolygon eq_refl).
    unfold invoke, pure_, geoPolygon. rewrite get_prop_single.
    cbn [mustBeNonEmptyObject map fst then_ onlyOneFieldAttribute List.length Nat.ltb Nat.leb
         first_key hd].
    rewrite get_prop_single. reflexivity.
  - intros kv1 kv2 rest.
    rewrite (standardize_keyword h o1 "geoPolygon" _ m_geoPolygon eq_refl).
    unfold invoke, pure_, geoPolygon. rewrite get_prop_single. reflexivity.
Qed.

Lemma geoPolygon_converts_points_in_order_witness :
  standardize geo_host
    (obj [("geoPolygon",
           obj [("area", obj [("points", arr [obj [("lat", num 1); ("lon", num 2)];
                                              obj [("lat", num 3); ("lon", num 4)];
                                              obj [("lat", num 5); ("lon", num 6)]])])])])
  = (Resolved (VObj Fresh [("geospatial",
       VObj Fresh [("geoPolygon",
         VObj Fresh [("area", VArr Fresh [VArr Fresh [VNum 1; VNum 2];
                                          VArr Fresh [VNum 3; VNum 4];
                                          VArr Fresh [VNum 5; VNum 6]])])])]), []).
Proof.
  apply (proj1 (geoPolygon_converts_points_in_order geo_host Input Input Input Input "area"
                  [("points", arr [obj [("lat", num 1); ("lon", num 2)];
                                   obj [("lat", num 3); ("lon", num 4)];
                                   obj [("lat", num 5); ("lon", num 6)]])]
                  _ eq_refl)
           [VObj Fresh [("lat", VNum 1); ("lon", VNum 2)];
            VObj Fresh [("lat", VNum 3); ("lon", VNum 4)];
            VObj Fresh [("lat", VNum 5); ("lon", VNum 6)]]%float).
  - cbn. lia.
  - repeat constructor.
Defined.

(** ** [and] and [or]: the checks made before any child is standardized *)

Lemma bad_item_first (before : list value) (bad : value) (after : list value) :
  forallb filter_object before = true ->
  filter_object bad = false ->
  bad_item (before ++ bad :: after)
  = match bad with
    | VNull => Thrown TypeError
    | _ => Resolved true
    end.
Proof.
  induction before as [|x before IH]; cbn [forallb app bad_item]; intros Hb Hbad.
  - destruct bad as [| | | | | |o [|kv fields]]; try reflexivity. discriminate Hbad.
  - apply andb_true_iff in Hb. destruct Hb as [Hx Hb].
    destruct x as [| | | | | |o [|kv fields]]; try discriminate Hx.
    cbn [typeof String.eqb Ascii.eqb Bool.eqb negb isArray orb keys seq_ map List.length
         Nat.eqb].
    apply IH; assumption.
Qed.

(** X16: [and] and [or] check their whole array before they standardize
    any of its items.  When an item is not a non-array, non-empty object the
    filter is rejected with the error of the combinator, whatever the other
    items are (no item is standardized, nothing is written); when that item
    is [null] the promise is rejected with a [TypeError] of the engine
    instead.  An operand that is not an array, or is an empty array, is
    rejected before that. *)
Theorem array_items_checked_before_children (h : host) (operand : string) (o1 o2 : origin)
  (before : list value) (bad : value) (after : list value) :
  operand = "and" \/ operand = "or" ->
  forallb filter_object before = true ->
  filter_object bad = false ->
  standardize h (VObj o1 [(operand, VArr o2 (before ++ bad :: after))])
  = (match bad with
     | VNull => Rejected TypeError
     | _ => reject (quoted operand ++ " operand can only contain non-empty objects")
     end, [])
  /\ standardize h (VObj o1 [(operand, VArr o2 [])])
     = (reject ("Attribute " ++ quoted operand ++ " in  " ++ quoted operand
                ++ " cannot be empty"), [])
  /\ (forall v, isArray v = false ->
        standardize h (VObj o1 [(operand, v)])
        = (reject ("Attribute " ++ quoted operand ++ " in " ++ quoted operand
                   ++ " must be an array"), [])).
Proof.
  intros Hop Hbefore Hbad.
  assert (Hsfa : _standardizeFilterArray h (standardize h)
                   (VObj o1 [(operand, VArr o2 (before ++ bad :: after))]) operand
                 = (match bad with
                    | VNull => Thrown TypeError
                    | _ => reject (quoted operand
                                   ++ " operand can only contain non-empty objects")
                    end, [])).
  { unfold _standardizeFilterArray. rewrite get_prop_single. cbn [keys elements].
    rewrite (bad_item_first before bad after Hbefore Hbad).
    destruct bad; reflexivity. }
  assert (Hne : exists x items, (before ++ bad :: after)%list = x :: items)
    by (destruct before; cbn [app]; eauto).
  destruct Hne as (x & items & Hne). rewrite Hne in *.
  destruct Hop as [-> | ->].
  - rewrite !(standardize_keyword h o1 "and" _ m_and eq_refl). cbn [invoke]. unfold and_.
    cbn [or_default]. unfold mustBeNonEmptyArray, read. cbn [nullish seq_].
    rewrite !get_prop_single. split; [|split].
    + unfold thenW, pure_. cbn [fst snd]. rewrite Hsfa. destruct bad; reflexivity.
    + reflexivity.
    + intros v Hv. rewrite (standardize_keyword h o1 "and" _ m_and eq_refl). cbn [invoke].
      unfold and_. cbn [or_default]. unfold mustBeNonEmptyArray, read. cbn [nullish seq_].
      rewrite get_prop_single. destruct v; try discriminate Hv; reflexivity.
  - rewrite !(standardize_keyword h o1 "or" _ m_or eq_refl). cbn [invoke]. unfold or_.
    cbn [or_default]. unfold mustBeNonEmptyArray, read. cbn [nullish seq_].
    rewrite !get_prop_single. split; [|split].
    + unfold thenW, pure_. cbn [fst snd]. rewrite Hsfa. destruct bad; reflexivity.
    + reflexivity.
    + intros v Hv. rewrite (standardize_keyword h o1 "or" _ m_or eq_refl). cbn [invoke].
      unfold or_. cbn [or_default]. unfold mustBeNonEmptyArray, read. cbn [nullish seq_].
      rewrite get_prop_single. destruct v; try discriminate Hv; reflexivity.
Qed.

Lemma array_items_checked_before_children_witness :
  standardize plain_host (obj [("and", arr [exists_filter "a"; arr []; num 1])])
  = (reject (quoted "and" ++ " operand can only contain non-empty objects"), []).
Proof.
  apply (proj1 (array_items_checked_before_children plain_host "and" Input Input
                  [exists_filter "a"] (arr []) [num 1]
                  (or_introl eq_refl) eq_refl eq_refl)).
Defined.

(** ** [and] and [or]: grouping *)








(** ** [not] *)

(** X18: [not] wraps what its child standardizes to and simplifies
    nothing.  When the child passes the checks of [not] and standardizes to
    [r], [{not: child}] standardizes to the new [{not: r}]; in particular a
    double negation is kept: [{not: {not: child}}] standardizes to
    [{not: {not: r}}]. *)
Theorem not_wraps_its_child (h : host) (o o' : origin) (child r : value) :
  not_checks child = true ->
  fst (standardize h child) = Resolved r ->
  fst (standardize h (VObj o [("not", child)])) = Resolved (VObj Fresh [("not", r)])
  /\ fst (standardize h (VObj o' [("not", VObj o [("not", child)])]))
     = Resolved (VObj Fresh [("not", VObj Fresh [("not", r)])]).
Proof.
  intros Hc Hr.
  assert (Hone : fst (standardize h (VObj o [("not", child)]))
                 = Resolved (VObj Fresh [("not", r)]))
    by (rewrite (standardize_not h o child Hc), Hr; reflexivity).
  split; [exact Hone|].
  assert (Hobj : not_checks (VObj o [("not", child)]) = true).
  { destruct child as [| | | | | |oc [|kv fields]]; try discriminate Hc. reflexivity. }
  rewrite (standardize_not h o' _ Hobj), Hone. reflexivity.
Qed.

Lemma not_wraps_its_child_witness :
  fst (standardize plain_host (obj [("not", obj [("not", exists_filter "a")])]))
  = Resolved (VObj Fresh [("not", VObj Fresh [("not", exists_filter "a")])]).
Proof.
  apply (proj2 (not_wraps_its_child plain_host Input Input (exists_filter "a")
                  (exists_filter "a") eq_refl eq_refl)).
Defined.

(** ** [bool] *)

Lemma thenW_resolved_fst {A B : Type} (p : outcome A * log) (f : A -> outcome B * log)
  (a : A) (b : B) :
  fst p = Resolved a -> fst (f a) = Resolved b -> fst (thenW p f) = Resolved b.
Proof.
  intros Hp Hf. unfold thenW. rewrite Hp. cbn [fst]. rewrite Hf. reflexivity.
Qed.

Lemma spread_not_array (v : value) : isArray v = false -> spread v = [v].
Proof.
  destruct v; try reflexivity. discriminate.
Qed.

Lemma add_clause_node (h : host) (o oa : origin) (items : list value) (flag cl : value) :
  isArray cl = false ->
  fst (add_clause h (VObj o [("and", VArr oa items); ("_isLeaf", flag)]) cl)
  = Resolved (VObj o [("and", VArr Fresh (items ++ [cl])); ("_isLeaf", VBool false)]).
Proof.
  intros Hcl. unfold add_clause.
  cbn [lookup String.eqb Ascii.eqb Bool.eqb assign fst].
  rewrite (spread_not_array cl Hcl). reflexivity.
Qed.

Lemma bool_last_node (o oa : origin) (items : list value) (flag : value) :
  bool_last (VObj o [("and", VArr oa items); ("_isLeaf", flag)])
  = Resolved (match items with
              | [only] => only
              | _ => VObj o [("and", VArr oa items); ("_isLeaf", flag)]
              end).
Proof.
  unfold bool_last, read.
  cbn [nullish seq_ get_prop lookup String.eqb Ascii.eqb Bool.eqb length_is].
  destruct items as [|x [|y l]]; reflexivity.
Qed.

Lemma clause_fst (h : host) (call : value -> run) (operand : string) (attribute : value)
  (c : option value) :
  (forall f, call (VObj Fresh [(operand, f)]) = standardize h (VObj Fresh [(operand, f)])) ->
  clause_outcome h operand attribute c ->
  fst (clause call operand attribute)
  = Resolved (match c with Some f => f | None => VNull end).
Proof.
  intros Hcall [Ha|f Ha Hf _ _]; unfold clause; rewrite Ha.
  - reflexivity.
  - rewrite Hcall. exact Hf.
Qed.

(** One clause of [bool] and the statements that add it to [standardized]. *)
Lemma bool_step (h : host) (call : value -> run) (operand : string) (attribute : value)
  (c : option value) (wrap : value -> value) (o oa : origin) (items : list value)
  (flag : value) (k : value -> run) (r : value) :
  (forall f, call (VObj Fresh [(operand, f)]) = standardize h (VObj Fresh [(operand, f)])) ->
  clause_outcome h operand attribute c ->
  (forall f, isArray f = false -> isArray (wrap f) = false) ->
  fst (k (match c with
          | None => VObj o [("and", VArr oa items); ("_isLeaf", flag)]
          | Some f => VObj o [("and", VArr Fresh (items ++ [wrap f])); ("_isLeaf", VBool false)]
          end)) = Resolved r ->
  fst (thenW (clause call operand attribute)
         (fun f =>
            thenW (if truthy f
                   then add_clause h (VObj o [("and", VArr oa items); ("_isLeaf", flag)])
                          (wrap f)
                   else pure_ (Resolved (VObj o [("and", VArr oa items); ("_isLeaf", flag)])))
                  k)) = Resolved r.
Proof.
  intros Hcall Hc Hwrap Hk.
  apply (thenW_resolved_fst _ _ _ _ (clause_fst h call operand attribute c Hcall Hc)).
  destruct Hc as [Ha|f Ha Hf Ht Harr].
  - cbn [truthy].
    apply (thenW_resolved_fst
             (pure_ (Resolved (VObj o [("and", VArr oa items); ("_isLeaf", flag)]))) k
             _ _ eq_refl).
    exact Hk.
  - rewrite Ht.
    apply (thenW_resolved_fst _ _ _ _ (add_clause_node h o oa items flag (wrap f)
                                          (Hwrap f Harr))).
    exact Hk.
Qed.

Lemma standardize_and_call (h : host) (f : value) :
  and_ h (standardize h) (VObj Fresh [("and", f)]) None
  = standardize h (VObj Fresh [("and", f)]).
Proof.
  rewrite (standardize_keyword h Fresh "and" _ m_and eq_refl). reflexivity.
Qed.

Lemma standardize_or_call (h : host) (f : value) :
  or_ h (standardize h) (VObj Fresh [("or", f)]) None
  = standardize h (VObj Fresh [("or", f)]).
Proof.
  rewrite (standardize_keyword h Fresh "or" _ m_or eq_refl). reflexivity.
Qed.

(** X19: what [bool] computes when its [must] clause is absent or
    standardizes to an [and] node.  The filter must hold only the
    attributes [must], [must_not], [should] and [should_not]; the falsy
    ones are skipped.  [bool] starts from the [and] node of [must] (a new
    empty one without [must]) and adds, in this order, the negation of the
    [or] over [must_not], the [or] over [should] and the negation of the
    [and] over [should_not].  It returns a single conjunct unwrapped, the
    node of [must] as it is when nothing was added, and otherwise the [and]
    node over all the conjuncts with the leaf flag [false]. *)
Theorem bool_is_conjunction_of_clauses (h : host) (o1 o2 : origin)
  (kv : string * value) (fields : list (string * value))
  (o oa : origin) (items : list value) (flag : value) (c1 c2 c3 : option value) :
  forallb (fun k => mem k ["must"; "must_not"; "should"; "should_not"])
          (map fst (kv :: fields)) = true ->
  must_outcome h (lookup "must" (kv :: fields)) o oa items flag ->
  clause_outcome h "or" (lookup "must_not" (kv :: fields)) c1 ->
  clause_outcome h "or" (lookup "should" (kv :: fields)) c2 ->
  clause_outcome h "and" (lookup "should_not" (kv :: fields)) c3 ->
  fst (standardize h (VObj o1 [("bool", VObj o2 (kv :: fields))]))
  = Resolved (bool_result o oa items flag (bool_conjuncts c1 c2 c3)).
Proof.
  intros Hattrs Hmust H1 H2 H3.
  rewrite (standardize_keyword h o1 "bool" _ m_bool eq_refl). cbn [invoke].
  unfold bool_. rewrite get_prop_single.
  set (fs := kv :: fields) in *.
  change (mustBeNonEmptyObject (VObj o2 fs) "bool") with (Resolved (map fst fs)).
  change (get_prop (VObj o2 fs) "must") with (lookup "must" fs).
  change (get_prop (VObj o2 fs) "must_not") with (lookup "must_not" fs).
  change (get_prop (VObj o2 fs) "should") with (lookup "should" fs).
  change (get_prop (VObj o2 fs) "should_not") with (lookup "should_not" fs).
  match goal with
  | |- fst (thenW ?p _) = _ =>
      assert (Hfirst : exists f0,
                fst p = Resolved f0
                /\ (if truthy f0 then f0
                    else VObj Fresh [("and", VArr Fresh []); ("_isLeaf", VBool true)])
                   = VObj o [("and", VArr oa items); ("_isLeaf", flag)])
  end.
  { destruct Hmust as [Hm|o' oa' items' flag' Hm Hf].
    - exists VNull. split; [|reflexivity].
      eapply thenW_resolved_fst; [reflexivity|].
      rewrite existsb_negb, Hattrs. cbn [negb]. unfold clause. rewrite Hm. reflexivity.
    - exists (VObj o' [("and", VArr oa' items'); ("_isLeaf", flag')]). split; [|reflexivity].
      eapply thenW_resolved_fst; [reflexivity|].
      rewrite existsb_negb, Hattrs. cbn [negb]. unfold clause. rewrite Hm.
      rewrite standardize_and_call. exact Hf. }
  destruct Hfirst as (f0 & Hfirst & Hst).
  apply (thenW_resolved_fst _ _ _ _ Hfirst). cbv zeta.
  rewrite Hst.
  apply (bool_step h _ "or" _ c1 negated o oa items flag _ _ (standardize_or_call h) H1);
    [reflexivity|].
  destruct c1 as [f1|].
  - apply (bool_step h _ "or" _ c2 (fun f => f) o Fresh _ (VBool false) _ _
             (standardize_or_call h) H2); [auto|].
    destruct c2 as [f2|].
    + apply (bool_step h _ "and" _ c3 negated o Fresh _ (VBool false) _ _
               (standardize_and_call h) H3); [reflexivity|].
      destruct c3 as [f3|]; cbn [pure_ fst]; rewrite bool_last_node;
        unfold bool_result, bool_conjuncts; cbn [app]; rewrite <- ?app_assoc; cbn [app];
        destruct items as [|x [|y l]]; reflexivity.
    + apply (bool_step h _ "and" _ c3 negated o Fresh _ (VBool false) _ _
               (standardize_and_call h) H3); [reflexivity|].
      destruct c3 as [f3|]; cbn [pure_ fst]; rewrite bool_last_node;
        unfold bool_result, bool_conjuncts; cbn [app]; rewrite <- ?app_assoc; cbn [app];
        destruct items as [|x [|y l]]; reflexivity.
  - apply (bool_step h _ "or" _ c2 (fun f => f) o oa _ flag _ _
             (standardize_or_call h) H2); [auto|].
    destruct c2 as [f2|].
    + apply (bool_step h _ "and" _ c3 negated o Fresh _ (VBool false) _ _
               (standardize_and_call h) H3); [reflexivity|].
      destruct c3 as [f3|]; cbn [pure_ fst]; rewrite bool_last_node;
        unfold bool_result, bool_conjuncts; cbn [app]; rewrite <- ?app_assoc; cbn [app];
        destruct items as [|x [|y l]]; reflexivity.
    + apply (bool_step h _ "and" _ c3 negated o oa _ flag _ _
               (standardize_and_call h) H3); [reflexivity|].
      destruct c3 as [f3|]; cbn [pure_ fst]; rewrite bool_last_node;
        unfold bool_result, bool_conjuncts; cbn [app]; rewrite ?app_nil_r;
        destruct items as [|x [|y l]]; reflexivity.
Qed.

Lemma bool_is_conjunction_of_clauses_witness :
  fst (standardize plain_host
         (obj [("bool", obj [("must", arr [exists_filter "a"; exists_filter "d"]);
                             ("must_not", arr [exists_filter "b"]);
                             ("should_not", arr [exists_filter "c"; exists_filter "e"])])]))
  = Resolved (VObj Fresh
      [("and", VArr Fresh
                 [exists_filter "a"; exists_filter "d";
                  VObj Fresh [("not", exists_filter "b")];
                  VObj Fresh [("not", node "and" [exists_filter "c"; exists_filter "e"]
                                        (VBool true))]]);
       ("_isLeaf", VBool false)]).
Proof.
  apply (bool_is_conjunction_of_clauses plain_host Input Input
           ("must", arr [exists_filter "a"; exists_filter "d"])
           [("must_not", arr [exists_filter "b"]);
            ("should_not", arr [exists_filter "c"; exists_filter "e"])]
           Fresh Fresh [exists_filter "a"; exists_filter "d"] (VBool true)
           (Some (exists_filter "b")) None
           (Some (node "and" [exists_filter "c"; exists_filter "e"] (VBool true)))).
  - reflexivity.
  - apply must_present; reflexivity.
  - apply clause_present; reflexivity.
  - apply clause_absent. reflexivity.
  - apply clause_present; reflexivity.
Defined.

Lemma thenW_fst {A B : Type} (p : outcome A * log) (f : A -> outcome B * log) :
  fst (thenW p f)
  = match fst p with
    | Resolved a =>
        match fst (f a) with
        | Thrown e => Rejected e
        | x => x
        end
    | Rejected e => Rejected e
    | Thrown e => Thrown e
    end.
Proof.
  unfold thenW. destruct (fst p); reflexivity.
Qed.








Lemma lookup_falsy (fields : list (string * value)) (k : string) :
  forallb (fun kv => negb (truthy (snd kv))) fields = true ->
  truthy (lookup k fields) = false.
Proof.
  induction fields as [|[k' v] l IH]; intros Hfalsy; [reflexivity|].
  cbn [forallb snd] in Hfalsy. apply andb_true_iff in Hfalsy. destruct Hfalsy as [Hv Hl].
  cbn [lookup]. destruct (String.eqb k k'); [|exact (IH Hl)].
  apply negb_true_iff in Hv. exact Hv.
Qed.

(** X21: a [bool] whose attributes are all falsy (as in [{bool: {must:
    null}}]) is accepted and standardizes to a new [and] node without any
    child, flagged as a leaf; nothing is written. *)
Theorem bool_without_clause_is_empty_and (h : host) (o1 o2 : origin)
  (kv : string * value) (fields : list (string * value)) :
  forallb (fun k => mem k ["must"; "must_not"; "should"; "should_not"])
          (map fst (kv :: fields)) = true ->
  forallb (fun kv => negb (truthy (snd kv))) (kv :: fields) = true ->
  standardize h (VObj o1 [("bool", VObj o2 (kv :: fields))])
  = (Resolved (node "and" [] (VBool true)), []).
Proof.
  intros Hattrs Hfalsy.
  pose proof (fun k => lookup_falsy (kv :: fields) k Hfalsy) as Hlookup.
  rewrite (standardize_keyword h o1 "bool" _ m_bool eq_refl). cbn [invoke].
  unfold bool_, clause. rewrite get_prop_single.
  set (fs := kv :: fields) in *.
  change (mustBeNonEmptyObject (VObj o2 fs) "bool") with (Resolved (map fst fs)).
  change (get_prop (VObj o2 fs) "must") with (lookup "must" fs).
  change (get_prop (VObj o2 fs) "must_not") with (lookup "must_not" fs).
  change (get_prop (VObj o2 fs) "should") with (lookup "should" fs).
  change (get_prop (VObj o2 fs) "should_not") with (lookup "should_not" fs).
  rewrite !Hlookup.
  unfold thenW at 2. cbn [pure_ fst snd]. rewrite existsb_negb, Hattrs. cbn [negb fst snd].
  reflexivity.
Qed.

Lemma bool_without_clause_is_empty_and_witness :
  standardize plain_host (obj [("bool", obj [("must", VNull)])])
  = (Resolved (node "and" [] (VBool true)), []).
Proof.
  apply (bool_without_clause_is_empty_and plain_host Input Input ("must", VNull) []);
    reflexivity.
Defined.

(** ** Propagation of errors, and the order of the checks *)

Lemma last_error_app (l1 l2 : list exn) :
  last_error (l1 ++ l2)
  = match last_error l2 with
    | Some e => Some e
    | None => last_error l1
    end.
Proof.
  unfold last_error. rewrite rev_app_distr. destruct (rev l2) as [|e l]; reflexivity.
Qed.

Section RangeErrors.

Variables (rangeField : string) (obj : value).

(** One round of the loop of [range]: [high] and [low] tell which sides are
    bounded, and a violation replaces the error met before. *)
Lemma range_step_violations (seen : list string) (st : bounds) (k : string) :
  (number_of (get_prop obj k) =? infinity)%float = false ->
  (number_of (get_prop obj k) =? neg_infinity)%float = false ->
  negb (high st =? infinity)%float = existsb (String.prefix "lt") seen ->
  negb (low st =? neg_infinity)%float = existsb (String.prefix "gt") seen ->
  negb (high (range_step rangeField obj st k) =? infinity)%float
  = existsb (String.prefix "lt") (seen ++ [k])
  /\ negb (low (range_step rangeField obj st k) =? neg_infinity)%float
     = existsb (String.prefix "gt") (seen ++ [k])
  /\ error (range_step rangeField obj st k)
     = match last_error (bound_violations rangeField seen k) with
       | Some e => Some e
       | None => error st
       end.
Proof.
  intros Hinf Hneg Hhigh Hlow.
  rewrite !existsb_app. cbn [existsb]. rewrite !orb_false_r.
  unfold range_step, bound_violations.
  destruct (String.prefix "lt" k) eqn:Elt.
  - rewrite (prefix_lt_not_gt k Elt). cbn [andb app]. rewrite orb_false_r.
    rewrite Hhigh. destruct (existsb (String.prefix "lt") seen) eqn:E.
    + cbn [high low error]. rewrite Hhigh, Hlow. repeat split; reflexivity.
    + cbn [high low error]. rewrite Hinf, Hlow. repeat split; reflexivity.
  - cbn [andb app]. rewrite orb_false_r.
    destruct (String.prefix "gt" k) eqn:Egt.
    + cbn [andb]. rewrite Hlow. destruct (existsb (String.prefix "gt") seen) eqn:E.
      * cbn [high low error]. rewrite Hhigh, Hlow. repeat split; reflexivity.
      * cbn [high low error]. rewrite Hhigh, Hneg. repeat split; reflexivity.
    + cbn [andb]. rewrite orb_false_r. rewrite Hhigh, Hlow. repeat split; reflexivity.
Qed.

(** The loop ends with the last violation it met. *)
Lemma range_loop_errors (todo seen : list string) (st : bounds) :
  (forall k, In k todo ->
     (number_of (get_prop obj k) =? infinity)%float = false
     /\ (number_of (get_prop obj k) =? neg_infinity)%float = false) ->
  negb (high st =? infinity)%float = existsb (String.prefix "lt") seen ->
  negb (low st =? neg_infinity)%float = existsb (String.prefix "gt") seen ->
  error (fold_left (range_step rangeField obj) todo st)
  = match last_error (duplicate_bounds rangeField seen todo) with
    | Some e => Some e
    | None => error st
    end.
Proof.
  revert seen st. induction todo as [|k todo IH]; intros seen st Hks Hhigh Hlow.
  - reflexivity.
  - cbn [fold_left duplicate_bounds].
    destruct (Hks k (or_introl eq_refl)) as [Hinf Hneg].
    destruct (range_step_violations seen st k Hinf Hneg Hhigh Hlow) as (H1 & H2 & H3).
    rewrite (IH (seen ++ [k])%list _ (fun x Hx => Hks x (or_intror Hx)) H1 H2).
    rewrite last_error_app, H3.
    destruct (last_error (duplicate_bounds rangeField (seen ++ [k]) todo)); reflexivity.
Qed.

End RangeErrors.

(** A range filter over finite numeric bounds fails with the last violation
    its loop meets. *)
Lemma range_last_violation (h : host) (o1 o2 o3 : origin) (field : string)
  (bs : list (string * value)) (e : exn) :
  forallb range_attribute bs = true ->
  forallb bounded bs = true ->
  NoDup (map fst bs) ->
  last_error (duplicate_bounds field [] (map fst bs)) = Some e ->
  fst (standardize h (range_filter o1 o2 o3 field bs)) = Rejected e.
Proof.
  intros Hattr Hbounded Hnd Hlast.
  destruct bs as [|kv bs']; [discriminate Hlast|].
  rewrite standardize_range. set (bs := kv :: bs') in *. unfold range_values.
  assert (Hobj : get_prop (get_prop (range_filter o1 o2 o3 field bs) "range") field
                 = VObj o3 bs).
  { unfold range_filter. cbn [get_prop lookup String.eqb Ascii.eqb Bool.eqb].
    rewrite String.eqb_refl. reflexivity. }
  rewrite Hobj, (range_keys_known bs Hattr Hnd), (range_keys_numbers bs Hattr Hnd).
  assert (Hkeys : forall k, In k (map fst bs) ->
    (number_of (get_prop (VObj o3 bs) k) =? infinity)%float = false
    /\ (number_of (get_prop (VObj o3 bs) k) =? neg_infinity)%float = false).
  { intros k Hk. destruct (range_key bs Hattr Hnd k Hk) as (_ & x & Hx & Hin).
    cbn [get_prop]. rewrite Hx.
    pose proof (proj1 (forallb_forall _ _) Hbounded _ Hin) as Hb.
    unfold bounded in Hb. cbn [snd number_of] in *.
    apply andb_true_iff in Hb. destruct Hb as [H1 H2].
    apply negb_true_iff in H1, H2. split; assumption. }
  unfold range_bounds.
  rewrite (range_loop_errors field (VObj o3 bs) (map fst bs) []
             {| high := infinity; low := neg_infinity; error := None |}
             Hkeys eq_refl eq_refl).
  rewrite Hlast. reflexivity.
Qed.

Lemma thenW_failure (p : run) (f : value -> run) (e : exn) :
  failure p = Some e -> failure (thenW p f) = Some e.
Proof.
  unfold failure. rewrite thenW_fst. destruct (fst p); congruence.
Qed.

Lemma thenW_callback_failure (p : run) (f : value -> run) (a : value) (e : exn) :
  fst p = Resolved a -> failure (f a) = Some e -> fst (thenW p f) = Rejected e.
Proof.
  intros Hp. unfold failure. rewrite thenW_fst, Hp. destruct (fst (f a)); congruence.
Qed.

Lemma clause_failure (h : host) (call : value -> run) (operand : string) (attribute : value)
  (e : exn) :
  (forall f, call (VObj Fresh [(operand, f)]) = standardize h (VObj Fresh [(operand, f)])) ->
  truthy attribute = true ->
  failure (standardize h (VObj Fresh [(operand, attribute)])) = Some e ->
  failure (clause call operand attribute) = Some e.
Proof.
  intros Hcall Ht Hf. unfold clause. rewrite Ht, Hcall. exact Hf.
Qed.

(** A clause of [bool] that standardizes passes on to the rest of the
    chain, and the failure of the rest is the failure of the whole. *)
Lemma bool_step_failure (h : host) (call : value -> run) (operand : string)
  (attribute : value) (c : option value) (wrap : value -> value) (o oa : origin)
  (items : list value) (flag : value) (k : value -> run) (e : exn) :
  (forall f, call (VObj Fresh [(operand, f)]) = standardize h (VObj Fresh [(operand, f)])) ->
  clause_outcome h operand attribute c ->
  (forall f, isArray f = false -> isArray (wrap f) = false) ->
  failure (k (match c with
              | None => VObj o [("and", VArr oa items); ("_isLeaf", flag)]
              | Some f => VObj o [("and", VArr Fresh (items ++ [wrap f]));
                                  ("_isLeaf", VBool false)]
              end)) = Some e ->
  failure (thenW (clause call operand attribute)
             (fun f =>
                thenW (if truthy f
                       then add_clause h (VObj o [("and", VArr oa items); ("_isLeaf", flag)])
                              (wrap f)
                       else pure_ (Resolved (VObj o [("and", VArr oa items);
                                                     ("_isLeaf", flag)])))
                      k)) = Some e.
Proof.
  intros Hcall Hc Hwrap Hk.
  assert (Hrejected : forall r : run, fst r = Rejected e -> failure r = Some e)
    by (intros r Hr; unfold failure; rewrite Hr; reflexivity).
  apply Hrejected.
  apply (thenW_callback_failure _ _ _ e (clause_fst h call operand attribute c Hcall Hc)).
  apply Hrejected.
  destruct Hc as [Ha|f Ha Hf Ht Harr].
  - cbn [truthy].
    apply (thenW_callback_failure
             (pure_ (Resolved (VObj o [("and", VArr oa items); ("_isLeaf", flag)]))) k
             _ e eq_refl).
    exact Hk.
  - rewrite Ht.
    apply (thenW_callback_failure _ _ _ e
             (add_clause_node h o oa items flag (wrap f) (Hwrap f Harr))).
    exact Hk.
Qed.

(** In a [bool] the clauses are standardized in the order [must],
    [must_not], [should], [should_not]: the first one that fails gives its
    error to the whole. *)
Lemma bool_first_failure (h : host) (o1 o2 : origin) (kv : string * value)
  (fields : list (string * value)) (o oa : origin) (items : list value) (flag : value)
  (c1 c2 : option value) (e : exn) :
  let fs := kv :: fields in
  let fails operand attribute :=
    truthy (lookup attribute fs) = true
    /\ failure (standardize h (VObj Fresh [(operand, lookup attribute fs)])) = Some e in
  forallb (fun k => mem k ["must"; "must_not"; "should"; "should_not"]) (map fst fs) = true ->
  fails "and" "must"
  \/ must_outcome h (lookup "must" fs) o oa items flag
     /\ (fails "or" "must_not"
         \/ clause_outcome h "or" (lookup "must_not" fs) c1
            /\ (fails "or" "should"
                \/ clause_outcome h "or" (lookup "should" fs) c2
                   /\ fails "and" "should_not")) ->
  fst (standardize h (VObj o1 [("bool", VObj o2 fs)])) = Rejected e.
Proof.
  intros fs fails Hattrs Hcases. unfold fails in Hcases. clear fails.
  rewrite (standardize_keyword h o1 "bool" _ m_bool eq_refl). cbn [invoke].
  unfold bool_. rewrite get_prop_single.
  change (mustBeNonEmptyObject (VObj o2 fs) "bool") with (Resolved (map fst fs)).
  change (get_prop (VObj o2 fs) "must") with (lookup "must" fs).
  change (get_prop (VObj o2 fs) "must_not") with (lookup "must_not" fs).
  change (get_prop (VObj o2 fs) "should") with (lookup "should" fs).
  change (get_prop (VObj o2 fs) "should_not") with (lookup "should_not" fs).
  destruct Hcases as [[Ht Hf] | [Hmust Hcases]].
  { (* the [must] clause fails *)
    apply thenW_rejected. rewrite thenW_fst. cbn [pure_ fst].
    rewrite existsb_negb, Hattrs. cbn [negb].
    pose proof (clause_failure h (fun f => and_ h (standardize h) f None) "and" _ e
                  (standardize_and_call h) Ht Hf) as Hc.
    unfold failure in Hc.
    destruct (fst (clause _ "and" (lookup "must" fs))); congruence. }
  match goal with
  | |- fst (thenW ?p _) = _ =>
      assert (Hfirst : exists f0,
                fst p = Resolved f0
                /\ (if truthy f0 then f0
                    else VObj Fresh [("and", VArr Fresh []); ("_isLeaf", VBool true)])
                   = VObj o [("and", VArr oa items); ("_isLeaf", flag)])
  end.
  { destruct Hmust as [Hm|o' oa' items' flag' Hm Hf].
    - exists VNull. split; [|reflexivity].
      eapply thenW_resolved_fst; [reflexivity|].
      rewrite existsb_negb, Hattrs. cbn [negb]. unfold clause. rewrite Hm. reflexivity.
    - exists (VObj o' [("and", VArr oa' items'); ("_isLeaf", flag')]). split; [|reflexivity].
      eapply thenW_resolved_fst; [reflexivity|].
      rewrite existsb_negb, Hattrs. cbn [negb]. unfold clause. rewrite Hm.
      rewrite standardize_and_call. exact Hf. }
  destruct Hfirst as (f0 & Hfirst & Hst).
  apply (thenW_callback_failure _ _ _ e Hfirst). cbv zeta. rewrite Hst.
  destruct Hcases as [[Ht Hf] | [H1 Hcases]].
  { (* the [must_not] clause fails *)
    apply thenW_failure.
    exact (clause_failure h (fun f => or_ h (standardize h) f None) "or" _ e
             (standardize_or_call h) Ht Hf). }
  apply (bool_step_failure h _ "or" _ c1 negated o oa items flag _ e
           (standardize_or_call h) H1); [reflexivity|].
  destruct Hcases as [[Ht Hf] | [H2 [Ht Hf]]].
  { (* the [should] clause fails *)
    apply thenW_failure.
    exact (clause_failure h (fun f => or_ h (standardize h) f None) "or" _ e
             (standardize_or_call h) Ht Hf). }
  (* the [should_not] clause fails *)
  destruct c1 as [f1|].
  - apply (bool_step_failure h _ "or" _ c2 (fun f => f) o Fresh _ (VBool false) _ e
             (standardize_or_call h) H2); [auto|].
    apply thenW_failure.
    exact (clause_failure h (fun f => and_ h (standardize h) f None) "and" _ e
             (standardize_and_call h) Ht Hf).
  - apply (bool_step_failure h _ "or" _ c2 (fun f => f) o oa _ flag _ e
             (standardize_or_call h) H2); [auto|].
    apply thenW_failure.
    exact (clause_failure h (fun f => and_ h (standardize h) f None) "and" _ e
             (standardize_and_call h) Ht Hf).
Qed.

(** The validator of a keyword starts with the check on the content of the
    keyword, whatever the content holds. *)
Lemma content_checked_first (h : host) (k : string) (o : origin) (c : value) :
  In k object_keywords ->
  filter_object c = false ->
  standardize h (VObj o [(k, c)]) = (reject (quoted k ++ " must be a non-empty object"), []).
Proof.
  intros Hin Hc. unfold object_keywords in Hin. cbn [In] in Hin.
  repeat (destruct Hin as [<- | Hin]); try contradiction;
    (erewrite standardize_keyword by reflexivity);
    destruct c as [| | | | | |o' [|kv fs]]; try discriminate Hc; reflexivity.
Qed.

Lemma array_checked_first (h : host) (operand : string) (o : origin) (c : value) :
  operand = "and" \/ operand = "or" ->
  isArray c = false ->
  standardize h (VObj o [(operand, c)])
  = (reject ("Attribute " ++ quoted operand ++ " in " ++ quoted operand
             ++ " must be an array"), []).
Proof.
  intros [-> | ->] Hc;
    (erewrite standardize_keyword by reflexivity);
    destruct c; try discriminate Hc; reflexivity.
Qed.

Lemma single_field_checked_second (h : host) (k : string) (o o' : origin)
  (kv1 kv2 : string * value) (rest : list (string * value)) :
  In k single_field_keywords ->
  standardize h (VObj o [(k, VObj o' (kv1 :: kv2 :: rest))])
  = (reject (quoted k ++ " can contain only one attribute"), []).
Proof.
  intros Hin. unfold single_field_keywords in Hin. cbn [In] in Hin.
  repeat (destruct Hin as [<- | Hin]); try contradiction;
    (erewrite standardize_keyword by reflexivity); reflexivity.
Qed.

(** C8, amended: errors go up through the combinators unchanged, once the
    combinator's own checks on its content are passed and in the order of
    evaluation.  A [not] whose child passes the checks of [not] fails with
    the error of its child.  An [and] or [or] over non-array, non-empty
    objects fails with the error of the first child that throws, even after
    a child whose promise is rejected, and when none throws with the error
    of the first child whose promise is rejected (the children before it
    resolving to values).  A [bool] standardizes its
    clauses in the order [must], [must_not], [should], [should_not] and
    fails with the error of the first clause that fails, the clauses before
    it having standardized ([must] to an [and] node).  Every validator
    checks the content of its keyword first, whatever the content holds: a
    non-empty object for the leaf predicates, [not] and [bool], an array for
    [and] and [or]; the validators of a single field then reject a content
    with several attributes.  The loop of [range] over finite numeric bounds
    does not stop at the first bound that comes second on its side: it goes
    through all the bounds and the filter fails with the last such
    violation. *)
Theorem errors_propagate_unchanged (h : host) :
  (forall o child e,
     not_checks child = true ->
     failure (standardize h child) = Some e ->
     fst (standardize h (VObj o [("not", child)])) = Rejected e)
  /\ (forall operand o1 o2 before c after e,
        operand = "and" \/ operand = "or" ->
        forallb filter_object (before ++ c :: after) = true ->
        Forall (never_throws h) (before ++ c :: after) ->
        Forall (resolves h) before ->
        fst (standardize h c) = Rejected e ->
        fst (standardize h (VObj o1 [(operand, VArr o2 (before ++ c :: after))]))
        = Rejected e)
  /\ (forall operand o1 o2 before c after e,
        operand = "and" \/ operand = "or" ->
        forallb filter_object (before ++ c :: after) = true ->
        Forall (never_throws h) before ->
        fst (standardize h c) = Thrown e ->
        fst (standardize h (VObj o1 [(operand, VArr o2 (before ++ c :: after))]))
        = Rejected e)
  /\ (forall o1 o2 kv fields o oa items flag c1 c2 e,
        let fs := kv :: fields in
        let fails operand attribute :=
          truthy (lookup attribute fs) = true
          /\ failure (standardize h (VObj Fresh [(operand, lookup attribute fs)])) = Some e in
        forallb (fun k => mem k ["must"; "must_not"; "should"; "should_not"]) (map fst fs)
        = true ->
        fails "and" "must"
        \/ must_outcome h (lookup "must" fs) o oa items flag
           /\ (fails "or" "must_not"
               \/ clause_outcome h "or" (lookup "must_not" fs) c1
                  /\ (fails "or" "should"
                      \/ clause_outcome h "or" (lookup "should" fs) c2
                         /\ fails "and" "should_not")) ->
        fst (standardize h (VObj o1 [("bool", VObj o2 fs)])) = Rejected e)
  /\ (forall k o c,
        In k object_keywords ->
        filter_object c = false ->
        standardize h (VObj o [(k, c)])
        = (reject (quoted k ++ " must be a non-empty object"), []))
  /\ (forall operand o c,
        operand = "and" \/ operand = "or" ->
        isArray c = false ->
        standardize h (VObj o [(operand, c)])
        = (reject ("Attribute " ++ quoted operand ++ " in " ++ quoted operand
                   ++ " must be an array"), []))
  /\ (forall k o o' kv1 kv2 rest,
        In k single_field_keywords ->
        standardize h (VObj o [(k, VObj o' (kv1 :: kv2 :: rest))])
        = (reject (quoted k ++ " can contain only one attribute"), []))
  /\ (forall o1 o2 o3 field bs e,
        forallb range_attribute bs = true ->
        forallb bounded bs = true ->
        NoDup (map fst bs) ->
        last_error (duplicate_bounds field [] (map fst bs)) = Some e ->
        fst (standardize h (range_filter o1 o2 o3 field bs)) = Rejected e).
Proof.
  split; [|split; [|split; [|split; [|split; [|split; [|split]]]]]].
  - intros o child e Hc Hf. rewrite (standardize_not h o child Hc).
    unfold failure in Hf. destruct (fst (standardize h child)); congruence.
  - intros operand o1 o2 before c after e.
    apply array_children_first_rejection.
  - intros operand o1 o2 before c after e.
    apply array_children_first_throw.
  - intros o1 o2 kv fields o oa items flag c1 c2 e.
    apply bool_first_failure.
  - intros k o c. apply content_checked_first.
  - intros operand o c. apply array_checked_first.
  - intros k o o' kv1 kv2 rest. apply single_field_checked_second.
  - intros o1 o2 o3 field bs e. apply range_last_violation.
Qed.

Lemma errors_propagate_unchanged_witness :
  fst (standardize plain_host (obj [("not", exists_filter EmptyString)]))
  = Rejected (BadRequestError "exists: cannot test empty field name").
Proof.
  apply (proj1 (errors_propagate_unchanged plain_host) Input (exists_filter EmptyString)).
  - reflexivity.
  - reflexivity.
Defined.

(** C8 as it is stated fails in two places.  On [{not: {exists: 5}}] the
    child is rejected because [exists] is not a non-empty object, the [not]
    over it because [not.exists] is not, which is another error.  And on
    [{range: {age: {lt: 5, lte: 6, gt: 1, gte: 2}}}] the first violation
    that [range] meets is the second upper bound, yet the filter fails with
    the error of the second lower bound, which the loop met afterwards. *)
Lemma errors_claim_fails :
  ~ propagates plain_host (obj [("not", obj [("exists", num 5)])]) (obj [("exists", num 5)])
  /\ ~ fails_fast plain_host Input Input Input "age"
         [("lt", num 5); ("lte", num 6); ("gt", num 1); ("gte", num 2)]
  /\ hd_error (duplicate_bounds "age" [] ["lt"; "lte"; "gt"; "gte"])
     = Some (BadRequestError (quoted "range.age:" ++ " only 1 upper boundary allowed"))
  /\ fst (standardize plain_host
            (range_filter Input Input Input "age"
               [("lt", num 5); ("lte", num 6); ("gt", num 1); ("gte", num 2)]))
     = Rejected (BadRequestError (quoted "range.age:" ++ " only 1 lower boundary allowed")).
Proof.
  split; [|split; [|split]].
  - intros H. specialize (H _ eq_refl). vm_compute in H. discriminate H.
  - intros H. specialize (H _ eq_refl). vm_compute in H. discriminate H.
  - reflexivity.
  - vm_compute. reflexivity.
Qed.

(** ** Standardizing twice *)

Lemma combinator_top_key (r : value) :
  sound r ->
  is_key (top_key r) "and" || is_key (top_key r) "or" = true ->
  exists operand co items flag,
    r = VObj Fresh [(operand, VArr co items); ("_isLeaf", flag)]
    /\ (operand = "and" \/ operand = "or") /\ flag_ok flag /\ Forall sound items.
Proof.
  intros Hs Hk. unfold top_key in Hk.
  destruct r as [| | | |s|o items|o [|[k c] rest]]; try discriminate Hk.
  - destruct s; discriminate Hk.
  - contradiction.
  - cbn [keys map fst is_key] in Hk.
    assert (Hop : String.eqb k "and" || String.eqb k "or" = true) by exact Hk.
    apply (sound_node o k c rest Hop) in Hs.
    destruct Hs as (-> & items & co & flag & -> & -> & Hflag & Hitems).
    exists k, co, items, flag. split; [reflexivity|].
    split; [apply operand_cases; exact Hop|]. split; assumption.
Qed.

(** X22: [standardize] does not accept its own [and] and [or] nodes.  A
    node it resolves to is a new object with exactly two keys, the operand
    over an array and [_isLeaf] holding [true], [false], [0] or [1]; given
    back to [standardize], such a node is rejected as invalid syntax,
    because [_isLeaf] counts as a second keyword.  (The members inherited
    from [Object.prototype] are taken to return no such look-alike.) *)
Theorem standardized_node_is_not_a_filter (h : host) (filters r : value) :
  host_sound h ->
  fst (standardize h filters) = Resolved r ->
  combinator r = true ->
  (exists operand co items flag,
     r = VObj Fresh [(operand, VArr co items); ("_isLeaf", flag)]
     /\ (operand = "and" \/ operand = "or") /\ flag_ok flag /\ Forall sound items)
  /\ standardize h r = (reject "Invalid filter syntax", []).
Proof.
  intros Hhost Hr Hk.
  pose proof (proj1 (standardize_good h filters Hhost) r Hr) as Hs.
  destruct (combinator_top_key r Hs Hk) as (operand & co & items & flag & -> & Hop & Hf & Hi).
  split; [eauto 8|].
  apply (standardize_many_keys h _ operand "_isLeaf" []). reflexivity.
Qed.

Lemma standardized_node_is_not_a_filter_witness :
  standardize plain_host (node "or" [exists_filter "a"; exists_filter "b"] (VBool true))
  = (reject "Invalid filter syntax", []).
Proof.
  apply (proj2 (standardized_node_is_not_a_filter plain_host
                  (obj [("or", arr [exists_filter "a"; exists_filter "b"])])
                  (node "or" [exists_filter "a"; exists_filter "b"] (VBool true))
                  plain_host_sound eq_refl eq_refl)).
Defined.

(** ** The meaning of the leaf flag *)

Lemma all_leaf_flags_Forall (l : list value) :
  (fix all (l : list value) : Prop :=
     match l with
     | [] => True
     | x :: r => leaf_flags x /\ all r
     end) l <-> Forall leaf_flags l.
Proof.
  induction l as [|x l IH]; split; intros H.
  - constructor.
  - exact I.
  - destruct H as [Hx Hl]. constructor; [exact Hx|apply IH; exact Hl].
  - inversion H; subst. split; [assumption|apply IH; assumption].
Qed.

Lemma leaf_flags_node (o co : origin) (operand : string) (items : list value) (flag : value) :
  String.eqb operand "and" || String.eqb operand "or" = true ->
  leaf_flags (VObj o [(operand, VArr co items); ("_isLeaf", flag)]) <->
  (truthy flag = true -> forallb (fun x => negb (combinator x)) items = true)
  /\ Forall leaf_flags items.
Proof.
  intros Hop. cbn [leaf_flags]. rewrite Hop.
  cbn [lookup String.eqb Ascii.eqb Bool.eqb]. rewrite all_leaf_flags_Forall. reflexivity.
Qed.

Lemma leaf_flags_other (o : origin) (k : string) (c : value) (rest : list (string * value)) :
  String.eqb k "and" || String.eqb k "or" = false -> String.eqb k "not" = false ->
  leaf_flags (VObj o ((k, c) :: rest)).
Proof.
  intros Hop Hnot. cbn [leaf_flags]. rewrite Hop, Hnot. exact I.
Qed.

Lemma equals_of_leaves (field : string) (values : list value) :
  forallb (fun x => negb (combinator x)) (equals_of field values) = true
  /\ Forall leaf_flags (equals_of field values).
Proof.
  induction values as [|v values [IH1 IH2]]; cbn [equals_of map forallb].
  - split; [reflexivity|constructor].
  - split; [exact IH1|]. constructor; [|exact IH2]. apply leaf_flags_other; reflexivity.
Qed.

Lemma rewritten_leafy (field : string) (values : list value) :
  leaf_flags (node "or" (equals_of field values) (VBool true)).
Proof.
  apply (leaf_flags_node Fresh Fresh "or" _ _ eq_refl).
  destruct (equals_of_leaves field values) as [H1 H2]. split; [intros _; exact H1|exact H2].
Qed.

Section LeafFlagsOfLeaves.

Variable h : host.
Variables (o : origin) (c : value).

Lemma exists_leafy (r : value) :
  exists_ (VObj o [("exists", c)]) None = Resolved r -> leaf_flags r.
Proof.
  intros H. unfold exists_ in H. last_callback H.
  inversion H; subst. apply leaf_flags_other; reflexivity.
Qed.

Lemma missing_leafy (r : value) :
  missing (VObj o [("missing", c)]) = Resolved r -> leaf_flags r.
Proof.
  intros H. unfold missing in H. last_callback H.
  inversion H; subst. cbn [leaf_flags String.eqb Ascii.eqb Bool.eqb orb]. exact I.
Qed.

Lemma ids_leafy (r : value) :
  ids (VObj o [("ids", c)]) = Resolved r -> leaf_flags r.
Proof.
  intros H. destruct (ids_outcome o c) as [(oc & v & _ & _ & Hr)|[_ [m Hr]]];
    rewrite Hr in H; inversion H; subst. apply rewritten_leafy.
Qed.

Lemma in_leafy (r : value) :
  in_ (VObj o [("in", c)]) = Resolved r -> leaf_flags r.
Proof.
  intros H. destruct (in_outcome o c) as [(oc & f & v & _ & _ & Hr)|[_ [m Hr]]];
    rewrite Hr in H; inversion H; subst. apply rewritten_leafy.
Qed.

Lemma equals_leafy (r : value) :
  equals (VObj o [("equals", c)]) = Resolved r -> leaf_flags r.
Proof.
  intros H. unfold equals in H. last_callback H.
  inversion H; subst. apply leaf_flags_other; reflexivity.
Qed.

Lemma range_leafy (r : value) :
  range (VObj o [("range", c)]) = Resolved r -> leaf_flags r.
Proof.
  intros H. unfold range in H. last_callback H. unfold range_values in H. last_callback H.
  inversion H; subst. apply leaf_flags_other; reflexivity.
Qed.

Lemma regexp_leafy (r : value) :
  regexp h (VObj o [("regexp", c)]) = Resolved r -> leaf_flags r.
Proof.
  intros H. unfold regexp in H. last_callback H.
  inversion H; subst. apply leaf_flags_other; reflexivity.
Qed.

Lemma geoBoundingBox_leafy (r : value) :
  geoBoundingBox h (VObj o [("geoBoundingBox", c)]) = Resolved r -> leaf_flags r.
Proof.
  intros H. unfold geoBoundingBox in H. last_callback H.
  inversion H; subst. apply leaf_flags_other; reflexivity.
Qed.

Lemma geoDistance_leafy (r : value) :
  geoDistance h (VObj o [("geoDistance", c)]) = Resolved r -> leaf_flags r.
Proof.
  intros H. unfold geoDistance in H.
  last_callback H; inversion H; subst; apply leaf_flags_other; reflexivity.
Qed.

Lemma geoDistanceRange_leafy (r : value) :
  geoDistanceRange h (VObj o [("geoDistanceRange", c)]) = Resolved r -> leaf_flags r.
Proof.
  intros H. unfold geoDistanceRange in H.
  last_callback H; inversion H; subst; apply leaf_flags_other; reflexivity.
Qed.

Lemma geoPolygon_leafy (r : value) :
  geoPolygon h (VObj o [("geoPolygon", c)]) = Resolved r -> leaf_flags r.
Proof.
  intros H. unfold geoPolygon in H.
  last_callback H; inversion H; subst; apply leaf_flags_other; reflexivity.
Qed.

End LeafFlagsOfLeaves.

Lemma thenW_resolved_inv {A B : Type} (p : outcome A * log) (f : A -> outcome B * log)
  (b : B) :
  fst (thenW p f) = Resolved b -> exists a, fst p = Resolved a /\ fst (f a) = Resolved b.
Proof.
  rewrite thenW_fst. destruct (fst p) as [a|e|e]; try discriminate.
  intros H. exists a. split; [reflexivity|]. destruct (fst (f a)); congruence.
Qed.

Lemma thenW_leafy {A : Type} (p : outcome A * log) (f : A -> run) :
  (forall a, fst p = Resolved a -> leafy (f a)) -> leafy (thenW p f).
Proof.
  intros Hf x Hx. apply thenW_resolved_inv in Hx. destruct Hx as (a & Ha & Hx).
  exact (Hf a Ha x Hx).
Qed.

Lemma leafy_pure (p : outcome value) :
  (forall x, p = Resolved x -> leaf_flags x) -> leafy (pure_ p).
Proof.
  intros Hp x Hx. exact (Hp x Hx).
Qed.

Section LeafFlagsOfCombinators.

Variable h : host.
Variable self : value -> run.
Hypothesis self_good : forall c, good (self c).
Hypothesis self_leafy : forall c, leafy (self c).

Lemma isLeaf_attribute (operand : string) (c flag : value) :
  operand = "and" \/ operand = "or" ->
  lookup "_isLeaf" [(operand, c); ("_isLeaf", flag)] = flag
  /\ lookup operand [(operand, c); ("_isLeaf", flag)] = c.
Proof.
  intros [-> | ->]; split; reflexivity.
Qed.

Lemma reducer_leafy (operand : string) (result : flat) (sub : value) :
  operand = "and" \/ operand = "or" ->
  result_inv result -> leaf_inv result -> sound sub -> leaf_flags sub ->
  forall result', fst (reducer h operand result sub) = Resolved result' -> leaf_inv result'.
Proof.
  intros Hop (_ & _ & _ & Hflag) [Hleaf Hch] Hsub Hlsub result'. unfold reducer.
  destruct (keys sub) as [ks|e|e] eqn:Hks; try discriminate.
  rewrite (top_key_hd sub ks Hks).
  destruct (is_key (top_key sub) operand) eqn:Ek.
  - assert (Hcomb : is_key (top_key sub) "and" || is_key (top_key sub) "or" = true).
    { destruct Hop as [-> | ->]; rewrite Ek; [reflexivity|apply orb_true_r]. }
    destruct (combinator_top_key sub Hsub Hcomb)
      as (op' & co & items & flag & -> & Hop' & Hf & _).
    assert (op' = operand) as ->.
    { unfold top_key in Ek. cbn [keys map fst is_key] in Ek. apply String.eqb_eq in Ek.
      exact Ek. }
    assert (Hopb : String.eqb operand "and" || String.eqb operand "or" = true)
      by (destruct Hop as [-> | ->]; reflexivity).
    apply (leaf_flags_node Fresh co operand items flag Hopb) in Hlsub.
    destruct Hlsub as [Hsubleaf Hsubch].
    destruct (isLeaf_attribute operand (VArr co items) flag Hop) as [Hl Ho].
    cbn [fst get_prop]. rewrite Hl, Ho. cbn [spread].
    intros H. injection H as <-. unfold leaf_inv. cbn [children isLeaf]. split.
    + rewrite (bitand_flags h _ _ Hflag Hf).
      destruct (truthy (isLeaf result)); destruct (truthy flag); cbn [andb];
        try (intros Ht; discriminate Ht).
      intros _. rewrite forallb_app, (Hleaf eq_refl), (Hsubleaf eq_refl). reflexivity.
    + apply Forall_app. split; assumption.
  - destruct (is_key (top_key sub) "and" || is_key (top_key sub) "or") eqn:Ec; cbn [fst];
      intros H; injection H as <-; unfold leaf_inv; cbn [children isLeaf]; split.
    + intros Ht. discriminate Ht.
    + apply Forall_app. split; [exact Hch|]. constructor; [exact Hlsub|constructor].
    + intros Ht. rewrite forallb_app, (Hleaf Ht). cbn [forallb]. unfold combinator.
      rewrite Ec. reflexivity.
    + apply Forall_app. split; [exact Hch|]. constructor; [exact Hlsub|constructor].
Qed.

Lemma reduce_leafy (operand : string) (subs : list (outcome value)) :
  operand = "and" \/ operand = "or" ->
  (forall sub, In (Resolved sub) subs -> sound sub /\ leaf_flags sub) ->
  forall result,
    result_inv result -> leaf_inv result ->
    forall result', fst (reduce h operand subs result) = Resolved result' -> leaf_inv result'.
Proof.
  intros Hop.
  assert (Hopb : String.eqb operand "and" || String.eqb operand "or" = true)
    by (destruct Hop as [-> | ->]; reflexivity).
  induction subs as [|[sub|e|e] subs IH]; intros Hsubs result Hinv Hleaf result';
    cbn [reduce]; try discriminate.
  - intros H. injection H as <-. exact Hleaf.
  - destruct (Hsubs sub (or_introl eq_refl)) as [Hs Hl].
    pose proof (reducer_good h operand result sub Hopb Hinv Hs) as [_ Hinv1].
    pose proof (reducer_leafy operand result sub Hop Hinv Hleaf Hs Hl) as Hleaf1.
    destruct (reducer h operand result sub) as [[result1|e|e] w]; cbn [fst] in *;
      try discriminate.
    apply (IH (fun x Hx => Hsubs x (or_intror Hx)) result1 (Hinv1 _ eq_refl)
              (Hleaf1 _ eq_refl)).
Qed.

Lemma calls_leafy (items : list value) (subs : list (outcome value)) :
  fst (calls self items) = Resolved subs ->
  forall sub, In (Resolved sub) subs -> leaf_flags sub.
Proof.
  revert subs. induction items as [|f items IH]; cbn [calls]; intros subs H.
  - injection H as <-. intros sub [].
  - destruct (fst (self f)) as [x|e|e] eqn:Ef; cbn [fst] in H; try discriminate H.
    + destruct (fst (calls self items)) as [l|e|e]; try discriminate H.
      injection H as <-. intros sub [Hsub|Hsub].
      * injection Hsub as ->. exact (self_leafy f sub Ef).
      * exact (IH l eq_refl sub Hsub).
    + destruct (fst (calls self items)) as [l|e'|e']; try discriminate H.
      injection H as <-. intros sub [Hsub|Hsub]; [discriminate Hsub|].
      exact (IH l eq_refl sub Hsub).
Qed.

Lemma finish_leafy (operand : string) (result : flat) :
  operand = "and" \/ operand = "or" ->
  leaf_inv result -> leaf_flags (finish operand result).
Proof.
  intros Hop [Hleaf Hch]. unfold finish.
  assert (Hopb : String.eqb operand "and" || String.eqb operand "or" = true)
    by (destruct Hop as [-> | ->]; reflexivity).
  destruct (children result) as [|x [|y l]] eqn:E.
  - apply (leaf_flags_node _ _ operand _ _ Hopb). split; [intros _; reflexivity|constructor].
  - inversion Hch; assumption.
  - apply (leaf_flags_node _ _ operand _ _ Hopb). split; assumption.
Qed.

Lemma new_result_leaf_inv : leaf_inv new_result.
Proof.
  split; [intros _; reflexivity|constructor].
Qed.

Lemma _standardizeFilterArray_leafy (filter : value) (operand : string) :
  operand = "and" \/ operand = "or" ->
  leafy (_standardizeFilterArray h self filter operand).
Proof.
  intros Hop x. unfold _standardizeFilterArray.
  destruct (keys (get_prop filter operand)) as [ks|e|e]; try discriminate.
  destruct (bad_item (elements (get_prop filter operand))) as [[|]|e|e]; try discriminate.
  destruct (get_prop filter operand) as [| | | | |o items|o fields]; try discriminate.
  destruct (calls_good self self_good items) as [_ Hsound].
  pose proof (calls_leafy items) as Hleafy.
  destruct (fst (calls self items)) as [subs|e|e]; try discriminate.
  cbn [fst].
  pose proof (reduce_good h operand subs
                (ltac:(destruct Hop as [-> | ->]; reflexivity))
                (Hsound subs eq_refl) new_result new_result_inv) as [_ Hinv].
  pose proof (reduce_leafy operand subs Hop
                (fun sub Hsub => conj (Hsound subs eq_refl sub Hsub)
                                      (Hleafy subs eq_refl sub Hsub))
                new_result new_result_inv new_result_leaf_inv) as Hleaf.
  destruct (fst (reduce h operand subs new_result)) as [result|e|e]; try discriminate.
  intros H. injection H as <-. apply finish_leafy; [exact Hop|]. apply Hleaf. reflexivity.
Qed.

Lemma and_leafy (filter : value) (keyword : option string) :
  leafy (and_ h self filter keyword).
Proof.
  unfold and_. apply thenW_leafy. intros _ _. apply _standardizeFilterArray_leafy. auto.
Qed.

Lemma or_leafy (filter : value) (keyword : option string) :
  leafy (or_ h self filter keyword).
Proof.
  unfold or_. apply thenW_leafy. intros _ _. apply _standardizeFilterArray_leafy. auto.
Qed.

Lemma not_leafy (filter : value) : leafy (not_ self filter).
Proof.
  unfold not_. intros x Hx.
  apply thenW_resolved_inv in Hx. destruct Hx as (result & Hr & Hx).
  apply thenW_resolved_inv in Hr. destruct Hr as (u & _ & Hr).
  cbn [pure_ fst] in Hx. injection Hx as <-.
  cbn [leaf_flags String.eqb Ascii.eqb Bool.eqb orb].
  exact (self_leafy _ result Hr).
Qed.

Lemma clause_leafy (call : value -> run) (operand : string) (attribute : value) :
  (forall f, leafy (call f)) -> leafy (clause call operand attribute).
Proof.
  intros Hcall. unfold clause. destruct (truthy attribute); [apply Hcall|].
  intros x Hx. injection Hx as <-. exact I.
Qed.

Lemma add_clause_leafy (standardized cl : value) :
  sound standardized -> leaf_flags standardized -> sound cl -> leaf_flags cl ->
  leafy (add_clause h standardized cl).
Proof.
  intros Hst Hlst Hscl Hcl x. unfold add_clause.
  destruct standardized as [| | | | |o items|o [|[k c] rest]]; try discriminate.
  destruct (String.eqb k "and") eqn:Ek.
  - apply String.eqb_eq in Ek. subst k.
    apply (sound_node o "and" c rest eq_refl) in Hst.
    destruct Hst as (-> & items & co & flag & -> & -> & Hf & Hitems).
    apply (leaf_flags_node Fresh co "and" items flag eq_refl) in Hlst.
    destruct Hlst as [_ Hch].
    cbn [lookup String.eqb Ascii.eqb Bool.eqb assign fst].
    intros H. injection H as <-.
    apply (leaf_flags_node Fresh Fresh "and" _ _ eq_refl).
    split; [intros Ht; discriminate Ht|].
    apply Forall_app. split; [exact Hch|].
    rewrite (sound_spread cl Hscl). constructor; [exact Hcl|constructor].
  - assert (Hno : lookup "and" ((k, c) :: rest) = VUndef).
    { destruct (String.eqb k "or") eqn:Eo.
      - apply String.eqb_eq in Eo. subst k.
        apply (sound_node o "or" c rest eq_refl) in Hst.
        destruct Hst as (_ & items & co & flag & _ & -> & _ & _). reflexivity.
      - apply (sound_other o k c rest) in Hst; [exact Hst|]. rewrite Ek, Eo. reflexivity. }
    rewrite Hno. discriminate.
Qed.

Lemma bool_last_leafy (standardized x : value) :
  sound standardized -> leaf_flags standardized ->
  bool_last standardized = Resolved x -> leaf_flags x.
Proof.
  intros Hst Hlst H. unfold bool_last, read in H.
  destruct (nullish standardized); [discriminate H|]. cbn [seq_] in H.
  destruct standardized as [| | | | |o items|o [|[k c] rest]]; try discriminate H.
  cbn [get_prop] in H.
  destruct (String.eqb k "and") eqn:Ek.
  - apply String.eqb_eq in Ek. subst k.
    pose proof Hst as Hnode. apply (sound_node o "and" c rest eq_refl) in Hnode.
    destruct Hnode as (-> & items & co & flag & -> & -> & Hf & Hitems).
    cbn [lookup String.eqb Ascii.eqb Bool.eqb length_is seq_] in H.
    pose proof (proj1 (leaf_flags_node Fresh co "and" items flag eq_refl) Hlst) as [_ Hch].
    destruct items as [|y [|z l]]; cbn [List.length Nat.eqb get_index nth] in H;
      injection H as <-; try exact Hlst.
    inversion Hch; assumption.
  - assert (Hno : lookup "and" ((k, c) :: rest) = VUndef).
    { destruct (String.eqb k "or") eqn:Eo.
      - apply String.eqb_eq in Eo. subst k.
        apply (sound_node o "or" c rest eq_refl) in Hst.
        destruct Hst as (_ & items & co & flag & _ & -> & _ & _). reflexivity.
      - apply (sound_other o k c rest) in Hst; [exact Hst|]. rewrite Ek, Eo. reflexivity. }
    rewrite Hno in H. discriminate H.
Qed.

(** A step of a chain whose value is a result: both invariants go through. *)
Lemma thenW_both (p : run) (f : value -> run) :
  good p -> leafy p ->
  (forall a, sound a -> leaf_flags a -> good (f a) /\ leafy (f a)) ->
  good (thenW p f) /\ leafy (thenW p f).
Proof.
  intros [Hs Hw] Hl Hf. split.
  - apply thenW_good; [exact Hw|]. intros a Ha. apply Hf; [exact (Hs a Ha)|exact (Hl a Ha)].
  - apply thenW_leafy. intros a Ha. apply Hf; [exact (Hs a Ha)|exact (Hl a Ha)].
Qed.

Lemma bool_both (filter : value) : good (bool_ h self filter) /\ leafy (bool_ h self filter).
Proof.
  assert (Hand : forall a, good (clause (fun f => and_ h self f None) "and" a)
                           /\ leafy (clause (fun f => and_ h self f None) "and" a)).
  { intros a. split.
    - apply clause_good. intros f. apply and_good. exact self_good.
    - apply clause_leafy. intros f. apply and_leafy. }
  assert (Hor : forall a, good (clause (fun f => or_ h self f None) "or" a)
                          /\ leafy (clause (fun f => or_ h self f None) "or" a)).
  { intros a. split.
    - apply clause_good. intros f. apply or_good. exact self_good.
    - apply clause_leafy. intros f. apply or_leafy. }
  assert (Hadd : forall standardized f cl,
            sound standardized -> leaf_flags standardized -> sound cl -> leaf_flags cl ->
            good (if truthy f then add_clause h standardized cl
                  else pure_ (Resolved standardized))
            /\ leafy (if truthy f then add_clause h standardized cl
                      else pure_ (Resolved standardized))).
  { intros standardized f cl Hst Hlst Hcl Hlcl. destruct (truthy f).
    - split; [apply add_clause_good; assumption|apply add_clause_leafy; assumption].
    - split.
      + apply good_pure. intros x Hx. injection Hx as <-. exact Hst.
      + apply leafy_pure. intros x Hx. injection Hx as <-. exact Hlst. }
  assert (Hneg : forall f, leaf_flags f -> sound (negated f) /\ leaf_flags (negated f)).
  { intros f Hf. split; [apply keyword_object_sound; reflexivity|exact Hf]. }
  unfold bool_.
  match goal with
  | |- good (thenW ?p _) /\ _ => assert (Hfirst : good p /\ leafy p)
  end.
  { split.
    - apply thenW_good; [constructor|]. intros fields _.
      destruct (existsb _ fields); [|apply Hand].
      apply good_pure. intros x Hx. discriminate Hx.
    - apply thenW_leafy. intros fields _.
      destruct (existsb _ fields); [|apply Hand].
      apply leafy_pure. intros x Hx. discriminate Hx. }
  destruct Hfirst as [Hg1 Hl1].
  apply thenW_both; [exact Hg1|exact Hl1|]. intros f Hf Hlf. cbv zeta.
  assert (Hst : sound (if truthy f then f
                       else VObj Fresh [("and", VArr Fresh []); ("_isLeaf", VBool true)])
                /\ leaf_flags (if truthy f then f
                               else VObj Fresh [("and", VArr Fresh []);
                                                ("_isLeaf", VBool true)])).
  { destruct (truthy f); [split; assumption|]. split.
    - apply (sound_node Fresh "and" _ _ eq_refl). split; [reflexivity|].
      exists [], Fresh, (VBool true). repeat split; auto. left. reflexivity.
    - apply (leaf_flags_node Fresh Fresh "and" _ _ eq_refl).
      split; [intros _; reflexivity|constructor]. }
  destruct Hst as [Hst Hlst].
  apply thenW_both; [apply Hor|apply Hor|]. intros f1 Hf1 Hlf1.
  destruct (Hneg f1 Hlf1) as [Hn1 Hln1].
  apply thenW_both; [apply Hadd; assumption|apply Hadd; assumption|]. intros st1 Hst1 Hlst1.
  apply thenW_both; [apply Hor|apply Hor|]. intros f2 Hf2 Hlf2.
  apply thenW_both; [apply Hadd; assumption|apply Hadd; assumption|]. intros st2 Hst2 Hlst2.
  apply thenW_both; [apply Hand|apply Hand|]. intros f3 Hf3 Hlf3.
  destruct (Hneg f3 Hlf3) as [Hn3 Hln3].
  apply thenW_both; [apply Hadd; assumption|apply Hadd; assumption|]. intros st3 Hst3 Hlst3.
  split.
  - apply good_pure. intros x Hx. apply (bool_last_sound st3 x Hst3 Hx).
  - apply leafy_pure. intros x Hx. apply (bool_last_leafy st3 x Hst3 Hlst3 Hx).
Qed.

End LeafFlagsOfCombinators.

Lemma standardize_body_leafy (h : host) (self : value -> run) (v : value) :
  host_leaf_flags h -> (forall c, good (self c)) -> (forall c, leafy (self c)) ->
  leafy (standardize_body h self v).
Proof.
  intros Hhost Hgood Hself. unfold standardize_body.
  destruct (keywords v) as [[|k [|k2 ks]]|e|e] eqn:Hk;
    try (intros x Hx; discriminate Hx);
    try (intros x Hx; injection Hx as <-; exact I).
  destruct (member_named k members) as [m|] eqn:Hm.
  - destruct (member_keyword_object v k m Hk Hm) as (o & c & ->).
    apply member_named_name in Hm. subst k.
    destruct m; cbn [invoke name_of].
    + apply leafy_pure. apply exists_leafy.
    + apply leafy_pure. apply ids_leafy.
    + apply leafy_pure. apply missing_leafy.
    + apply leafy_pure. apply range_leafy.
    + apply leafy_pure. apply regexp_leafy.
    + apply leafy_pure. apply equals_leafy.
    + apply leafy_pure. apply in_leafy.
    + apply leafy_pure. apply geoBoundingBox_leafy.
    + apply leafy_pure. apply geoDistance_leafy.
    + apply leafy_pure. apply geoDistanceRange_leafy.
    + apply leafy_pure. apply geoPolygon_leafy.
    + apply and_leafy; assumption.
    + apply or_leafy; assumption.
    + apply not_leafy. exact Hself.
    + apply bool_both; assumption.
    + intros x Hx. discriminate Hx.
    + intros x Hx. discriminate Hx.
    + intros x Hx. discriminate Hx.
  - destruct (inherited h k v) as [[r|e|e]|] eqn:Hi;
      try (intros x Hx; discriminate Hx).
    intros x Hx. injection Hx as <-. exact (Hhost k v r Hi).
Qed.

Lemma standardize_at_leafy (h : host) (n : nat) :
  host_sound h -> host_leaf_flags h -> forall v, leafy (standardize_at h n v).
Proof.
  intros Hsound Hhost. induction n as [|n IH]; intros v.
  - intros x Hx. discriminate Hx.
  - cbn [standardize_at]. apply standardize_body_leafy; [exact Hhost| |exact IH].
    intros c. apply standardize_at_good. exact Hsound.
Qed.

Lemma plain_host_leaf_flags : host_leaf_flags plain_host.
Proof.
  intros name filters r. cbn [inherited plain_host].
  destruct (String.eqb name "toString"); [intros H; inversion H; exact I|].
  destruct (String.eqb name "hasOwnProperty"); [intros H; inversion H; exact I|].
  discriminate.
Qed.

(** X23: what the leaf flag means.  In everything [standardize] resolves
    to, an [and] or [or] node whose [_isLeaf] is truthy has no [and] or [or]
    node among its children, and this holds again of the children of every
    node and under every [not].  (The members inherited from
    [Object.prototype] are taken to return no combinator look-alike.) *)
Theorem truthy_leaf_flag_means_leaf_children (h : host) (filters r : value) :
  host_sound h -> host_leaf_flags h ->
  fst (standardize h filters) = Resolved r ->
  leaf_flags r
  /\ (forall operand co items flag,
        r = VObj Fresh [(operand, VArr co items); ("_isLeaf", flag)] ->
        operand = "and" \/ operand = "or" ->
        truthy flag = true ->
        Forall (fun x => combinator x = false) items).
Proof.
  intros Hsound Hhost Hr.
  assert (Hl : leaf_flags r) by exact (standardize_at_leafy h _ Hsound Hhost filters r Hr).
  split; [exact Hl|].
  intros operand co items flag -> Hop Ht.
  assert (Hopb : String.eqb operand "and" || String.eqb operand "or" = true)
    by (destruct Hop as [-> | ->]; reflexivity).
  apply (leaf_flags_node Fresh co operand items flag Hopb) in Hl.
  destruct Hl as [Hleaf _]. specialize (Hleaf Ht).
  apply Forall_forall. intros x Hx.
  pose proof (proj1 (forallb_forall _ _) Hleaf x Hx) as Hn.
  apply negb_true_iff in Hn. exact Hn.
Qed.

Lemma truthy_leaf_flag_means_leaf_children_witness :
  Forall (fun x => combinator x = false)
         [exists_filter "a"; exists_filter "b"; exists_filter "c"].
Proof.
  apply (proj2 (truthy_leaf_flag_means_leaf_children plain_host
                  (obj [("and", arr [obj [("and", arr [exists_filter "a"; exists_filter "b"])];
                                     exists_filter "c"])])
                  (VObj Fresh [("and", VArr Fresh [exists_filter "a"; exists_filter "b";
                                                   exists_filter "c"]);
                               ("_isLeaf", VNum 1)])
                  plain_host_sound plain_host_leaf_flags eq_refl)
           "and" Fresh _ (VNum 1) eq_refl (or_introl eq_refl) eq_refl).
Defined.
